(** * A CRM backend over a document store: leads, sales agents, comments

    Shallow embedding of [src/index.js].  Every operation of the file is an
    [async] function that talks to three Mongoose models ([Lead],
    [SalesAgent], [Comment]); here an operation is a function in a small
    state-and-exception monad over the three collections.

    Conventions of the embedding.
    - A request field is [option]al: [None] stands for a key that is missing,
      [undefined] or [null]; [Some v] carries a value of the type the data
      model gives the field (text, integer, list of texts, identifier).
    - The operations come twice.  First on requests whose identifiers are
      well-formed ObjectIds ([createLead], [updateLeadById], ...); then, in
      the section on requests as they arrive, on requests that carry their
      identifiers as text ([createLead_req], [updateLeadById_req], ...),
      where a text that is not an identifier makes the driver's lookup
      throw.  The first are proved to be the second on well-formed
      requests.
    - [await] is sequencing; a failure of the connection itself is not
      modelled. *)

From Stdlib Require Import String List ZArith Bool Arith Lia.
Import ListNotations.
Open Scope string_scope.
Open Scope list_scope.

Set Implicit Arguments.

(** ** JavaScript truthiness *)

Definition ObjectId := nat.

(** [ToBoolean] of a JavaScript value, by the type of the value. *)
Class Truthy (A : Type) := truthy : A -> bool.

(** A text is falsy exactly when it is empty. *)
#[global] Instance Truthy_string : Truthy string :=
  fun s => negb (s =? "").

(** A number is falsy exactly when it is zero. *)
#[global] Instance Truthy_Z : Truthy Z :=
  fun z => negb (z =? 0)%Z.

(** An array is an object, and every object is truthy: also the empty one. *)
#[global] Instance Truthy_list (A : Type) : Truthy (list A) :=
  fun _ => true.

(** An identifier arrives as a text of twenty-four digits: never empty. *)
#[global] Instance Truthy_ObjectId : Truthy ObjectId :=
  fun _ => true.

(** [undefined] and [null] are falsy. *)
#[global] Instance Truthy_option (A : Type) `{Truthy A} : Truthy (option A) :=
  fun o => match o with
           | Some v => truthy v
           | None => false
           end.

Notation "! x" := (negb (truthy x)) (at level 35, right associativity).

(** ** Documents *)

Module SalesAgentSchema.
Record fields := Fields {
  name : option string;
  email : option string
}.
Record doc := Doc {
  _id : ObjectId;
  data : fields
}.
End SalesAgentSchema.

(** The seven fields [index.js] reads and writes.  What else a lead may
    carry ([closedAt], timestamps) is set by none of the operations below
    and is left out. *)
Module LeadSchema.
Record fields := Fields {
  name : option string;
  source : option string;
  salesAgent : option ObjectId;
  status : option string;
  timeToClose : option Z;
  priority : option string;
  tags : option (list string)
}.
Record doc := Doc {
  _id : ObjectId;
  data : fields
}.
End LeadSchema.

Module CommentSchema.
Record fields := Fields {
  lead : option ObjectId;
  commentText : option string;
  author : option ObjectId
}.
Record doc := Doc {
  _id : ObjectId;
  data : fields
}.
End CommentSchema.

(** A lead after [.populate("salesAgent")]: the reference is replaced by the
    referenced document, or by [null] when no agent has that identifier. *)
Module PopulatedLead.
Record doc := Doc {
  _id : ObjectId;
  name : option string;
  source : option string;
  salesAgent : option SalesAgentSchema.doc;
  status : option string;
  timeToClose : option Z;
  priority : option string;
  tags : option (list string)
}.
End PopulatedLead.

(** ** The store and the monad of the handlers *)

Record Store := {
  leads : list LeadSchema.doc;
  salesagents : list SalesAgentSchema.doc;
  comments : list CommentSchema.doc
}.

(** [new Error(message)] *)
Record Error := { message : string }.

Inductive Result (A : Type) : Type :=
| Ok (a : A)
| Throw (e : Error).
Arguments Ok {A} a.
Arguments Throw {A} e.

Definition M (A : Type) : Type := Store -> Result A * Store.

Definition ret {A} (a : A) : M A := fun st => (Ok a, st).

Definition throw {A} (e : Error) : M A := fun st => (Throw e, st).

Definition bind {A B} (m : M A) (k : A -> M B) : M B :=
  fun st =>
    match m st with
    | (Ok a, st') => k a st'
    | (Throw e, st') => (Throw e, st')
    end.

Definition try_catch {A} (body : M A) (handler : Error -> M A) : M A :=
  fun st =>
    match body st with
    | (Ok a, st') => (Ok a, st')
    | (Throw e, st') => handler e st'
    end.

Definition gets {A} (f : Store -> A) : M A := fun st => (Ok (f st), st).

Definition modify (f : Store -> Store) : M unit := fun st => (Ok tt, f st).

Notation "x <- c ;; k" := (bind c (fun x => k))
  (at level 61, c at next level, right associativity).
Notation "c ;; k" := (bind c (fun _ => k))
  (at level 61, right associativity).

(** The console is not part of the state. *)
Definition console_log (label : string) (error : Error) : M unit := ret tt.

(** ** The collections *)

(** Modelled from the spec: the model modules [./models/lead.model],
    [./models/salesAgent.model] and [./models/comment.model] are not among
    the sources.  Following the spec, a collection is a sequence of documents
    with no constraint at the storage level; a document made by [new] gets an
    identifier that no document of its collection has. *)
Definition freshId (ids : list ObjectId) : ObjectId := S (list_max ids).

Section Collection.
Variable D : Type.
Variable id_of : D -> ObjectId.

Definition findById_in (docs : list D) (i : option ObjectId) : option D :=
  match i with
  | Some i => find (fun d => (id_of d =? i)%nat) docs
  | None => None
  end.

Definition find_in (q : D -> bool) (docs : list D) : list D := filter q docs.

Definition findOne_in (q : D -> bool) (docs : list D) : option D := find q docs.

Definition countDocuments_in (q : D -> bool) (docs : list D) : nat :=
  length (filter q docs).

(** Replaces the first document with identifier [i], if any. *)
Fixpoint update_in (i : ObjectId) (f : D -> D) (docs : list D) : list D :=
  match docs with
  | [] => []
  | d :: rest =>
      if (id_of d =? i)%nat then f d :: rest else d :: update_in i f rest
  end.

(** Removes the first document with identifier [i], if any. *)
Fixpoint delete_in (i : ObjectId) (docs : list D) : list D :=
  match docs with
  | [] => []
  | d :: rest => if (id_of d =? i)%nat then rest else d :: delete_in i rest
  end.
End Collection.

(** A document is an object: truthy. *)
#[global] Instance Truthy_agent : Truthy SalesAgentSchema.doc := fun _ => true.
#[global] Instance Truthy_lead : Truthy LeadSchema.doc := fun _ => true.
#[global] Instance Truthy_comment : Truthy CommentSchema.doc := fun _ => true.
#[global] Instance Truthy_populated : Truthy PopulatedLead.doc := fun _ => true.

(** ** Query conditions *)

(** The two shapes of condition the handlers put on a field:
    [{ field: v }] and [{ field: { $ne: v } }]. *)
Inductive Cond (A : Type) : Type :=
| Eq (v : option A)
| Ne (v : option A).

Definition option_eqb {A} (eqb : A -> A -> bool) (x y : option A) : bool :=
  match x, y with
  | Some a, Some b => eqb a b
  | None, None => true
  | _, _ => false
  end.

Definition holds {A} (eqb : A -> A -> bool) (c : Cond A) (stored : option A)
  : bool :=
  match c with
  | Eq v => option_eqb eqb stored v
  | Ne v => negb (option_eqb eqb stored v)
  end.

(** A key the query object does not have puts no condition. *)
Definition holds_if {A} (eqb : A -> A -> bool) (c : option (Cond A))
  (stored : option A) : bool :=
  match c with
  | Some c => holds eqb c stored
  | None => true
  end.

(** The query objects given to [Lead.find] and [Lead.countDocuments]. *)
Module LeadQuery.
Record t := Query {
  salesAgent : option (Cond ObjectId);
  status : option (Cond string);
  source : option (Cond string)
}.

Definition empty : t := Query None None None.

Definition set_salesAgent (c : Cond ObjectId) (q : t) : t :=
  Query (Some c) (status q) (source q).
Definition set_status (c : Cond string) (q : t) : t :=
  Query (salesAgent q) (Some c) (source q).
Definition set_source (c : Cond string) (q : t) : t :=
  Query (salesAgent q) (status q) (Some c).

Definition matches (q : t) (d : LeadSchema.doc) : bool :=
  holds_if Nat.eqb (salesAgent q) (LeadSchema.salesAgent (LeadSchema.data d))
  && holds_if String.eqb (status q) (LeadSchema.status (LeadSchema.data d))
  && holds_if String.eqb (source q) (LeadSchema.source (LeadSchema.data d)).
End LeadQuery.

(** ** The three models *)

Definition with_leads (f : list LeadSchema.doc -> list LeadSchema.doc)
  (st : Store) : Store :=
  {| leads := f (leads st);
     salesagents := salesagents st;
     comments := comments st |}.

Definition with_salesagents
  (f : list SalesAgentSchema.doc -> list SalesAgentSchema.doc)
  (st : Store) : Store :=
  {| leads := leads st;
     salesagents := f (salesagents st);
     comments := comments st |}.

Definition with_comments
  (f : list CommentSchema.doc -> list CommentSchema.doc)
  (st : Store) : Store :=
  {| leads := leads st;
     salesagents := salesagents st;
     comments := f (comments st) |}.

Module SalesAgent.
Import SalesAgentSchema.

Definition findById (i : option ObjectId) : M (option doc) :=
  gets (fun st => findById_in _id (salesagents st) i).

(** [SalesAgent.findOne({ email })] *)
Definition findOne_email (email_ : option string) : M (option doc) :=
  gets (fun st =>
    findOne_in (fun d => option_eqb String.eqb (email (data d)) email_)
      (salesagents st)).

(** [SalesAgent.find()] *)
Definition find : M (list doc) := gets salesagents.

(** [new SalesAgent(fields)] *)
Definition new (f : fields) : M doc :=
  gets (fun st => Doc (freshId (map _id (salesagents st))) f).

(** [agent.save()] of a document made by [new]. *)
Definition save (d : doc) : M unit :=
  modify (with_salesagents (fun docs => docs ++ [d])).
End SalesAgent.

Module Aggregate.
(** The documents between the stages of the pipeline of
    [readClosedLeadsByAgent]. *)
Record grouped := Grouped {
  g_id : option ObjectId;
  g_count : nat
}.
Record joined := Joined {
  j_id : option ObjectId;
  j_count : nat;
  j_salesAgent : list SalesAgentSchema.doc
}.
Record unwound := Unwound {
  u_id : option ObjectId;
  u_count : nat;
  u_salesAgent : SalesAgentSchema.doc
}.
Record projected := Projected {
  salesAgent : option string;
  count : nat
}.

(** [{ $match: { status: "Closed" } }] *)
Definition match_status (v : string) (docs : list LeadSchema.doc)
  : list LeadSchema.doc :=
  filter (fun d => holds String.eqb (Eq (Some v))
                     (LeadSchema.status (LeadSchema.data d))) docs.

(** One document more for the group of key [k]:
    [count: { $sum: 1 }]. *)
Fixpoint accumulate (k : option ObjectId) (acc : list grouped)
  : list grouped :=
  match acc with
  | [] => [Grouped k 1]
  | g :: rest =>
      if option_eqb Nat.eqb (g_id g) k
      then Grouped (g_id g) (S (g_count g)) :: rest
      else g :: accumulate k rest
  end.

(** [{ $group: { _id: "$salesAgent", count: { $sum: 1 } } }].  The
    database promises no order of the groups; here they come in the order
    in which their first document is met. *)
Definition group_by_salesAgent (docs : list LeadSchema.doc) : list grouped :=
  fold_left
    (fun acc d => accumulate (LeadSchema.salesAgent (LeadSchema.data d)) acc)
    docs [].

(** [{ $lookup: { from: "salesagents", localField: "_id",
                  foreignField: "_id", as: "salesAgent" } }] *)
Definition lookup_salesagents (agents : list SalesAgentSchema.doc)
  (gs : list grouped) : list joined :=
  map (fun g =>
         Joined (g_id g) (g_count g)
           (filter (fun a => option_eqb Nat.eqb
                               (Some (SalesAgentSchema._id a)) (g_id g))
              agents))
    gs.

(** [{ $unwind: "$salesAgent" }]: one document for each element of the
    array; a document whose array is empty disappears. *)
Definition unwind_salesAgent (js : list joined) : list unwound :=
  flat_map (fun j =>
              map (fun a => Unwound (j_id j) (j_count j) a)
                (j_salesAgent j))
    js.

(** [{ $project: { _id: 0, salesAgent: "$salesAgent.name", count: 1 } }] *)
Definition project (us : list unwound) : list projected :=
  map (fun u =>
         Projected (SalesAgentSchema.name
                      (SalesAgentSchema.data (u_salesAgent u)))
           (u_count u))
    us.
End Aggregate.

Module Lead.
Import LeadSchema.

Definition findById (i : option ObjectId) : M (option doc) :=
  gets (fun st => findById_in _id (leads st) i).

Definition find (q : LeadQuery.t) : M (list doc) :=
  gets (fun st => find_in (LeadQuery.matches q) (leads st)).

Definition countDocuments (q : LeadQuery.t) : M nat :=
  gets (fun st => countDocuments_in (LeadQuery.matches q) (leads st)).

(** [new Lead(fields)] *)
Definition new (f : fields) : M doc :=
  gets (fun st => Doc (freshId (map _id (leads st))) f).

(** [lead.save()] of a document made by [new]. *)
Definition save (d : doc) : M unit :=
  modify (with_leads (fun docs => docs ++ [d])).

(** [Lead.findByIdAndUpdate(i, fields, { new: true })]: the document after
    the update, [null] when no lead has the identifier. *)
Definition findByIdAndUpdate (i : option ObjectId) (f : fields)
  : M (option doc) :=
  found <- findById i ;;
  match found with
  | Some d =>
      modify (with_leads (update_in _id (_id d) (fun d => Doc (_id d) f))) ;;
      ret (Some (Doc (_id d) f))
  | None => ret None
  end.

(** [Lead.findByIdAndDelete(i)]: the deleted document, or [null]. *)
Definition findByIdAndDelete (i : option ObjectId) : M (option doc) :=
  found <- findById i ;;
  match found with
  | Some d =>
      modify (with_leads (delete_in _id (_id d))) ;;
      ret (Some d)
  | None => ret None
  end.

(** [.populate("salesAgent")] on one document. *)
Definition populated (agents : list SalesAgentSchema.doc) (d : doc)
  : PopulatedLead.doc :=
  PopulatedLead.Doc (_id d)
    (name (data d))
    (source (data d))
    (findById_in SalesAgentSchema._id agents (salesAgent (data d)))
    (status (data d))
    (timeToClose (data d))
    (priority (data d))
    (tags (data d)).

(** [.populate("salesAgent")] chained on a query for one document. *)
Definition populate (found : option doc) : M (option PopulatedLead.doc) :=
  gets (fun st => option_map (populated (salesagents st)) found).

(** [.populate("salesAgent")] chained on a query for many documents. *)
Definition populate_all (found : list doc) : M (list PopulatedLead.doc) :=
  gets (fun st => map (populated (salesagents st)) found).

(** The pipeline of [readClosedLeadsByAgent], stage after stage. *)
Definition aggregate_closed_by_agent : M (list Aggregate.projected) :=
  gets (fun st =>
    Aggregate.project
      (Aggregate.unwind_salesAgent
         (Aggregate.lookup_salesagents (salesagents st)
            (Aggregate.group_by_salesAgent
               (Aggregate.match_status "Closed" (leads st)))))).
End Lead.

Module Comment.
Import CommentSchema.

(** [new Comment(fields)] *)
Definition new (f : fields) : M doc :=
  gets (fun st => Doc (freshId (map _id (comments st))) f).

(** [comment.save()] of a document made by [new]. *)
Definition save (d : doc) : M unit :=
  modify (with_comments (fun docs => docs ++ [d])).
End Comment.

(** ** The operations of [index.js] *)

Definition Err (msg : string) : Error := {| message := msg |}.

(** [createLead(data)] *)
Definition createLead (data : LeadSchema.fields)
  : M (option PopulatedLead.doc) :=
  try_catch
    (let name := LeadSchema.name data in
     let source := LeadSchema.source data in
     let salesAgent := LeadSchema.salesAgent data in
     let status := LeadSchema.status data in
     let timeToClose := LeadSchema.timeToClose data in
     let priority := LeadSchema.priority data in
     let tags := LeadSchema.tags data in
     if !name || !source || !salesAgent || !status || !timeToClose
        || !priority || !tags
     then throw (Err "All fields are required")
     else
       agentExists <- SalesAgent.findById salesAgent ;;
       if !agentExists
       then throw (Err "Sales agent not found")
       else
         lead <- Lead.new (LeadSchema.Fields name source salesAgent status
                             timeToClose priority tags) ;;
         Lead.save lead ;;
         found <- Lead.findById (Some (LeadSchema._id lead)) ;;
         Lead.populate found)
    (fun error => console_log "Error creating lead:" error ;; throw error).

(** The query parameters of [GET /leads]. *)
Record LeadQueryParams := {
  qp_salesAgent : option ObjectId;
  qp_status : option string;
  qp_source : option string
}.

(** [readAllLeads(queryParams)] *)
Definition readAllLeads (queryParams : LeadQueryParams)
  : M (list PopulatedLead.doc) :=
  try_catch
    (let salesAgent := qp_salesAgent queryParams in
     let status := qp_status queryParams in
     let source := qp_source queryParams in
     let query := LeadQuery.empty in
     let query :=
       if truthy salesAgent
       then LeadQuery.set_salesAgent (Eq salesAgent) query else query in
     let query :=
       if truthy status
       then LeadQuery.set_status (Eq status) query else query in
     let query :=
       if truthy source
       then LeadQuery.set_source (Eq source) query else query in
     leads <- Lead.find query ;;
     Lead.populate_all leads)
    (fun error => console_log "Error fetching leads:" error ;; throw error).

(** [readLeadById(leadId)] *)
Definition readLeadById (leadId : ObjectId) : M (option PopulatedLead.doc) :=
  try_catch
    (found <- Lead.findById (Some leadId) ;;
     Lead.populate found)
    (fun error => console_log "Error fetching lead:" error ;; throw error).

(** [updateLeadById(leadId, data)] *)
Definition updateLeadById (leadId : ObjectId) (data : LeadSchema.fields)
  : M (option PopulatedLead.doc) :=
  try_catch
    (let name := LeadSchema.name data in
     let source := LeadSchema.source data in
     let salesAgent := LeadSchema.salesAgent data in
     let status := LeadSchema.status data in
     let timeToClose := LeadSchema.timeToClose data in
     let priority := LeadSchema.priority data in
     let tags := LeadSchema.tags data in
     if !name || !source || !salesAgent || !status || !timeToClose
        || !priority || !tags
     then throw (Err "All fields are required")
     else
       agentExists <- SalesAgent.findById salesAgent ;;
       if !agentExists
       then throw (Err "Sales agent not found")
       else
         updated <- Lead.findByIdAndUpdate (Some leadId)
                      (LeadSchema.Fields name source salesAgent status
                         timeToClose priority tags) ;;
         Lead.populate updated)
    (fun error => console_log "Error updating lead:" error ;; throw error).

(** [deleteLeadById(leadId)] *)
Definition deleteLeadById (leadId : ObjectId) : M (option LeadSchema.doc) :=
  try_catch
    (Lead.findByIdAndDelete (Some leadId))
    (fun error => console_log "Error deleting lead:" error ;; throw error).

(** [createSalesAgent(data)] *)
Definition createSalesAgent (data : SalesAgentSchema.fields)
  : M SalesAgentSchema.doc :=
  try_catch
    (let name := SalesAgentSchema.name data in
     let email := SalesAgentSchema.email data in
     if !name || !email
     then throw (Err "Name and email are required")
     else
       agentExists <- SalesAgent.findOne_email email ;;
       if truthy agentExists
       then throw (Err "Sales agent with this email already exists")
       else
         agent <- SalesAgent.new (SalesAgentSchema.Fields name email) ;;
         SalesAgent.save agent ;;
         ret agent)
    (fun error => console_log "Error creating sales agent:" error ;;
                  throw error).

(** [readAllSalesAgents()] *)
Definition readAllSalesAgents : M (list SalesAgentSchema.doc) :=
  try_catch
    SalesAgent.find
    (fun error => console_log "Error fetching sales agents:" error ;;
                  throw error).

(** The body of [POST /leads/:id/comments]. *)
Record CommentData := {
  cd_commentText : option string;
  cd_author : option ObjectId
}.

(** [createComment(leadId, data)] *)
Definition createComment (leadId : ObjectId) (data : CommentData)
  : M CommentSchema.doc :=
  try_catch
    (let commentText := cd_commentText data in
     let author := cd_author data in
     if !commentText || !author
     then throw (Err "Comment text and author are required")
     else
       leadExists <- Lead.findById (Some leadId) ;;
       if !leadExists
       then throw (Err "Lead not found")
       else
         authorExists <- SalesAgent.findById author ;;
         if !authorExists
         then throw (Err "Author not found")
         else
           comment <- Comment.new (CommentSchema.Fields (Some leadId)
                                     commentText author) ;;
           Comment.save comment ;;
           ret comment)
    (fun error => console_log "Error creating comment:" error ;; throw error).

(** The value [readPipelineReport] returns. *)
Record PipelineReport := { totalLeadsInPipeline : nat }.

(** [readPipelineReport()] *)
Definition readPipelineReport : M PipelineReport :=
  try_catch
    (totalLeads <- Lead.countDocuments
                     (LeadQuery.set_status (Ne (Some "Closed"))
                        LeadQuery.empty) ;;
     ret {| totalLeadsInPipeline := totalLeads |})
    (fun error => console_log "Error fetching pipeline report:" error ;;
                  throw error).

(** [readClosedLeadsByAgent()] *)
Definition readClosedLeadsByAgent : M (list Aggregate.projected) :=
  try_catch
    Lead.aggregate_closed_by_agent
    (fun error => console_log "Error fetching closed-by-agent report:" error ;;
                  throw error).

(** ** What [POST /leads/:id] answers with *)

Inductive Json : Type :=
| JLead (d : PopulatedLead.doc)
| JError (error : string).

Record Response := {
  res_status : nat;
  res_json : Json
}.

(** ** Comments of a lead *)

(** A comment after [.populate("author")]. *)
Module PopulatedComment.
Record doc := Doc {
  _id : ObjectId;
  lead : option ObjectId;
  commentText : option string;
  author : option SalesAgentSchema.doc
}.
End PopulatedComment.

Module CommentQuery.
Import CommentSchema.

(** [Comment.find({ lead: leadId })] *)
Definition find_lead (leadId : ObjectId) : M (list doc) :=
  gets (fun st =>
    find_in (fun c => holds Nat.eqb (Eq (Some leadId)) (lead (data c)))
      (comments st)).

(** [.populate("author")] on one document. *)
Definition populated (agents : list SalesAgentSchema.doc) (c : doc)
  : PopulatedComment.doc :=
  PopulatedComment.Doc (_id c)
    (lead (data c))
    (commentText (data c))
    (findById_in SalesAgentSchema._id agents (author (data c))).

(** [.populate("author")] chained on a query for many documents. *)
Definition populate_all (found : list doc) : M (list PopulatedComment.doc) :=
  gets (fun st => map (populated (salesagents st)) found).
End CommentQuery.

(** [readCommentsByLeadId(leadId)] *)
Definition readCommentsByLeadId (leadId : ObjectId)
  : M (list PopulatedComment.doc) :=
  try_catch
    (comments <- CommentQuery.find_lead leadId ;;
     CommentQuery.populate_all comments)
    (fun error => console_log "Error fetching comments:" error ;; throw error).

(** ** The routes that read no identifier from the request *)

(** What a route hands to [res.json]. *)
Inductive Payload : Type :=
| PNull
| PLead (d : PopulatedLead.doc)
| PLeads (ds : list PopulatedLead.doc)
| PAgent (a : SalesAgentSchema.doc)
| PAgents (l : list SalesAgentSchema.doc)
| PComment (c : CommentSchema.doc)
| PComments (cs : list PopulatedComment.doc)
| PPipeline (r : PipelineReport)
| PClosedByAgent (es : list Aggregate.projected)
| PMessage (message : string)
| PError (error : string).

Record Reply := {
  status_code : nat;
  json : Payload
}.

Definition reply (code : nat) (p : Payload) : Reply :=
  {| status_code := code; json := p |}.

(** [app.post("/agents", ...)] *)
Definition post_agents (body : SalesAgentSchema.fields) (st : Store)
  : Reply * Store :=
  match createSalesAgent body st with
  | (Ok agent, st') => (reply 201 (PAgent agent), st')
  | (Throw error, st') => (reply 400 (PError (message error)), st')
  end.

(** [app.get("/agents", ...)] *)
Definition get_agents (st : Store) : Reply * Store :=
  match readAllSalesAgents st with
  | (Ok agents, st') =>
      if (0 <? length agents)%nat
      then (reply 200 (PAgents agents), st')
      else (reply 404 (PError "No sales agents found"), st')
  | (Throw error, st') => (reply 500 (PError "Failed to fetch agents"), st')
  end.

(** [app.get("/report/pipeline", ...)] *)
Definition get_report_pipeline (st : Store) : Reply * Store :=
  match readPipelineReport st with
  | (Ok report, st') => (reply 200 (PPipeline report), st')
  | (Throw error, st') =>
      (reply 500 (PError "Failed to fetch pipeline report"), st')
  end.

(** [app.get("/report/closed-by-agent", ...)] *)
Definition get_report_closed_by_agent (st : Store) : Reply * Store :=
  match readClosedLeadsByAgent st with
  | (Ok leads, st') =>
      if (0 <? length leads)%nat
      then (reply 200 (PClosedByAgent leads), st')
      else (reply 404 (PError "No closed leads found"), st')
  | (Throw error, st') =>
      (reply 500 (PError "Failed to fetch closed-by-agent report"), st')
  end.

(** * Requests as they arrive *)

(** In a request an identifier is a text: in the body ([salesAgent],
    [author]), in the path ([:id]) or in the query string ([salesAgent]).
    The text is either the text of an ObjectId or some other text, which the
    driver refuses when it is used where an identifier is expected. *)
Inductive IdText : Type :=
| IdOf (i : ObjectId)
| NotAnId (text : string).

(** A text is falsy exactly when it is empty; the text of an ObjectId never
    is. *)
#[global] Instance Truthy_IdText : Truthy IdText :=
  fun t => match t with
           | IdOf _ => true
           | NotAnId text => truthy text
           end.

(** The driver's reading of a text as an identifier. *)
Definition castObjectId (t : IdText) : option ObjectId :=
  match t with
  | IdOf i => Some i
  | NotAnId _ => None
  end.

(** A reference as the schema stores it. *)
Definition cast_reference (t : option IdText) : option ObjectId :=
  match t with
  | Some t => castObjectId t
  | None => None
  end.

(** The body of [POST /leads] and of [POST /leads/:id]. *)
Module LeadBody.
Record t := Body {
  name : option string;
  source : option string;
  salesAgent : option IdText;
  status : option string;
  timeToClose : option Z;
  priority : option string;
  tags : option (list string)
}.
End LeadBody.

(** The body of [POST /leads/:id/comments]. *)
Module CommentBody.
Record t := Body {
  commentText : option string;
  author : option IdText
}.
End CommentBody.

(** The query string of [GET /leads]. *)
Module LeadParams.
Record t := Params {
  salesAgent : option IdText;
  status : option string;
  source : option string
}.
End LeadParams.

(** The query object [readAllLeads] builds, before the driver casts it. *)
Module LeadQueryText.
Record t := Query {
  salesAgent : option IdText;
  status : option (Cond string);
  source : option (Cond string)
}.

Definition empty : t := Query None None None.

Definition set_salesAgent (v : option IdText) (q : t) : t :=
  Query v (status q) (source q).
Definition set_status (c : Cond string) (q : t) : t :=
  Query (salesAgent q) (Some c) (source q).
Definition set_source (c : Cond string) (q : t) : t :=
  Query (salesAgent q) (status q) (Some c).
End LeadQueryText.

Section Requests.

(** The error the driver throws when a text that is not an identifier is
    used as one, given the model, the path and the text.  The driver is not
    among the sources: its error is a parameter, and nothing below depends
    on what its message says. *)
Variable castError : string -> string -> string -> Error.

(** Casting the text [t] for the path [path] of the model [model]. *)
Definition cast (model path : string) (t : IdText) : M ObjectId :=
  match t with
  | IdOf i => ret i
  | NotAnId text => throw (castError model path text)
  end.

(** [SalesAgent.findById(t)] *)
Definition SalesAgent_findById (t : option IdText)
  : M (option SalesAgentSchema.doc) :=
  match t with
  | Some t => i <- cast "SalesAgent" "_id" t ;; SalesAgent.findById (Some i)
  | None => SalesAgent.findById None
  end.

(** [Lead.findById(t)] *)
Definition Lead_findById (t : IdText) : M (option LeadSchema.doc) :=
  i <- cast "Lead" "_id" t ;; Lead.findById (Some i).

(** [Lead.findByIdAndUpdate(t, fields, { new: true })] *)
Definition Lead_findByIdAndUpdate (t : IdText) (f : LeadSchema.fields)
  : M (option LeadSchema.doc) :=
  i <- cast "Lead" "_id" t ;; Lead.findByIdAndUpdate (Some i) f.

(** [Lead.findByIdAndDelete(t)] *)
Definition Lead_findByIdAndDelete (t : IdText) : M (option LeadSchema.doc) :=
  i <- cast "Lead" "_id" t ;; Lead.findByIdAndDelete (Some i).

(** [Lead.find(query)] *)
Definition Lead_find (q : LeadQueryText.t) : M (list LeadSchema.doc) :=
  match LeadQueryText.salesAgent q with
  | Some t =>
      i <- cast "Lead" "salesAgent" t ;;
      Lead.find (LeadQuery.Query (Some (Eq (Some i)))
                   (LeadQueryText.status q) (LeadQueryText.source q))
  | None =>
      Lead.find (LeadQuery.Query None
                   (LeadQueryText.status q) (LeadQueryText.source q))
  end.

(** [Comment.find({ lead: t })] *)
Definition Comment_find_lead (t : IdText) : M (list CommentSchema.doc) :=
  i <- cast "Comment" "lead" t ;; CommentQuery.find_lead i.

(** [createLead(data)] *)
Definition createLead_req (data : LeadBody.t)
  : M (option PopulatedLead.doc) :=
  try_catch
    (let name := LeadBody.name data in
     let source := LeadBody.source data in
     let salesAgent := LeadBody.salesAgent data in
     let status := LeadBody.status data in
     let timeToClose := LeadBody.timeToClose data in
     let priority := LeadBody.priority data in
     let tags := LeadBody.tags data in
     if !name || !source || !salesAgent || !status || !timeToClose
        || !priority || !tags
     then throw (Err "All fields are required")
     else
       agentExists <- SalesAgent_findById salesAgent ;;
       if !agentExists
       then throw (Err "Sales agent not found")
       else
         lead <- Lead.new (LeadSchema.Fields name source
                             (cast_reference salesAgent) status
                             timeToClose priority tags) ;;
         Lead.save lead ;;
         found <- Lead.findById (Some (LeadSchema._id lead)) ;;
         Lead.populate found)
    (fun error => console_log "Error creating lead:" error ;; throw error).

(** [readAllLeads(queryParams)] *)
Definition readAllLeads_req (queryParams : LeadParams.t)
  : M (list PopulatedLead.doc) :=
  try_catch
    (let salesAgent := LeadParams.salesAgent queryParams in
     let status := LeadParams.status queryParams in
     let source := LeadParams.source queryParams in
     let query := LeadQueryText.empty in
     let query :=
       if truthy salesAgent
       then LeadQueryText.set_salesAgent salesAgent query else query in
     let query :=
       if truthy status
       then LeadQueryText.set_status (Eq status) query else query in
     let query :=
       if truthy source
       then LeadQueryText.set_source (Eq source) query else query in
     leads <- Lead_find query ;;
     Lead.populate_all leads)
    (fun error => console_log "Error fetching leads:" error ;; throw error).

(** [readLeadById(leadId)] *)
Definition readLeadById_req (leadId : IdText)
  : M (option PopulatedLead.doc) :=
  try_catch
    (found <- Lead_findById leadId ;;
     Lead.populate found)
    (fun error => console_log "Error fetching lead:" error ;; throw error).

(** [updateLeadById(leadId, data)] *)
Definition updateLeadById_req (leadId : IdText) (data : LeadBody.t)
  : M (option PopulatedLead.doc) :=
  try_catch
    (let name := LeadBody.name data in
     let source := LeadBody.source data in
     let salesAgent := LeadBody.salesAgent data in
     let status := LeadBody.status data in
     let timeToClose := LeadBody.timeToClose data in
     let priority := LeadBody.priority data in
     let tags := LeadBody.tags data in
     if !name || !source || !salesAgent || !status || !timeToClose
        || !priority || !tags
     then throw (Err "All fields are required")
     else
       agentExists <- SalesAgent_findById salesAgent ;;
       if !agentExists
       then throw (Err "Sales agent not found")
       else
         updated <- Lead_findByIdAndUpdate leadId
                      (LeadSchema.Fields name source
                         (cast_reference salesAgent) status
                         timeToClose priority tags) ;;
         Lead.populate updated)
    (fun error => console_log "Error updating lead:" error ;; throw error).

(** [deleteLeadById(leadId)] *)
Definition deleteLeadById_req (leadId : IdText)
  : M (option LeadSchema.doc) :=
  try_catch
    (Lead_findByIdAndDelete leadId)
    (fun error => console_log "Error deleting lead:" error ;; throw error).

(** [createComment(leadId, data)] *)
Definition createComment_req (leadId : IdText) (data : CommentBody.t)
  : M CommentSchema.doc :=
  try_catch
    (let commentText := CommentBody.commentText data in
     let author := CommentBody.author data in
     if !commentText || !author
     then throw (Err "Comment text and author are required")
     else
       leadExists <- Lead_findById leadId ;;
       if !leadExists
       then throw (Err "Lead not found")
       else
         authorExists <- SalesAgent_findById author ;;
         if !authorExists
         then throw (Err "Author not found")
         else
           comment <- Comment.new (CommentSchema.Fields
                                     (castObjectId leadId) commentText
                                     (cast_reference author)) ;;
           Comment.save comment ;;
           ret comment)
    (fun error => console_log "Error creating comment:" error ;; throw error).

(** [readCommentsByLeadId(leadId)] *)
Definition readCommentsByLeadId_req (leadId : IdText)
  : M (list PopulatedComment.doc) :=
  try_catch
    (comments <- Comment_find_lead leadId ;;
     CommentQuery.populate_all comments)
    (fun error => console_log "Error fetching comments:" error ;; throw error).

(** ** The routes that read an identifier from the request *)

(** [app.post("/leads", ...)] *)
Definition post_leads (body : LeadBody.t) (st : Store) : Reply * Store :=
  match createLead_req body st with
  | (Ok lead, st') =>
      (reply 201 match lead with Some d => PLead d | None => PNull end, st')
  | (Throw error, st') => (reply 400 (PError (message error)), st')
  end.

(** [app.get("/leads", ...)] *)
Definition get_leads (query : LeadParams.t) (st : Store) : Reply * Store :=
  match readAllLeads_req query st with
  | (Ok leads, st') =>
      if (0 <? length leads)%nat
      then (reply 200 (PLeads leads), st')
      else (reply 404 (PError "No leads found"), st')
  | (Throw error, st') => (reply 500 (PError "Failed to fetch leads"), st')
  end.

(** [app.get("/leads/:id", ...)] *)
Definition get_leads_id (id : IdText) (st : Store) : Reply * Store :=
  match readLeadById_req id st with
  | (Ok lead, st') =>
      match lead with
      | Some d => (reply 200 (PLead d), st')
      | None => (reply 404 (PError "Lead not found"), st')
      end
  | (Throw error, st') => (reply 500 (PError "Failed to fetch lead"), st')
  end.

(** [app.post("/leads/:id", ...)]: the response and the store it leaves. *)
Definition post_leads_id (id : IdText) (body : LeadBody.t) (st : Store)
  : Response * Store :=
  match updateLeadById_req id body st with
  | (Ok lead, st') =>
      match lead with
      | Some d => ({| res_status := 200; res_json := JLead d |}, st')
      | None =>
          ({| res_status := 404; res_json := JError "Lead not found" |}, st')
      end
  | (Throw error, st') =>
      ({| res_status := 400; res_json := JError (message error) |}, st')
  end.

(** [app.delete("/leads/:id", ...)] *)
Definition delete_leads_id (id : IdText) (st : Store) : Reply * Store :=
  match deleteLeadById_req id st with
  | (Ok lead, st') =>
      match lead with
      | Some _ => (reply 200 (PMessage "Lead deleted successfully"), st')
      | None => (reply 404 (PError "Lead not found"), st')
      end
  | (Throw error, st') => (reply 500 (PError "Failed to delete lead"), st')
  end.

(** [app.post("/leads/:id/comments", ...)] *)
Definition post_leads_id_comments (id : IdText) (body : CommentBody.t)
  (st : Store) : Reply * Store :=
  match createComment_req id body st with
  | (Ok comment, st') => (reply 201 (PComment comment), st')
  | (Throw error, st') => (reply 400 (PError (message error)), st')
  end.

(** [app.get("/leads/:id/comments", ...)] *)
Definition get_leads_id_comments (id : IdText) (st : Store)
  : Reply * Store :=
  match readCommentsByLeadId_req id st with
  | (Ok comments, st') =>
      if (0 <? length comments)%nat
      then (reply 200 (PComments comments), st')
      else (reply 404 (PError "No comments found"), st')
  | (Throw error, st') => (reply 500 (PError "Failed to fetch comments"), st')
  end.

End Requests.

(** A request with well-formed identifiers, as text. *)
Definition lead_body (data : LeadSchema.fields) : LeadBody.t :=
  LeadBody.Body (LeadSchema.name data) (LeadSchema.source data)
    (option_map IdOf (LeadSchema.salesAgent data)) (LeadSchema.status data)
    (LeadSchema.timeToClose data) (LeadSchema.priority data)
    (LeadSchema.tags data).

Definition comment_body (data : CommentData) : CommentBody.t :=
  CommentBody.Body (cd_commentText data) (option_map IdOf (cd_author data)).

Definition lead_params (q : LeadQueryParams) : LeadParams.t :=
  LeadParams.Params (option_map IdOf (qp_salesAgent q)) (qp_status q)
    (qp_source q).

(** The fields of a body as the schema of [Lead] casts them. *)
Definition lead_fields_of (body : LeadBody.t) : LeadSchema.fields :=
  LeadSchema.Fields (LeadBody.name body) (LeadBody.source body)
    (cast_reference (LeadBody.salesAgent body)) (LeadBody.status body)
    (LeadBody.timeToClose body) (LeadBody.priority body)
    (LeadBody.tags body).

Definition comment_data_of (body : CommentBody.t) : CommentData :=
  {| cd_commentText := CommentBody.commentText body;
     cd_author := cast_reference (CommentBody.author body) |}.

(** For the examples: a cast error with a text in the manner of the
    driver's.  The properties are proved for every [castError]. *)
Definition quoted (text : string) : string :=
  String (Ascii.ascii_of_nat 34) text
  ++ String (Ascii.ascii_of_nat 34) EmptyString.

Definition sampleCastError (model path text : string) : Error :=
  Err ("Cast to ObjectId failed for value " ++ quoted text
       ++ " (type string) at path " ++ quoted path
       ++ " for model " ++ quoted model).

Definition lead_params_of (q : LeadParams.t) : LeadQueryParams :=
  {| qp_salesAgent := cast_reference (LeadParams.salesAgent q);
     qp_status := LeadParams.status q;
     qp_source := LeadParams.source q |}.

(** * Vocabulary of the properties *)

(** All seven fields of a lead pass the presence check. *)
Definition lead_fields_truthy (data : LeadSchema.fields) : bool :=
  truthy (LeadSchema.name data) && truthy (LeadSchema.source data)
  && truthy (LeadSchema.salesAgent data) && truthy (LeadSchema.status data)
  && truthy (LeadSchema.timeToClose data) && truthy (LeadSchema.priority data)
  && truthy (LeadSchema.tags data).

(** A text field that is missing, [null] or the empty text. *)
Definition blank_text (o : option string) : Prop := o = None \/ o = Some "".

(** Some field of a lead is missing, [null], the empty text or the number
    zero. *)
Definition lead_field_blank (data : LeadSchema.fields) : Prop :=
  blank_text (LeadSchema.name data)
  \/ blank_text (LeadSchema.source data)
  \/ LeadSchema.salesAgent data = None
  \/ blank_text (LeadSchema.status data)
  \/ (LeadSchema.timeToClose data = None
      \/ LeadSchema.timeToClose data = Some 0%Z)
  \/ blank_text (LeadSchema.priority data)
  \/ LeadSchema.tags data = None.

(** Every field of a lead is there and none is empty, number zero not being
    counted as empty: the plain reading of "present and non-empty". *)
Definition lead_fields_present_nonempty (data : LeadSchema.fields) : Prop :=
  (exists s, LeadSchema.name data = Some s /\ s <> "")
  /\ (exists s, LeadSchema.source data = Some s /\ s <> "")
  /\ (exists i, LeadSchema.salesAgent data = Some i)
  /\ (exists s, LeadSchema.status data = Some s /\ s <> "")
  /\ (exists z, LeadSchema.timeToClose data = Some z)
  /\ (exists s, LeadSchema.priority data = Some s /\ s <> "")
  /\ (exists l, LeadSchema.tags data = Some l /\ l <> []).

(** Some core field of a lead is missing, empty or [null], an array without
    elements being counted as empty. *)
Definition lead_field_missing_empty_or_null (data : LeadSchema.fields)
  : Prop :=
  blank_text (LeadSchema.name data)
  \/ blank_text (LeadSchema.source data)
  \/ LeadSchema.salesAgent data = None
  \/ blank_text (LeadSchema.status data)
  \/ LeadSchema.timeToClose data = None
  \/ blank_text (LeadSchema.priority data)
  \/ (LeadSchema.tags data = None \/ LeadSchema.tags data = Some []).

Definition agent_field_blank (data : SalesAgentSchema.fields) : Prop :=
  blank_text (SalesAgentSchema.name data)
  \/ blank_text (SalesAgentSchema.email data).

Definition comment_field_blank (data : CommentData) : Prop :=
  blank_text (cd_commentText data) \/ cd_author data = None.

(** Some document of the collection has the identifier. *)
Definition identifies {D : Type} (id_of : D -> ObjectId) (docs : list D)
  (i : ObjectId) : Prop :=
  exists d, In d docs /\ id_of d = i.

Definition agent_exists (st : Store) (i : ObjectId) : Prop :=
  identifies SalesAgentSchema._id (salesagents st) i.

Definition lead_exists (st : Store) (i : ObjectId) : Prop :=
  identifies LeadSchema._id (leads st) i.

(** The condition of the query [{ email }]. *)
Definition email_is (email_ : option string) (a : SalesAgentSchema.doc)
  : bool :=
  option_eqb String.eqb (SalesAgentSchema.email (SalesAgentSchema.data a))
    email_.

(** No two agents of the store have the same email. *)
Definition unique_emails (st : Store) : Prop :=
  NoDup (map (fun a => SalesAgentSchema.email (SalesAgentSchema.data a))
           (salesagents st)).

(** No two agents of the store have the same identifier: what the database
    keeps true of [_id]. *)
Definition unique_agent_ids (st : Store) : Prop :=
  NoDup (map SalesAgentSchema._id (salesagents st)).

(** The lead meets every equality asked by a parameter that has a value
    other than the empty text. *)
Definition meets (q : LeadQueryParams) (d : LeadSchema.doc) : Prop :=
  (forall i, qp_salesAgent q = Some i ->
     LeadSchema.salesAgent (LeadSchema.data d) = Some i)
  /\ (forall s, qp_status q = Some s -> s <> "" ->
        LeadSchema.status (LeadSchema.data d) = Some s)
  /\ (forall s, qp_source q = Some s -> s <> "" ->
        LeadSchema.source (LeadSchema.data d) = Some s).

Definition is_closed (d : LeadSchema.doc) : bool :=
  match LeadSchema.status (LeadSchema.data d) with
  | Some s => (s =? "Closed")%string
  | None => false
  end.

(** The number of Closed leads whose [salesAgent] is [i]. *)
Definition closed_count (st : Store) (i : ObjectId) : nat :=
  length (filter (fun d =>
                    is_closed d
                    && match LeadSchema.salesAgent (LeadSchema.data d) with
                       | Some j => (j =? i)%nat
                       | None => false
                       end)
            (leads st)).

(** The query object [readAllLeads] hands to [Lead.find]. *)
Definition query_of (queryParams : LeadQueryParams) : LeadQuery.t :=
  let query := LeadQuery.empty in
  let query :=
    if truthy (qp_salesAgent queryParams)
    then LeadQuery.set_salesAgent (Eq (qp_salesAgent queryParams)) query
    else query in
  let query :=
    if truthy (qp_status queryParams)
    then LeadQuery.set_status (Eq (qp_status queryParams)) query
    else query in
  if truthy (qp_source queryParams)
  then LeadQuery.set_source (Eq (qp_source queryParams)) query
  else query.

(** ** Vocabulary of the grouping *)

(** The group of a key in an accumulator. *)
Definition has_key (k : option ObjectId) (g : Aggregate.grouped) : bool :=
  option_eqb Nat.eqb (Aggregate.g_id g) k.

(** The count an accumulator holds for a key: 0 when it has no group. *)
Definition count_of (acc : list Aggregate.grouped) (k : option ObjectId)
  : nat :=
  match find (has_key k) acc with
  | Some g => Aggregate.g_count g
  | None => 0
  end.

Definition key_of (d : LeadSchema.doc) : option ObjectId :=
  LeadSchema.salesAgent (LeadSchema.data d).

Definition step (acc : list Aggregate.grouped) (d : LeadSchema.doc)
  : list Aggregate.grouped :=
  Aggregate.accumulate (key_of d) acc.

(** The pipeline after [$group]. *)
Definition entries (agents : list SalesAgentSchema.doc)
  (gs : list Aggregate.grouped) : list Aggregate.projected :=
  Aggregate.project
    (Aggregate.unwind_salesAgent (Aggregate.lookup_salesagents agents gs)).

(** The entry of the report for the agent with identifier [i], given the
    count of each agent. *)
Definition entry_for (agents : list SalesAgentSchema.doc)
  (cnt : ObjectId -> nat) (i : ObjectId) (e : Aggregate.projected) : Prop :=
  exists a,
    In a agents /\ SalesAgentSchema._id a = i
    /\ e = Aggregate.Projected
             (SalesAgentSchema.name (SalesAgentSchema.data a)) (cnt i).

(** ** A small store for the examples *)

Definition asha : SalesAgentSchema.doc :=
  SalesAgentSchema.Doc 1
    (SalesAgentSchema.Fields (Some "Asha") (Some "asha@example.com")).

Definition bram : SalesAgentSchema.doc :=
  SalesAgentSchema.Doc 2
    (SalesAgentSchema.Fields (Some "Bram") (Some "bram@example.com")).

Definition lead_fields (name source : string) (agent : ObjectId)
  (status : string) (days : Z) (priority : string) (tags : list string)
  : LeadSchema.fields :=
  LeadSchema.Fields (Some name) (Some source) (Some agent) (Some status)
    (Some days) (Some priority) (Some tags).

Definition acme : LeadSchema.doc :=
  LeadSchema.Doc 1
    (lead_fields "Acme" "Website" 1 "Closed" 5 "High" ["retail"]).

Definition birch : LeadSchema.doc :=
  LeadSchema.Doc 2
    (lead_fields "Birch" "Referral" 1 "New" 9 "Low" ["b2b"]).

Definition cedar : LeadSchema.doc :=
  LeadSchema.Doc 3
    (lead_fields "Cedar" "Referral" 1 "Closed" 3 "Medium" []).

Definition crm : Store :=
  {| leads := [acme; birch; cedar];
     salesagents := [asha; bram];
     comments := [] |}.

Definition no_agents : Store :=
  {| leads := []; salesagents := []; comments := [] |}.

(** ** Vocabulary of the further properties *)

Definition unique_lead_ids (st : Store) : Prop :=
  NoDup (map LeadSchema._id (leads st)).

Definition unique_comment_ids (st : Store) : Prop :=
  NoDup (map CommentSchema._id (comments st)).

(** In each collection no two documents have the same identifier. *)
Definition unique_ids (st : Store) : Prop :=
  unique_lead_ids st /\ unique_agent_ids st /\ unique_comment_ids st.

(** Every lead names an existing agent, and so does every comment as its
    author. *)
Definition references_resolve (st : Store) : Prop :=
  (forall d, In d (leads st) ->
     exists i, LeadSchema.salesAgent (LeadSchema.data d) = Some i
               /\ agent_exists st i)
  /\ (forall c, In c (comments st) ->
        exists i, CommentSchema.author (CommentSchema.data c) = Some i
                  /\ agent_exists st i).

(** The comment is attached to the lead. *)
Definition comment_of (leadId : ObjectId) (c : CommentSchema.doc) : bool :=
  option_eqb Nat.eqb (CommentSchema.lead (CommentSchema.data c))
    (Some leadId).

(** The counts of a report, added up. *)
Definition total_count (es : list Aggregate.projected) : nat :=
  list_sum (map Aggregate.count es).

(** The counts of the groups, added up. *)
Definition group_total (gs : list Aggregate.grouped) : nat :=
  list_sum (map Aggregate.g_count gs).

(** The number of leads the pipeline report counts. *)
Definition in_pipeline (st : Store) : nat :=
  length (filter (fun d => negb (is_closed d)) (leads st)).

(** A store with a comment on a lead. *)
Definition note : CommentSchema.doc :=
  CommentSchema.Doc 1
    (CommentSchema.Fields (Some 2) (Some "Called back") (Some 1)).

Definition crm_with_note : Store :=
  {| leads := [acme; birch; cedar];
     salesagents := [asha; bram];
     comments := [note] |}.

(** ** Vocabulary of the requests *)

(** A reference that is missing, [null] or the empty text. *)
Definition blank_reference (o : option IdText) : Prop :=
  o = None \/ o = Some (NotAnId "").


(** All seven fields of the body pass the presence check. *)
Definition lead_body_truthy (body : LeadBody.t) : bool :=
  truthy (LeadBody.name body) && truthy (LeadBody.source body)
  && truthy (LeadBody.salesAgent body) && truthy (LeadBody.status body)
  && truthy (LeadBody.timeToClose body) && truthy (LeadBody.priority body)
  && truthy (LeadBody.tags body).

Definition comment_body_blank (body : CommentBody.t) : Prop :=
  blank_text (CommentBody.commentText body)
  \/ blank_reference (CommentBody.author body).

(** What [populate] puts in the place of a reference: an agent of the store
    with that identifier, or [null] when the reference is missing or names
    no agent. *)
Definition resolved (st : Store) (ref : option ObjectId)
  (shown : option SalesAgentSchema.doc) : Prop :=
  match shown with
  | Some a => In a (salesagents st) /\ ref = Some (SalesAgentSchema._id a)
  | None => forall i, ref = Some i -> ~ agent_exists st i
  end.

(** The record [r] is the lead [d] as a listing shows it: same identifier,
    same six plain fields, and [salesAgent] resolved. *)
Definition lead_shown (st : Store) (d : LeadSchema.doc)
  (r : PopulatedLead.doc) : Prop :=
  PopulatedLead._id r = LeadSchema._id d
  /\ PopulatedLead.name r = LeadSchema.name (LeadSchema.data d)
  /\ PopulatedLead.source r = LeadSchema.source (LeadSchema.data d)
  /\ PopulatedLead.status r = LeadSchema.status (LeadSchema.data d)
  /\ PopulatedLead.timeToClose r
     = LeadSchema.timeToClose (LeadSchema.data d)
  /\ PopulatedLead.priority r = LeadSchema.priority (LeadSchema.data d)
  /\ PopulatedLead.tags r = LeadSchema.tags (LeadSchema.data d)
  /\ resolved st (LeadSchema.salesAgent (LeadSchema.data d))
       (PopulatedLead.salesAgent r).

(** The record [r] is the comment [c] as a listing shows it. *)
Definition comment_shown (st : Store) (c : CommentSchema.doc)
  (r : PopulatedComment.doc) : Prop :=
  PopulatedComment._id r = CommentSchema._id c
  /\ PopulatedComment.lead r = CommentSchema.lead (CommentSchema.data c)
  /\ PopulatedComment.commentText r
     = CommentSchema.commentText (CommentSchema.data c)
  /\ resolved st (CommentSchema.author (CommentSchema.data c))
       (PopulatedComment.author r).

(** The lead meets every equality asked by a parameter of the query string
    that has a value other than the empty text. *)
Definition filters_met (q : LeadParams.t) (d : LeadSchema.doc) : Prop :=
  (forall i, LeadParams.salesAgent q = Some (IdOf i) ->
     LeadSchema.salesAgent (LeadSchema.data d) = Some i)
  /\ (forall s, LeadParams.status q = Some s -> s <> "" ->
        LeadSchema.status (LeadSchema.data d) = Some s)
  /\ (forall s, LeadParams.source q = Some s -> s <> "" ->
        LeadSchema.source (LeadSchema.data d) = Some s).

(** The lead meets the equality of every key the query string has, the
    empty text being a value like another. *)
Definition filters_of_every_key_met (q : LeadParams.t) (d : LeadSchema.doc)
  : Prop :=
  (forall t, LeadParams.salesAgent q = Some t ->
     exists i, t = IdOf i
               /\ LeadSchema.salesAgent (LeadSchema.data d) = Some i)
  /\ (forall s, LeadParams.status q = Some s ->
        LeadSchema.status (LeadSchema.data d) = Some s)
  /\ (forall s, LeadParams.source q = Some s ->
        LeadSchema.source (LeadSchema.data d) = Some s).

(** The [salesAgent] of the query string, when it has a value other than
    the empty text, is the text of an identifier. *)
Definition params_well_formed (q : LeadParams.t) : Prop :=
  forall text, LeadParams.salesAgent q = Some (NotAnId text) -> text = "".

(** * Properties *)

Unset Implicit Arguments.

(** ** What the presence checks accept *)

Lemma truthy_text (o : option string) :
  truthy o = true <-> exists s, o = Some s /\ s <> "".
Proof.
  destruct o as [s|]; cbn.
  - unfold truthy, Truthy_string. destruct (String.eqb_spec s ""); cbn; split.
    + discriminate.
    + intros (s' & E & N). inversion E. congruence.
    + intros _. now exists s.
    + reflexivity.
  - split; [discriminate | intros (s & E & _); discriminate].
Qed.

Lemma falsy_text (o : option string) :
  truthy o = false <-> o = None \/ o = Some "".
Proof.
  destruct o as [s|]; cbn.
  - unfold truthy, Truthy_string. destruct (String.eqb_spec s ""); cbn; split;
      try discriminate; try (subst; now right).
    + reflexivity.
    + intros [E|E]; [discriminate | inversion E; congruence].
  - split; [now left | reflexivity].
Qed.

Lemma truthy_number (o : option Z) :
  truthy o = true <-> exists z, o = Some z /\ z <> 0%Z.
Proof.
  destruct o as [z|]; cbn.
  - unfold truthy, Truthy_Z. destruct (Z.eqb_spec z 0); cbn; split.
    + discriminate.
    + intros (z' & E & N). inversion E. congruence.
    + intros _. now exists z.
    + reflexivity.
  - split; [discriminate | intros (z & E & _); discriminate].
Qed.

Lemma falsy_number (o : option Z) :
  truthy o = false <-> o = None \/ o = Some 0%Z.
Proof.
  destruct o as [z|]; cbn.
  - unfold truthy, Truthy_Z. destruct (Z.eqb_spec z 0); cbn; split;
      try discriminate; try (subst; now right).
    + reflexivity.
    + intros [E|E]; [discriminate | inversion E; congruence].
  - split; [now left | reflexivity].
Qed.

Lemma truthy_reference (o : option ObjectId) :
  truthy o = true <-> exists i, o = Some i.
Proof.
  destruct o as [i|]; cbn; split; try discriminate; eauto.
  intros (i & E); discriminate.
Qed.

Lemma truthy_array (A : Type) (o : option (list A)) :
  truthy o = true <-> exists l, o = Some l.
Proof.
  destruct o as [l|]; cbn; split; try discriminate; eauto.
  intros (l & E); discriminate.
Qed.

Lemma lead_field_blank_iff (data : LeadSchema.fields) :
  lead_field_blank data <-> lead_fields_truthy data = false.
Proof.
  unfold lead_field_blank, blank_text, lead_fields_truthy.
  rewrite <- !falsy_text, <- falsy_number.
  destruct data as [n s a t c p g]; cbn [LeadSchema.name LeadSchema.source
    LeadSchema.salesAgent LeadSchema.status LeadSchema.timeToClose
    LeadSchema.priority LeadSchema.tags].
  destruct (truthy n), (truthy s), a, (truthy t), (truthy c), (truthy p), g;
    cbn; intuition congruence.
Qed.

Lemma lead_guard (data : LeadSchema.fields) :
  (!LeadSchema.name data || !LeadSchema.source data
   || !LeadSchema.salesAgent data || !LeadSchema.status data
   || !LeadSchema.timeToClose data || !LeadSchema.priority data
   || !LeadSchema.tags data) = negb (lead_fields_truthy data).
Proof.
  unfold lead_fields_truthy.
  destruct (truthy (LeadSchema.name data)),
    (truthy (LeadSchema.source data)),
    (truthy (LeadSchema.salesAgent data)),
    (truthy (LeadSchema.status data)),
    (truthy (LeadSchema.timeToClose data)),
    (truthy (LeadSchema.priority data)),
    (truthy (LeadSchema.tags data)); reflexivity.
Qed.

Lemma fields_eta (data : LeadSchema.fields) :
  LeadSchema.Fields (LeadSchema.name data) (LeadSchema.source data)
    (LeadSchema.salesAgent data) (LeadSchema.status data)
    (LeadSchema.timeToClose data) (LeadSchema.priority data)
    (LeadSchema.tags data) = data.
Proof. now destruct data. Qed.

(** The presence check of a lead, field by field. *)
Lemma lead_fields_truthy_iff (data : LeadSchema.fields) :
  lead_fields_truthy data = true <->
  (exists s, LeadSchema.name data = Some s /\ s <> "")
  /\ (exists s, LeadSchema.source data = Some s /\ s <> "")
  /\ (exists i, LeadSchema.salesAgent data = Some i)
  /\ (exists s, LeadSchema.status data = Some s /\ s <> "")
  /\ (exists z, LeadSchema.timeToClose data = Some z /\ z <> 0%Z)
  /\ (exists s, LeadSchema.priority data = Some s /\ s <> "")
  /\ (exists l, LeadSchema.tags data = Some l).
Proof.
  unfold lead_fields_truthy.
  rewrite !andb_true_iff, !truthy_text, truthy_number, truthy_reference,
    truthy_array.
  tauto.
Qed.

(** Present and not empty is enough for the check, [timeToClose] apart. *)
Lemma present_nonempty_truthy (data : LeadSchema.fields) :
  lead_fields_present_nonempty data ->
  LeadSchema.timeToClose data <> Some 0%Z ->
  lead_fields_truthy data = true.
Proof.
  intros (N & S & A & T & (z & C) & P & (l & G & _)) NZ.
  apply lead_fields_truthy_iff. repeat split; try assumption.
  - exists z. split; [assumption | congruence].
  - now exists l.
Qed.

(** ** Looking a document up *)

Section Lookup.
Variable D : Type.
Variable id_of : D -> ObjectId.

Lemma findById_in_Some docs i d :
  findById_in id_of docs (Some i) = Some d -> In d docs /\ id_of d = i.
Proof.
  cbn. intros H. apply find_some in H as [H1 H2].
  split; [assumption | now apply Nat.eqb_eq].
Qed.

Lemma findById_in_None docs i :
  findById_in id_of docs (Some i) = None <-> ~ identifies id_of docs i.
Proof.
  cbn. split.
  - intros H (d & Hd & E).
    apply (find_none _ _ H) in Hd. apply Nat.eqb_neq in Hd. contradiction.
  - intros H. destruct (find _ docs) as [d|] eqn:F; [|reflexivity].
    apply find_some in F as [F1 F2]. apply Nat.eqb_eq in F2.
    exfalso. apply H. now exists d.
Qed.

Lemma findById_in_identifies docs i :
  identifies id_of docs i ->
  exists d, findById_in id_of docs (Some i) = Some d.
Proof.
  intros H. destruct (findById_in id_of docs (Some i)) as [d|] eqn:F.
  - now exists d.
  - apply findById_in_None in F. contradiction.
Qed.

Lemma freshId_fresh docs : ~ identifies id_of docs (freshId (map id_of docs)).
Proof.
  intros (d & Hd & E). unfold freshId in E.
  assert (L : id_of d <= list_max (map id_of docs)).
  { assert (F := proj1 (list_max_le (map id_of docs) _) (le_n _)).
    rewrite Forall_forall in F. apply F. now apply in_map. }
  lia.
Qed.

Lemma findById_in_app docs more i :
  findById_in id_of (docs ++ more) (Some i) =
  match findById_in id_of docs (Some i) with
  | Some d => Some d
  | None => findById_in id_of more (Some i)
  end.
Proof.
  cbn. induction docs as [|d docs IH]; cbn; [reflexivity|].
  destruct (id_of d =? i)%nat; [reflexivity | exact IH].
Qed.

(** A document just saved under a fresh identifier is the one found under
    that identifier. *)
Lemma findById_in_saved docs (mk : ObjectId -> D)
  (Hmk : forall i, id_of (mk i) = i) :
  let d := mk (freshId (map id_of docs)) in
  findById_in id_of (docs ++ [d]) (Some (id_of d)) = Some d.
Proof.
  intros d. rewrite findById_in_app.
  destruct (findById_in id_of docs (Some (id_of d))) as [d'|] eqn:F.
  - exfalso. apply findById_in_Some in F as [F1 F2].
    apply (@freshId_fresh docs). exists d'. split; [assumption|].
    rewrite F2. apply Hmk.
  - cbn. now rewrite Nat.eqb_refl.
Qed.
End Lookup.

(** ** The operations, case by case *)

Lemma createLead_eq (data : LeadSchema.fields) (st : Store) :
  createLead data st =
  if lead_fields_truthy data then
    match findById_in SalesAgentSchema._id (salesagents st)
            (LeadSchema.salesAgent data) with
    | Some _ =>
        let lead :=
          LeadSchema.Doc (freshId (map LeadSchema._id (leads st))) data in
        let st' := with_leads (fun docs => docs ++ [lead]) st in
        (Ok (option_map (Lead.populated (salesagents st'))
               (findById_in LeadSchema._id (leads st')
                  (Some (LeadSchema._id lead)))),
         st')
    | None => (Throw (Err "Sales agent not found"), st)
    end
  else (Throw (Err "All fields are required"), st).
Proof.
  unfold createLead. unfold try_catch at 1. unfold bind at 1.
  rewrite lead_guard, fields_eta.
  destruct (lead_fields_truthy data); cbn [negb]; [|reflexivity].
  unfold SalesAgent.findById, Lead.new, Lead.save, Lead.findById,
    Lead.populate.
  unfold bind, gets, modify, throw.
  destruct (findById_in SalesAgentSchema._id (salesagents st)
              (LeadSchema.salesAgent data)); reflexivity.
Qed.

Lemma updateLeadById_eq (leadId : ObjectId) (data : LeadSchema.fields)
  (st : Store) :
  updateLeadById leadId data st =
  if lead_fields_truthy data then
    match findById_in SalesAgentSchema._id (salesagents st)
            (LeadSchema.salesAgent data) with
    | Some _ =>
        match findById_in LeadSchema._id (leads st) (Some leadId) with
        | Some d =>
            let d' := LeadSchema.Doc (LeadSchema._id d) data in
            let st' :=
              with_leads
                (update_in LeadSchema._id (LeadSchema._id d)
                   (fun d => LeadSchema.Doc (LeadSchema._id d) data)) st in
            (Ok (Some (Lead.populated (salesagents st') d')), st')
        | None => (Ok None, st)
        end
    | None => (Throw (Err "Sales agent not found"), st)
    end
  else (Throw (Err "All fields are required"), st).
Proof.
  unfold updateLeadById. unfold try_catch at 1. unfold bind at 1.
  rewrite lead_guard, fields_eta.
  destruct (lead_fields_truthy data); cbn [negb]; [|reflexivity].
  unfold SalesAgent.findById, Lead.findByIdAndUpdate, Lead.findById,
    Lead.populate.
  unfold bind, gets, modify, throw, ret.
  destruct (findById_in SalesAgentSchema._id (salesagents st)
              (LeadSchema.salesAgent data)); [|reflexivity].
  cbn [truthy Truthy_option Truthy_agent negb].
  destruct (findById_in LeadSchema._id (leads st) (Some leadId));
    reflexivity.
Qed.

Lemma createSalesAgent_eq (data : SalesAgentSchema.fields) (st : Store) :
  createSalesAgent data st =
  if truthy (SalesAgentSchema.name data)
     && truthy (SalesAgentSchema.email data) then
    match find (email_is (SalesAgentSchema.email data)) (salesagents st) with
    | Some _ =>
        (Throw (Err "Sales agent with this email already exists"), st)
    | None =>
        let agent :=
          SalesAgentSchema.Doc
            (freshId (map SalesAgentSchema._id (salesagents st))) data in
        (Ok agent, with_salesagents (fun docs => docs ++ [agent]) st)
    end
  else (Throw (Err "Name and email are required"), st).
Proof.
  unfold createSalesAgent. unfold try_catch at 1. unfold bind at 1.
  destruct data as [n e]. cbn [SalesAgentSchema.name SalesAgentSchema.email].
  destruct (truthy n), (truthy e); cbn [negb orb andb]; try reflexivity.
  unfold SalesAgent.findOne_email, SalesAgent.new, SalesAgent.save.
  unfold bind, gets, modify, throw, ret, findOne_in.
  change (fun d => option_eqb String.eqb
                     (SalesAgentSchema.email (SalesAgentSchema.data d)) e)
    with (email_is e).
  destruct (find (email_is e) (salesagents st)); reflexivity.
Qed.

Lemma createComment_eq (leadId : ObjectId) (data : CommentData) (st : Store) :
  createComment leadId data st =
  if truthy (cd_commentText data) && truthy (cd_author data) then
    match findById_in LeadSchema._id (leads st) (Some leadId) with
    | Some _ =>
        match findById_in SalesAgentSchema._id (salesagents st)
                (cd_author data) with
        | Some _ =>
            let comment :=
              CommentSchema.Doc
                (freshId (map CommentSchema._id (comments st)))
                (CommentSchema.Fields (Some leadId) (cd_commentText data)
                   (cd_author data)) in
            (Ok comment, with_comments (fun docs => docs ++ [comment]) st)
        | None => (Throw (Err "Author not found"), st)
        end
    | None => (Throw (Err "Lead not found"), st)
    end
  else (Throw (Err "Comment text and author are required"), st).
Proof.
  unfold createComment. unfold try_catch at 1. unfold bind at 1.
  destruct (truthy (cd_commentText data)), (truthy (cd_author data));
    cbn [negb orb andb]; try reflexivity.
  unfold Lead.findById, SalesAgent.findById, Comment.new, Comment.save.
  unfold bind, gets, modify, throw, ret.
  destruct (findById_in LeadSchema._id (leads st) (Some leadId));
    [|reflexivity].
  cbn [truthy Truthy_option Truthy_lead negb].
  destruct (findById_in SalesAgentSchema._id (salesagents st)
              (cd_author data)); reflexivity.
Qed.

Lemma agent_field_blank_iff (data : SalesAgentSchema.fields) :
  agent_field_blank data <->
  truthy (SalesAgentSchema.name data)
  && truthy (SalesAgentSchema.email data) = false.
Proof.
  unfold agent_field_blank, blank_text. rewrite <- !falsy_text.
  destruct (truthy (SalesAgentSchema.name data)),
    (truthy (SalesAgentSchema.email data)); cbn; intuition congruence.
Qed.

Lemma comment_field_blank_iff (data : CommentData) :
  comment_field_blank data <->
  truthy (cd_commentText data) && truthy (cd_author data) = false.
Proof.
  unfold comment_field_blank, blank_text. rewrite <- falsy_text.
  destruct (truthy (cd_commentText data)), (cd_author data); cbn;
    intuition congruence.
Qed.

(** ** Emails *)

Lemma option_eqb_string_spec (x y : option string) :
  option_eqb String.eqb x y = true <-> x = y.
Proof.
  destruct x as [a|], y as [b|]; cbn; split; try discriminate; try reflexivity.
  - intros E. apply String.eqb_eq in E. now subst.
  - intros E. inversion E. apply String.eqb_refl.
Qed.

Lemma find_snoc {A : Type} (p : A -> bool) (l : list A) (x : A) :
  find p (l ++ [x]) =
  match find p l with
  | Some y => Some y
  | None => if p x then Some x else None
  end.
Proof.
  induction l as [|y l IH]; cbn; [reflexivity|].
  destruct (p y); [reflexivity | exact IH].
Qed.

(** [findOne({ email })] comes back empty exactly when no agent has the
    email. *)
Lemma find_email_None (e : option string) (agents : list SalesAgentSchema.doc) :
  find (email_is e) agents = None <->
  ~ In e (map (fun a => SalesAgentSchema.email (SalesAgentSchema.data a))
            agents).
Proof.
  split.
  - intros F I. apply in_map_iff in I as (a & E & I).
    apply (find_none _ _ F) in I. unfold email_is in I.
    rewrite E in I.
    assert (R : option_eqb String.eqb e e = true)
      by now apply option_eqb_string_spec.
    congruence.
  - intros N. destruct (find (email_is e) agents) as [a|] eqn:F;
      [|reflexivity].
    apply find_some in F as [I E]. exfalso. apply N.
    apply option_eqb_string_spec in E. subst e.
    apply in_map_iff. now exists a.
Qed.

(** What a successful [createSalesAgent] did. *)
Lemma createSalesAgent_Ok (data : SalesAgentSchema.fields) (st st' : Store)
  (a : SalesAgentSchema.doc) :
  createSalesAgent data st = (Ok a, st') ->
  truthy (SalesAgentSchema.name data) = true
  /\ truthy (SalesAgentSchema.email data) = true
  /\ find (email_is (SalesAgentSchema.email data)) (salesagents st) = None
  /\ a = SalesAgentSchema.Doc
           (freshId (map SalesAgentSchema._id (salesagents st))) data
  /\ st' = with_salesagents (fun docs => docs ++ [a]) st.
Proof.
  rewrite createSalesAgent_eq.
  destruct (truthy (SalesAgentSchema.name data)),
    (truthy (SalesAgentSchema.email data)); cbn [andb]; try discriminate.
  destruct (find _ (salesagents st)); [discriminate|].
  cbv zeta. intros E. inversion E. subst. repeat split.
Qed.

Lemma createSalesAgent_keeps_unique_emails (data : SalesAgentSchema.fields)
  (st : Store) :
  unique_emails st -> unique_emails (snd (createSalesAgent data st)).
Proof.
  intros U. rewrite createSalesAgent_eq.
  destruct (truthy (SalesAgentSchema.name data)
            && truthy (SalesAgentSchema.email data)); [|exact U].
  destruct (find _ (salesagents st)) eqn:F; [exact U|].
  unfold unique_emails in *. cbn. rewrite map_app. cbn.
  apply NoDup_app.
  - exact U.
  - constructor; [intros [] | constructor].
  - intros e I [E|[]]. subst e.
    apply find_email_None in F. contradiction.
Qed.

(** ** Listing leads *)

Lemma option_eqb_nat_spec (x y : option ObjectId) :
  option_eqb Nat.eqb x y = true <-> x = y.
Proof.
  destruct x as [a|], y as [b|]; cbn; split; try discriminate; try reflexivity.
  - intros E. apply Nat.eqb_eq in E. now subst.
  - intros E. inversion E. apply Nat.eqb_refl.
Qed.

Lemma readAllLeads_eq (q : LeadQueryParams) (st : Store) :
  readAllLeads q st =
  (Ok (map (Lead.populated (salesagents st))
         (filter (LeadQuery.matches (query_of q)) (leads st))), st).
Proof. reflexivity. Qed.

Lemma text_filter (p stored : option string) :
  (if truthy p then option_eqb String.eqb stored p else true) = true <->
  (forall s, p = Some s -> s <> "" -> stored = Some s).
Proof.
  destruct (truthy p) eqn:T.
  - apply truthy_text in T as (s & -> & N).
    rewrite option_eqb_string_spec. split.
    + intros -> s' E _. now inversion E.
    + intros H. now apply H.
  - apply falsy_text in T as [-> | ->]; split; try reflexivity.
    + intros _ s E. discriminate.
    + intros _ s E N. inversion E. congruence.
Qed.

Lemma reference_filter (p stored : option ObjectId) :
  (if truthy p then option_eqb Nat.eqb stored p else true) = true <->
  (forall i, p = Some i -> stored = Some i).
Proof.
  destruct p as [i|]; cbn.
  - rewrite option_eqb_nat_spec. split.
    + intros -> j E. now inversion E.
    + intros H. now apply H.
  - split; [intros _ i E; discriminate | reflexivity].
Qed.

Lemma matches_query_of (q : LeadQueryParams) (d : LeadSchema.doc) :
  LeadQuery.matches (query_of q) d = true <-> meets q d.
Proof.
  unfold meets. rewrite <- reference_filter, <- !text_filter.
  rewrite <- !andb_true_iff, andb_assoc.
  unfold query_of, LeadQuery.matches.
  destruct (truthy (qp_salesAgent q)), (truthy (qp_status q)),
    (truthy (qp_source q)); reflexivity.
Qed.

Lemma is_closed_spec (d : LeadSchema.doc) :
  is_closed d = true <-> LeadSchema.status (LeadSchema.data d) = Some "Closed".
Proof.
  unfold is_closed. destruct (LeadSchema.status (LeadSchema.data d)) as [s|].
  - rewrite String.eqb_eq. split; congruence.
  - split; discriminate.
Qed.

(** ** Counting and grouping *)

Lemma option_eqb_nat_reflect (x y : option ObjectId) :
  reflect (x = y) (option_eqb Nat.eqb x y).
Proof. apply iff_reflect. symmetry. apply option_eqb_nat_spec. Qed.

Lemma filter_filter {A : Type} (p q : A -> bool) (l : list A) :
  filter p (filter q l) = filter (fun x => q x && p x) l.
Proof.
  induction l as [|x l IH]; cbn; [reflexivity|].
  destruct (q x); cbn; [|exact IH].
  destruct (p x); now rewrite IH.
Qed.

Lemma filter_length_pos {A : Type} (p : A -> bool) (l : list A) :
  1 <= length (filter p l) <-> exists x, In x l /\ p x = true.
Proof.
  split.
  - destruct (filter p l) as [|x r] eqn:F; cbn; [lia|].
    intros _. exists x. apply filter_In. rewrite F. now left.
  - intros (x & I & P).
    assert (In x (filter p l)) by now apply filter_In.
    destruct (filter p l); [contradiction | cbn; lia].
Qed.

Section Grouping.
Import Aggregate.

Lemma count_of_accumulate k k' acc :
  count_of (accumulate k acc) k' =
  (if option_eqb Nat.eqb k k' then 1 else 0) + count_of acc k'.
Proof.
  unfold count_of.
  induction acc as [|g acc IH]; cbn.
  - unfold has_key; cbn. destruct (option_eqb Nat.eqb k k'); reflexivity.
  - destruct (option_eqb_nat_reflect (g_id g) k) as [E|N]; cbn;
      unfold has_key at 1 3; cbn.
    + rewrite E. destruct (option_eqb Nat.eqb k k'); reflexivity.
    + destruct (option_eqb_nat_reflect (g_id g) k') as [E'|N'].
      * destruct (option_eqb_nat_reflect k k') as [E''|_];
          [congruence | reflexivity].
      * exact IH.
Qed.

Lemma keys_accumulate k k' acc :
  In k' (map g_id (accumulate k acc)) <-> k' = k \/ In k' (map g_id acc).
Proof.
  induction acc as [|g acc IH]; cbn.
  - intuition congruence.
  - destruct (option_eqb_nat_reflect (g_id g) k) as [E|N]; cbn.
    + intuition congruence.
    + rewrite IH. tauto.
Qed.

Lemma NoDup_accumulate k acc :
  NoDup (map g_id acc) -> NoDup (map g_id (accumulate k acc)).
Proof.
  induction acc as [|g acc IH]; cbn; intros U.
  - constructor; [intros [] | constructor].
  - destruct (option_eqb_nat_reflect (g_id g) k) as [E|N]; cbn.
    + exact U.
    + inversion U as [|x l Out U']; subst. constructor.
      * rewrite keys_accumulate. intros [E|I]; [congruence | contradiction].
      * now apply IH.
Qed.

Lemma NoDup_fold docs : forall acc,
  NoDup (map g_id acc) -> NoDup (map g_id (fold_left step docs acc)).
Proof.
  induction docs as [|d docs IH]; cbn; intros acc U; [exact U|].
  apply IH. now apply NoDup_accumulate.
Qed.

Lemma keys_fold docs : forall acc k,
  In k (map g_id (fold_left step docs acc)) <->
  In k (map key_of docs) \/ In k (map g_id acc).
Proof.
  induction docs as [|d docs IH]; cbn; intros acc k; [tauto|].
  rewrite IH. unfold step. rewrite keys_accumulate.
  intuition congruence.
Qed.

Lemma count_of_fold docs : forall acc k,
  count_of (fold_left step docs acc) k =
  length (filter (fun d => option_eqb Nat.eqb (key_of d) k) docs)
  + count_of acc k.
Proof.
  induction docs as [|d docs IH]; cbn; intros acc k; [reflexivity|].
  rewrite IH. unfold step. rewrite count_of_accumulate.
  destruct (option_eqb Nat.eqb (key_of d) k); cbn; lia.
Qed.

(** With one group for each key, the count held for the key of a group is
    the count of that group. *)
Lemma count_of_member acc g :
  NoDup (map g_id acc) -> In g acc -> count_of acc (g_id g) = g_count g.
Proof.
  unfold count_of.
  induction acc as [|h acc IH]; cbn; intros U I; [contradiction|].
  inversion U as [|x l Out U']; subst.
  unfold has_key at 1.
  destruct (option_eqb_nat_reflect (g_id h) (g_id g)) as [E|N].
  - destruct I as [->|I]; [reflexivity|].
    exfalso. apply Out. rewrite E. now apply in_map.
  - destruct I as [->|I]; [congruence | now apply IH].
Qed.

Lemma group_keys_NoDup docs : NoDup (map g_id (group_by_salesAgent docs)).
Proof. apply NoDup_fold. constructor. Qed.

Lemma group_keys docs k :
  In k (map g_id (group_by_salesAgent docs)) <-> In k (map key_of docs).
Proof.
  unfold group_by_salesAgent.
  change (fun acc d => accumulate (LeadSchema.salesAgent (LeadSchema.data d))
                         acc) with step.
  rewrite keys_fold. cbn. tauto.
Qed.

Lemma group_counts docs g :
  In g (group_by_salesAgent docs) ->
  g_count g =
  length (filter (fun d => option_eqb Nat.eqb (key_of d) (g_id g)) docs).
Proof.
  intros I.
  rewrite <- (count_of_member _ g (group_keys_NoDup docs) I).
  unfold group_by_salesAgent.
  change (fun acc d => accumulate (LeadSchema.salesAgent (LeadSchema.data d))
                         acc) with step.
  rewrite count_of_fold. cbn. lia.
Qed.
End Grouping.

(** ** The two reports *)

Lemma not_closed_matches (d : LeadSchema.doc) :
  LeadQuery.matches
    (LeadQuery.set_status (Ne (Some "Closed")) LeadQuery.empty) d
  = negb (is_closed d).
Proof.
  unfold LeadQuery.matches, is_closed; cbn.
  destruct (LeadSchema.status (LeadSchema.data d)); cbn;
    now rewrite ?andb_true_r.
Qed.

Lemma readPipelineReport_eq (st : Store) :
  readPipelineReport st =
  (Ok {| totalLeadsInPipeline :=
           length (filter (fun d => negb (is_closed d)) (leads st)) |}, st).
Proof.
  unfold readPipelineReport, try_catch, bind, ret, Lead.countDocuments, gets,
    countDocuments_in.
  do 4 f_equal. apply filter_ext. exact not_closed_matches.
Qed.

Lemma match_status_closed (docs : list LeadSchema.doc) :
  Aggregate.match_status "Closed" docs = filter is_closed docs.
Proof.
  apply filter_ext. intros d. unfold is_closed; cbn.
  now destruct (LeadSchema.status (LeadSchema.data d)).
Qed.

Lemma filter_nothing {A : Type} (p : A -> bool) (l : list A) :
  (forall x, In x l -> p x = false) -> filter p l = [].
Proof.
  induction l as [|x l IH]; cbn; intros H; [reflexivity|].
  rewrite (H x) by now left. apply IH. intros y I. apply H. now right.
Qed.

(** Identifiers being unique, [$lookup] joins a group with at most one
    agent. *)
Lemma lookup_unique (agents : list SalesAgentSchema.doc) (i : ObjectId) :
  NoDup (map SalesAgentSchema._id agents) ->
  filter (fun a => option_eqb Nat.eqb (Some (SalesAgentSchema._id a)) (Some i))
    agents
  = match findById_in SalesAgentSchema._id agents (Some i) with
    | Some a => [a]
    | None => []
    end.
Proof.
  cbn. induction agents as [|a agents IH]; cbn; intros U; [reflexivity|].
  inversion U as [|x l Out U']; subst.
  destruct (Nat.eqb_spec (SalesAgentSchema._id a) i) as [E|N].
  - f_equal. apply filter_nothing. intros b I.
    apply Nat.eqb_neq. intros E'. apply Out. rewrite E, <- E'.
    now apply in_map.
  - now apply IH.
Qed.

Lemma lookup_null (agents : list SalesAgentSchema.doc) :
  filter (fun a => option_eqb Nat.eqb (Some (SalesAgentSchema._id a)) None)
    agents = [].
Proof. apply filter_nothing. reflexivity. Qed.

Lemma entries_cons (agents : list SalesAgentSchema.doc)
  (g : Aggregate.grouped) (gs : list Aggregate.grouped) :
  entries agents (g :: gs) =
  map (fun a => Aggregate.Projected
                  (SalesAgentSchema.name (SalesAgentSchema.data a))
                  (Aggregate.g_count g))
    (filter (fun a => option_eqb Nat.eqb (Some (SalesAgentSchema._id a))
                        (Aggregate.g_id g)) agents)
  ++ entries agents gs.
Proof.
  unfold entries, Aggregate.project. cbn. now rewrite map_app, map_map.
Qed.

Lemma report_shape (agents : list SalesAgentSchema.doc)
  (cnt : ObjectId -> nat) (gs : list Aggregate.grouped) :
  NoDup (map SalesAgentSchema._id agents) ->
  NoDup (map Aggregate.g_id gs) ->
  (forall g i, In g gs -> Aggregate.g_id g = Some i ->
               Aggregate.g_count g = cnt i) ->
  exists ids,
    NoDup ids
    /\ (forall i, In i ids <->
                  In (Some i) (map Aggregate.g_id gs)
                  /\ identifies SalesAgentSchema._id agents i)
    /\ Forall2 (entry_for agents cnt) ids (entries agents gs).
Proof.
  intros UA. induction gs as [|g gs IH]; intros UG Cnt.
  - exists []. split; [constructor|]. split; [cbn; tauto | constructor].
  - inversion UG as [|x l Out UG']; subst.
    destruct IH as (ids & Uids & Mem & Shape);
      [assumption | intros h i I; apply Cnt; now right |].
    rewrite entries_cons.
    destruct (Aggregate.g_id g) as [i|] eqn:K.
    + rewrite (lookup_unique agents i UA).
      destruct (findById_in SalesAgentSchema._id agents (Some i)) as [a|] eqn:F.
      * apply findById_in_Some in F as [Ia Ea].
        exists (i :: ids). split; [|split].
        -- constructor; [|assumption]. rewrite Mem. tauto.
        -- intros j. cbn [map In]. rewrite K, Mem. split.
           ++ intros [<-|[I Known]]; split; auto. now exists a.
           ++ intros [[E|I] Known]; [left; congruence | right; now split].
        -- cbn. constructor; [|exact Shape].
           exists a. repeat split; try assumption.
           now rewrite (Cnt g i (or_introl eq_refl) K).
      * apply findById_in_None in F.
        exists ids. split; [assumption|]. split; [|exact Shape].
        intros j. cbn [map In]. rewrite K, Mem. split.
        -- intros [I Known]. split; auto.
        -- intros [[E|I] Known]; [|now split].
           inversion E; subst. contradiction.
    + rewrite lookup_null. exists ids.
      split; [assumption|]. split; [|exact Shape].
      intros j. cbn [map In]. rewrite K, Mem. split.
      * intros [I Known]. split; auto.
      * intros [[E|I] Known]; [discriminate | now split].
Qed.

Lemma closed_count_eq (st : Store) (i : ObjectId) :
  closed_count st i =
  length (filter (fun d => option_eqb Nat.eqb (key_of d) (Some i))
            (Aggregate.match_status "Closed" (leads st))).
Proof.
  rewrite match_status_closed, filter_filter. reflexivity.
Qed.

(** ** Identifiers stay unique *)

Lemma createSalesAgent_keeps_unique_ids (data : SalesAgentSchema.fields)
  (st : Store) :
  unique_agent_ids st -> unique_agent_ids (snd (createSalesAgent data st)).
Proof.
  intros U. rewrite createSalesAgent_eq.
  destruct (truthy (SalesAgentSchema.name data)
            && truthy (SalesAgentSchema.email data)); [|exact U].
  destruct (find _ (salesagents st)); [exact U|].
  unfold unique_agent_ids in *. cbn. rewrite map_app. cbn.
  apply NoDup_app.
  - exact U.
  - constructor; [intros [] | constructor].
  - intros i I [E|[]]. subst i.
    apply in_map_iff in I as (a & E & I).
    apply (freshId_fresh _ SalesAgentSchema._id (salesagents st)).
    now exists a.
Qed.

(** ** Requests: what the operations do, case by case *)

Section RequestCases.
Variable castError : string -> string -> string -> Error.

Lemma truthy_IdOf (o : option ObjectId) :
  truthy (option_map IdOf o) = truthy o.
Proof. now destruct o. Qed.

(** On a request whose identifiers are well-formed the operations are the
    ones of the first part. *)
Lemma createLead_req_well_formed (data : LeadSchema.fields) (st : Store) :
  createLead_req castError (lead_body data) st = createLead data st.
Proof. destruct data as [n s [a|] t c p g]; reflexivity. Qed.

Lemma updateLeadById_req_well_formed (leadId : ObjectId)
  (data : LeadSchema.fields) (st : Store) :
  updateLeadById_req castError (IdOf leadId) (lead_body data) st
  = updateLeadById leadId data st.
Proof. destruct data as [n s [a|] t c p g]; reflexivity. Qed.

Lemma readAllLeads_req_well_formed (q : LeadQueryParams) (st : Store) :
  readAllLeads_req castError (lead_params q) st = readAllLeads q st.
Proof.
  destruct q as [[a|] s t];
    unfold readAllLeads_req, readAllLeads, lead_params; cbn;
    destruct (truthy s), (truthy t); reflexivity.
Qed.

Lemma readLeadById_req_well_formed (leadId : ObjectId) (st : Store) :
  readLeadById_req castError (IdOf leadId) st = readLeadById leadId st.
Proof. reflexivity. Qed.

Lemma deleteLeadById_req_well_formed (leadId : ObjectId) (st : Store) :
  deleteLeadById_req castError (IdOf leadId) st = deleteLeadById leadId st.
Proof. reflexivity. Qed.

Lemma createComment_req_well_formed (leadId : ObjectId) (data : CommentData)
  (st : Store) :
  createComment_req castError (IdOf leadId) (comment_body data) st
  = createComment leadId data st.
Proof. destruct data as [t [a|]]; reflexivity. Qed.

Lemma readCommentsByLeadId_req_well_formed (leadId : ObjectId) (st : Store) :
  readCommentsByLeadId_req castError (IdOf leadId) st
  = readCommentsByLeadId leadId st.
Proof. reflexivity. Qed.

Lemma falsy_reference (o : option IdText) :
  truthy o = false <-> blank_reference o.
Proof.
  unfold blank_reference. destruct o as [[i|text]|]; cbn.
  - split; [discriminate | intros [E|E]; discriminate].
  - change (truthy text) with (truthy (Some text)). rewrite falsy_text.
    split.
    + intros [E|E]; [discriminate | inversion E; now right].
    + intros [E|E]; [discriminate | inversion E; now right].
  - split; [now left | reflexivity].
Qed.


Lemma lead_body_guard (body : LeadBody.t) :
  (!LeadBody.name body || !LeadBody.source body
   || !LeadBody.salesAgent body || !LeadBody.status body
   || !LeadBody.timeToClose body || !LeadBody.priority body
   || !LeadBody.tags body) = negb (lead_body_truthy body).
Proof.
  unfold lead_body_truthy.
  destruct (truthy (LeadBody.name body)),
    (truthy (LeadBody.source body)),
    (truthy (LeadBody.salesAgent body)),
    (truthy (LeadBody.status body)),
    (truthy (LeadBody.timeToClose body)),
    (truthy (LeadBody.priority body)),
    (truthy (LeadBody.tags body)); reflexivity.
Qed.

Lemma lead_body_truthy_reference (body : LeadBody.t) :
  lead_body_truthy body = true -> truthy (LeadBody.salesAgent body) = true.
Proof.
  unfold lead_body_truthy. rewrite !andb_true_iff. tauto.
Qed.

Lemma lead_body_truthy_fields (body : LeadBody.t) (i : ObjectId) :
  LeadBody.salesAgent body = Some (IdOf i) ->
  lead_fields_truthy (lead_fields_of body) = lead_body_truthy body.
Proof.
  intros E. unfold lead_fields_truthy, lead_body_truthy, lead_fields_of.
  cbn [LeadSchema.name LeadSchema.source LeadSchema.salesAgent
         LeadSchema.status LeadSchema.timeToClose LeadSchema.priority
         LeadSchema.tags].
  now rewrite E.
Qed.

(** [createLead] on a request: the presence check, then the cast of
    [salesAgent], then what [createLead] does with the identifier. *)
Lemma createLead_req_cases (body : LeadBody.t) (st : Store) :
  createLead_req castError body st =
  if lead_body_truthy body then
    match LeadBody.salesAgent body with
    | Some (NotAnId text) =>
        (Throw (castError "SalesAgent" "_id" text), st)
    | _ => createLead (lead_fields_of body) st
    end
  else (Throw (Err "All fields are required"), st).
Proof.
  unfold createLead_req. unfold try_catch at 1. unfold bind at 1.
  rewrite lead_body_guard.
  destruct (lead_body_truthy body) eqn:T; cbn [negb]; [|reflexivity].
  pose proof (lead_body_truthy_reference body T) as Ta.
  destruct (LeadBody.salesAgent body) as [[i|text]|] eqn:E;
    [| reflexivity | discriminate].
  rewrite createLead_eq, (lead_body_truthy_fields body i E), T.
  unfold lead_fields_of. rewrite E.
  cbn [LeadSchema.salesAgent cast_reference castObjectId].
  unfold SalesAgent_findById, cast, SalesAgent.findById, Lead.new, Lead.save,
    Lead.findById, Lead.populate, bind, gets, modify, throw, ret.
  destruct (findById_in SalesAgentSchema._id (salesagents st) (Some i));
    reflexivity.
Qed.

(** [updateLeadById] on a request: the presence check, the cast of
    [salesAgent], the lookup of the agent, the cast of the identifier of the
    lead, then the replacement. *)
Lemma updateLeadById_req_cases (leadId : IdText) (body : LeadBody.t)
  (st : Store) :
  updateLeadById_req castError leadId body st =
  if lead_body_truthy body then
    match LeadBody.salesAgent body with
    | Some (NotAnId text) =>
        (Throw (castError "SalesAgent" "_id" text), st)
    | _ =>
        match leadId with
        | IdOf j => updateLeadById j (lead_fields_of body) st
        | NotAnId text =>
            match findById_in SalesAgentSchema._id (salesagents st)
                    (cast_reference (LeadBody.salesAgent body)) with
            | Some _ => (Throw (castError "Lead" "_id" text), st)
            | None => (Throw (Err "Sales agent not found"), st)
            end
        end
    end
  else (Throw (Err "All fields are required"), st).
Proof.
  unfold updateLeadById_req. unfold try_catch at 1. unfold bind at 1.
  rewrite lead_body_guard.
  destruct (lead_body_truthy body) eqn:T; cbn [negb]; [|reflexivity].
  pose proof (lead_body_truthy_reference body T) as Ta.
  destruct (LeadBody.salesAgent body) as [[i|text]|] eqn:E;
    [| reflexivity | discriminate].
  cbn [cast_reference castObjectId].
  destruct leadId as [j|text].
  - rewrite updateLeadById_eq, (lead_body_truthy_fields body i E), T.
    unfold lead_fields_of. rewrite E.
    cbn [LeadSchema.salesAgent cast_reference castObjectId].
    unfold SalesAgent_findById, Lead_findByIdAndUpdate, cast,
      SalesAgent.findById, Lead.findByIdAndUpdate, Lead.findById,
      Lead.populate, bind, gets, modify, throw, ret.
    destruct (findById_in SalesAgentSchema._id (salesagents st) (Some i));
      [|reflexivity].
    cbn [truthy Truthy_option Truthy_agent negb].
    destruct (findById_in LeadSchema._id (leads st) (Some j)); reflexivity.
  - unfold SalesAgent_findById, Lead_findByIdAndUpdate, cast,
      SalesAgent.findById, bind, gets, throw, ret.
    destruct (findById_in SalesAgentSchema._id (salesagents st) (Some i));
      reflexivity.
Qed.

Lemma comment_body_blank_iff (body : CommentBody.t) :
  comment_body_blank body <->
  truthy (CommentBody.commentText body) && truthy (CommentBody.author body)
  = false.
Proof.
  unfold comment_body_blank, blank_text.
  rewrite <- falsy_text, <- falsy_reference.
  destruct (truthy (CommentBody.commentText body)),
    (truthy (CommentBody.author body)); cbn; intuition congruence.
Qed.

(** [createComment] on a request: the presence check, the cast of the
    identifier of the lead, the lookup of the lead, the cast of the author,
    then what [createComment] does with the two identifiers. *)
Lemma createComment_req_cases (leadId : IdText) (body : CommentBody.t)
  (st : Store) :
  createComment_req castError leadId body st =
  if truthy (CommentBody.commentText body)
     && truthy (CommentBody.author body) then
    match leadId with
    | NotAnId text => (Throw (castError "Lead" "_id" text), st)
    | IdOf j =>
        match CommentBody.author body with
        | Some (NotAnId text) =>
            match findById_in LeadSchema._id (leads st) (Some j) with
            | Some _ => (Throw (castError "SalesAgent" "_id" text), st)
            | None => (Throw (Err "Lead not found"), st)
            end
        | _ => createComment j (comment_data_of body) st
        end
    end
  else (Throw (Err "Comment text and author are required"), st).
Proof.
  unfold createComment_req. unfold try_catch at 1. unfold bind at 1.
  destruct (truthy (CommentBody.commentText body)) eqn:Tt;
    [|reflexivity].
  destruct (truthy (CommentBody.author body)) eqn:Ta; [|reflexivity].
  cbn [negb orb andb].
  destruct leadId as [j|text]; [|reflexivity].
  destruct (CommentBody.author body) as [[i|text]|] eqn:E;
    [| | discriminate].
  - rewrite createComment_eq. unfold comment_data_of. rewrite E.
    cbn [cd_commentText cd_author cast_reference castObjectId].
    rewrite Tt. cbn [truthy Truthy_option Truthy_ObjectId andb].
    unfold Lead_findById, SalesAgent_findById, cast, Lead.findById,
      SalesAgent.findById, Comment.new, Comment.save, bind, gets, modify,
      throw, ret.
    destruct (findById_in LeadSchema._id (leads st) (Some j));
      [|reflexivity].
    cbn [truthy Truthy_option Truthy_lead negb].
    destruct (findById_in SalesAgentSchema._id (salesagents st) (Some i));
      reflexivity.
  - unfold Lead_findById, SalesAgent_findById, cast, Lead.findById, bind,
      gets, throw, ret.
    destruct (findById_in LeadSchema._id (leads st) (Some j)); reflexivity.
Qed.

(** [readAllLeads] on a request: a [salesAgent] that is a text other than
    an identifier, and not empty, makes [Lead.find] throw. *)
Lemma readAllLeads_req_cases (q : LeadParams.t) (st : Store) :
  readAllLeads_req castError q st =
  match LeadParams.salesAgent q with
  | Some (NotAnId text) =>
      if truthy text
      then (Throw (castError "Lead" "salesAgent" text), st)
      else readAllLeads (lead_params_of q) st
  | _ => readAllLeads (lead_params_of q) st
  end.
Proof.
  destruct q as [[[i|text]|] s t];
    unfold readAllLeads_req, readAllLeads, lead_params_of; cbn;
    try destruct (truthy text); destruct (truthy s), (truthy t);
    reflexivity.
Qed.

Lemma readLeadById_req_cases (leadId : IdText) (st : Store) :
  readLeadById_req castError leadId st =
  match leadId with
  | IdOf i => readLeadById i st
  | NotAnId text => (Throw (castError "Lead" "_id" text), st)
  end.
Proof. destruct leadId; reflexivity. Qed.

Lemma deleteLeadById_req_cases (leadId : IdText) (st : Store) :
  deleteLeadById_req castError leadId st =
  match leadId with
  | IdOf i => deleteLeadById i st
  | NotAnId text => (Throw (castError "Lead" "_id" text), st)
  end.
Proof. destruct leadId; reflexivity. Qed.

Lemma readCommentsByLeadId_req_cases (leadId : IdText) (st : Store) :
  readCommentsByLeadId_req castError leadId st =
  match leadId with
  | IdOf i => readCommentsByLeadId i st
  | NotAnId text => (Throw (castError "Comment" "lead" text), st)
  end.
Proof. destruct leadId; reflexivity. Qed.
End RequestCases.

(** ** What a listing shows *)

Lemma populated_resolved (st : Store) (ref : option ObjectId) :
  resolved st ref (findById_in SalesAgentSchema._id (salesagents st) ref).
Proof.
  unfold resolved. destruct ref as [i|].
  - destruct (findById_in SalesAgentSchema._id (salesagents st) (Some i))
      as [a|] eqn:F.
    + apply findById_in_Some in F as [I E]. split; [exact I | now rewrite E].
    + intros j E. inversion E; subst. now apply findById_in_None in F.
  - cbn. intros i E. discriminate.
Qed.

Lemma populated_lead_shown (st : Store) (d : LeadSchema.doc) :
  lead_shown st d (Lead.populated (salesagents st) d).
Proof.
  unfold lead_shown. cbn. repeat split. apply populated_resolved.
Qed.

Lemma populated_comment_shown (st : Store) (c : CommentSchema.doc) :
  comment_shown st c (CommentQuery.populated (salesagents st) c).
Proof.
  unfold comment_shown. cbn. repeat split. apply populated_resolved.
Qed.

Lemma Forall2_map_shown {A B : Type} (R : A -> B -> Prop) (f : A -> B)
  (l : list A) :
  (forall x, R x (f x)) -> Forall2 R l (map f l).
Proof.
  intros H. induction l as [|x l IH]; cbn; constructor; auto.
Qed.

(** * The claims *)

(** ** Presence checks *)

(** C10.  A lead whose [timeToClose] is the integer 0 is refused by
    [createLead] and by [updateLeadById] with "All fields are required",
    whatever the other fields and the store are: the presence check tests
    truthiness, and 0 is falsy. *)
Theorem timeToClose_zero_is_rejected (st : Store) (leadId : ObjectId)
  (data : LeadSchema.fields) :
  LeadSchema.timeToClose data = Some 0%Z ->
  createLead data st = (Throw (Err "All fields are required"), st)
  /\ updateLeadById leadId data st
     = (Throw (Err "All fields are required"), st).
Proof.
  intros Z0.
  assert (B : lead_fields_truthy data = false).
  { apply lead_field_blank_iff. unfold lead_field_blank. tauto. }
  rewrite createLead_eq, updateLeadById_eq, B. split; reflexivity.
Qed.

Lemma timeToClose_zero_is_rejected_witness :
  let data := lead_fields "Dune" "Website" 1 "New" 0 "High" ["trial"] in
  createLead data crm = (Throw (Err "All fields are required"), crm)
  /\ updateLeadById 2 data crm
     = (Throw (Err "All fields are required"), crm).
Proof.
  intros data. apply (timeToClose_zero_is_rejected crm 2 data). reflexivity.
Defined.

(** C8.  In each of the four write operations the presence check comes
    first: an input with a blank mandatory field is refused with the message
    of the presence check in every store, hence also when the input names an
    agent, a lead or an author that does not exist, or an email already
    taken. *)
Theorem presence_check_comes_first (st : Store) (leadId : ObjectId)
  (lead : LeadSchema.fields) (agent : SalesAgentSchema.fields)
  (comment : CommentData) :
  (lead_field_blank lead ->
     createLead lead st = (Throw (Err "All fields are required"), st)
     /\ updateLeadById leadId lead st
        = (Throw (Err "All fields are required"), st))
  /\ (agent_field_blank agent ->
        createSalesAgent agent st
        = (Throw (Err "Name and email are required"), st))
  /\ (comment_field_blank comment ->
        createComment leadId comment st
        = (Throw (Err "Comment text and author are required"), st)).
Proof.
  repeat split.
  - apply lead_field_blank_iff in H. now rewrite createLead_eq, H.
  - apply lead_field_blank_iff in H. now rewrite updateLeadById_eq, H.
  - intros H. apply agent_field_blank_iff in H.
    now rewrite createSalesAgent_eq, H.
  - intros H. apply comment_field_blank_iff in H.
    now rewrite createComment_eq, H.
Qed.

(** Inputs that lack a field and, at once, name an agent (7), a lead (9) and
    an author (7) that do not exist, or an email that is taken. *)
Lemma presence_check_comes_first_witness :
  let lead :=
    LeadSchema.Fields None (Some "Website") (Some 7) (Some "New")
      (Some 4%Z) (Some "High") (Some ["trial"]) in
  let agent := SalesAgentSchema.Fields None (Some "asha@example.com") in
  let comment := {| cd_commentText := Some ""; cd_author := Some 7 |} in
  (createLead lead crm = (Throw (Err "All fields are required"), crm)
   /\ updateLeadById 9 lead crm
      = (Throw (Err "All fields are required"), crm))
  /\ createSalesAgent agent crm
     = (Throw (Err "Name and email are required"), crm)
  /\ createComment 9 comment crm
     = (Throw (Err "Comment text and author are required"), crm).
Proof.
  intros lead agent comment.
  destruct (presence_check_comes_first crm 9 lead agent comment)
    as (L & A & C).
  split; [apply L | split; [apply A | apply C]].
  - left. now left.
  - left. now left.
  - left. now right.
Defined.

(** ** Creating and replacing a lead *)

(** C1, as stated, fails: an input whose [salesAgent] names no agent and
    which also lacks its other fields is refused with "All fields are
    required", not with "Sales agent not found". *)
Lemma createLead_unknown_agent_counterexample :
  let data := LeadSchema.Fields None None (Some 7) None None None None in
  truthy (LeadSchema.salesAgent data) = true
  /\ ~ agent_exists crm 7
  /\ createLead data crm = (Throw (Err "All fields are required"), crm)
  /\ fst (createLead data crm) <> Throw (Err "Sales agent not found").
Proof.
  cbv zeta. repeat split.
  - intros (a & [E|[E|[]]] & I); subst a; discriminate I.
  - discriminate.
Qed.

(** C1, amended.  When the [salesAgent] of the input is an identifier that no
    agent has, [createLead] fails and leaves the store, and so the Lead
    collection, as it was; the error is "Sales agent not found" when all
    seven fields pass the presence check and "All fields are required" when
    one of them is blank. *)
Theorem createLead_unknown_agent (st : Store) (data : LeadSchema.fields)
  (i : ObjectId) :
  LeadSchema.salesAgent data = Some i ->
  ~ agent_exists st i ->
  exists msg,
    createLead data st = (Throw (Err msg), st)
    /\ leads (snd (createLead data st)) = leads st
    /\ (lead_fields_truthy data = true -> msg = "Sales agent not found")
    /\ (lead_field_blank data -> msg = "All fields are required").
Proof.
  intros Ref Unknown. rewrite createLead_eq, Ref.
  apply findById_in_None in Unknown. unfold agent_exists in *.
  rewrite Unknown.
  destruct (lead_fields_truthy data) eqn:T.
  - exists "Sales agent not found". repeat split.
    intros B. apply lead_field_blank_iff in B. congruence.
  - exists "All fields are required". repeat split. discriminate.
Qed.

Lemma createLead_unknown_agent_witness :
  let data := lead_fields "Dune" "Website" 7 "New" 4 "High" ["trial"] in
  exists msg,
    createLead data crm = (Throw (Err msg), crm)
    /\ leads (snd (createLead data crm)) = leads crm
    /\ (lead_fields_truthy data = true -> msg = "Sales agent not found")
    /\ (lead_field_blank data -> msg = "All fields are required").
Proof.
  intros data. apply (createLead_unknown_agent crm data 7).
  - reflexivity.
  - intros (a & [E|[E|[]]] & I); subst a; discriminate I.
Defined.

(** C2, as stated, fails: with all seven fields present, none empty, and an
    existing agent, a [timeToClose] of 0 makes [createLead] fail. *)
Lemma createLead_succeeds_counterexample :
  let data := lead_fields "Dune" "Website" 1 "New" 0 "High" ["trial"] in
  lead_fields_present_nonempty data
  /\ agent_exists crm 1
  /\ createLead data crm = (Throw (Err "All fields are required"), crm).
Proof.
  cbv zeta. split; [|split].
  - unfold lead_fields_present_nonempty, lead_fields; cbn.
    repeat split; eexists; (split; [reflexivity | discriminate])
                            || reflexivity.
  - exists asha. split; [now left | reflexivity].
  - reflexivity.
Qed.

(** C2, amended.  When all seven fields pass the presence check (the texts
    present and not empty, [timeToClose] present and not 0, [salesAgent] and
    [tags] present) and [salesAgent] is the identifier of an existing agent,
    [createLead] succeeds: it appends to the Lead collection one lead, made
    of the seven fields under an identifier no lead had, and returns that
    lead with [salesAgent] replaced by the agent's whole record; the lead can
    then be read back under its identifier. *)
Theorem createLead_succeeds (st : Store) (data : LeadSchema.fields)
  (i : ObjectId) :
  lead_fields_truthy data = true ->
  LeadSchema.salesAgent data = Some i ->
  agent_exists st i ->
  exists (lead : LeadSchema.doc) (agent : SalesAgentSchema.doc)
         (r : PopulatedLead.doc) (st' : Store),
    createLead data st = (Ok (Some r), st')
    /\ leads st' = leads st ++ [lead]
    /\ salesagents st' = salesagents st
    /\ comments st' = comments st
    /\ LeadSchema.data lead = data
    /\ ~ lead_exists st (LeadSchema._id lead)
    /\ In agent (salesagents st)
    /\ SalesAgentSchema._id agent = i
    /\ PopulatedLead.salesAgent r = Some agent
    /\ PopulatedLead._id r = LeadSchema._id lead
    /\ (PopulatedLead.name r, PopulatedLead.source r, PopulatedLead.status r,
        PopulatedLead.timeToClose r, PopulatedLead.priority r,
        PopulatedLead.tags r)
       = (LeadSchema.name data, LeadSchema.source data,
          LeadSchema.status data, LeadSchema.timeToClose data,
          LeadSchema.priority data, LeadSchema.tags data)
    /\ readLeadById (LeadSchema._id lead) st' = (Ok (Some r), st').
Proof.
  intros T Ref Known. rewrite createLead_eq, T, Ref.
  destruct (findById_in_identifies _ _ _ _ Known) as [agent F].
  unfold agent_exists in *. rewrite F.
  set (lead := LeadSchema.Doc (freshId (map LeadSchema._id (leads st))) data).
  assert (Saved : findById_in LeadSchema._id (leads st ++ [lead])
                    (Some (LeadSchema._id lead)) = Some lead).
  { apply (findById_in_saved _ LeadSchema._id (leads st)
             (fun j => LeadSchema.Doc j data)). reflexivity. }
  cbv zeta. cbn [with_leads leads salesagents]. rewrite Saved.
  exists lead, agent, (Lead.populated (salesagents st) lead),
    (with_leads (fun docs => docs ++ [lead]) st).
  destruct (findById_in_Some _ _ _ _ _ F) as [InA IdA].
  repeat split; try reflexivity; try assumption.
  - apply freshId_fresh.
  - cbn. rewrite Ref. exact F.
  - unfold readLeadById, try_catch, bind, Lead.findById, Lead.populate, gets.
    cbn [with_leads leads salesagents]. rewrite Saved. reflexivity.
Qed.

Lemma createLead_succeeds_witness :
  let data := lead_fields "Dune" "Website" 2 "New" 4 "High" ["trial"] in
  exists (lead : LeadSchema.doc) (agent : SalesAgentSchema.doc)
         (r : PopulatedLead.doc) (st' : Store),
    createLead data crm = (Ok (Some r), st')
    /\ leads st' = leads crm ++ [lead]
    /\ salesagents st' = salesagents crm
    /\ comments st' = comments crm
    /\ LeadSchema.data lead = data
    /\ ~ lead_exists crm (LeadSchema._id lead)
    /\ In agent (salesagents crm)
    /\ SalesAgentSchema._id agent = 2
    /\ PopulatedLead.salesAgent r = Some agent
    /\ PopulatedLead._id r = LeadSchema._id lead
    /\ (PopulatedLead.name r, PopulatedLead.source r, PopulatedLead.status r,
        PopulatedLead.timeToClose r, PopulatedLead.priority r,
        PopulatedLead.tags r)
       = (LeadSchema.name data, LeadSchema.source data,
          LeadSchema.status data, LeadSchema.timeToClose data,
          LeadSchema.priority data, LeadSchema.tags data)
    /\ readLeadById (LeadSchema._id lead) st' = (Ok (Some r), st').
Proof.
  intros data. apply (createLead_succeeds crm data 2).
  - reflexivity.
  - reflexivity.
  - exists bram. split; [right; now left | reflexivity].
Defined.

(** C3, as stated, fails: an update whose [tags] is the empty array, which is
    an empty field, is not refused; it replaces the lead. *)
Lemma updateLeadById_blank_counterexample :
  let data := lead_fields "Birch" "Referral" 1 "New" 9 "Low" [] in
  lead_field_missing_empty_or_null data
  /\ fst (updateLeadById 2 data crm) <> Throw (Err "All fields are required")
  /\ leads (snd (updateLeadById 2 data crm))
     = [acme; LeadSchema.Doc 2 data; cedar]
  /\ leads (snd (updateLeadById 2 data crm)) <> leads crm.
Proof.
  cbv zeta. repeat split.
  - unfold lead_field_missing_empty_or_null. cbn. tauto.
  - discriminate.
  - discriminate.
Qed.

(** C3, amended.  A replacement in which one of the seven fields is missing,
    [null], the empty text or (for [timeToClose]) the number 0 fails with
    "All fields are required" and leaves the store, and so the lead aimed at,
    as it was: no part of the input is applied.  Nothing is said here of an
    empty [tags] array, which the check lets through. *)
Theorem updateLeadById_blank (st : Store) (leadId : ObjectId)
  (data : LeadSchema.fields) :
  lead_field_blank data ->
  updateLeadById leadId data st = (Throw (Err "All fields are required"), st)
  /\ leads (snd (updateLeadById leadId data st)) = leads st.
Proof.
  intros B. apply lead_field_blank_iff in B.
  rewrite updateLeadById_eq, B. split; reflexivity.
Qed.

Lemma updateLeadById_blank_witness :
  let data :=
    LeadSchema.Fields (Some "Birch") (Some "Referral") (Some 1) (Some "Closed")
      (Some 9%Z) None (Some ["b2b"]) in
  updateLeadById 2 data crm = (Throw (Err "All fields are required"), crm)
  /\ leads (snd (updateLeadById 2 data crm)) = leads crm.
Proof.
  intros data. apply (updateLeadById_blank crm 2 data).
  unfold lead_field_blank, blank_text. cbn. tauto.
Defined.

(** What the route makes of the three outcomes of [updateLeadById]: 200 with
    the lead, 404 for [null], 400 with the message of the error. *)
Lemma post_leads_id_status
  (castError : string -> string -> string -> Error) (id : IdText)
  (body : LeadBody.t) (st : Store) :
  match fst (updateLeadById_req castError id body st) with
  | Ok (Some d) =>
      fst (post_leads_id castError id body st)
      = {| res_status := 200; res_json := JLead d |}
  | Ok None =>
      fst (post_leads_id castError id body st)
      = {| res_status := 404; res_json := JError "Lead not found" |}
  | Throw error =>
      fst (post_leads_id castError id body st)
      = {| res_status := 400; res_json := JError (message error) |}
  end.
Proof.
  unfold post_leads_id.
  destruct (updateLeadById_req castError id body st) as [[[d|]|error] st'];
    reflexivity.
Qed.

(** C9, as stated, fails: the outcome is surfaced distinctly.  For an
    acceptable input aimed at an identifier that no lead has,
    [updateLeadById] returns [null], and [POST /leads/:id] answers 404 "Lead
    not found": neither the 200 of a successful replacement nor the 400 of a
    validation error. *)
Lemma updateLeadById_absent_target_counterexample :
  let body :=
    lead_body (lead_fields "Dune" "Website" 2 "New" 4 "High" ["trial"]) in
  let blank :=
    LeadBody.Body None (Some "Website") (Some (IdOf 2)) (Some "New")
      (Some 4%Z) (Some "High") (Some ["trial"]) in
  lead_body_truthy body = true
  /\ agent_exists crm 2
  /\ ~ lead_exists crm 9
  /\ updateLeadById_req sampleCastError (IdOf 9) body crm = (Ok None, crm)
  /\ post_leads_id sampleCastError (IdOf 9) body crm
     = ({| res_status := 404; res_json := JError "Lead not found" |}, crm)
  /\ res_status (fst (post_leads_id sampleCastError (IdOf 2) body crm))
     = 200
  /\ fst (post_leads_id sampleCastError (IdOf 9) blank crm)
     = {| res_status := 400; res_json := JError "All fields are required" |}.
Proof.
  cbv zeta. repeat split.
  - exists bram. split; [right; now left | reflexivity].
  - intros (d & [E|[E|[E|[]]]] & I); subst d; discriminate I.
Qed.

(** C9, amended.  When the input passes the presence check and names an
    existing agent, and the identifier aimed at is well-formed but no lead
    has it, [updateLeadById] raises nothing: it returns [null] through its
    ordinary [return] and leaves the store as it was.  The route then
    surfaces this outcome on its own: [POST /leads/:id] answers 404 "Lead not
    found", where it answers 200 for a lead returned and 400 for every error
    thrown.  When the identifier aimed at is a text that is not an
    identifier, the same input makes the lookup throw the driver's error. *)
Theorem updateLeadById_absent_target
  (castError : string -> string -> string -> Error) (st : Store)
  (leadId : ObjectId) (data : LeadSchema.fields) (i : ObjectId) :
  lead_fields_truthy data = true ->
  LeadSchema.salesAgent data = Some i ->
  agent_exists st i ->
  ~ lead_exists st leadId ->
  updateLeadById_req castError (IdOf leadId) (lead_body data) st
  = (Ok None, st)
  /\ updateLeadById leadId data st = (Ok None, st)
  /\ (forall error,
        fst (updateLeadById_req castError (IdOf leadId) (lead_body data) st)
        <> Throw error)
  /\ post_leads_id castError (IdOf leadId) (lead_body data) st
     = ({| res_status := 404; res_json := JError "Lead not found" |}, st)
  /\ (forall id body,
        match fst (updateLeadById_req castError id body st) with
        | Ok (Some d) =>
            fst (post_leads_id castError id body st)
            = {| res_status := 200; res_json := JLead d |}
        | Ok None =>
            fst (post_leads_id castError id body st)
            = {| res_status := 404; res_json := JError "Lead not found" |}
        | Throw error =>
            fst (post_leads_id castError id body st)
            = {| res_status := 400; res_json := JError (message error) |}
        end)
  /\ (forall text,
        updateLeadById_req castError (NotAnId text) (lead_body data) st
        = (Throw (castError "Lead" "_id" text), st)).
Proof.
  intros T Ref Known Absent.
  assert (Typed : updateLeadById leadId data st = (Ok None, st)).
  { rewrite updateLeadById_eq, T, Ref.
    destruct (findById_in_identifies _ _ _ _ Known) as [agent F].
    unfold agent_exists, lead_exists in *. rewrite F.
    apply findById_in_None in Absent. now rewrite Absent. }
  assert (Req : updateLeadById_req castError (IdOf leadId) (lead_body data) st
                = (Ok None, st))
    by now rewrite updateLeadById_req_well_formed.
  split; [exact Req|]. split; [exact Typed|]. split.
  { rewrite Req. discriminate. }
  split.
  { unfold post_leads_id. now rewrite Req. }
  split.
  { intros id body. unfold post_leads_id.
    destruct (updateLeadById_req castError id body st)
      as [[[d|]|error] st']; reflexivity. }
  intros text. rewrite updateLeadById_req_cases.
  assert (Tb : lead_body_truthy (lead_body data) = true).
  { unfold lead_body_truthy, lead_body. cbn. rewrite truthy_IdOf. exact T. }
  rewrite Tb. unfold lead_body at 1 2. cbn [LeadBody.salesAgent].
  rewrite Ref. cbn [option_map cast_reference castObjectId].
  destruct (findById_in_identifies _ _ _ _ Known) as [agent F].
  unfold agent_exists in *. now rewrite F.
Qed.

Lemma updateLeadById_absent_target_witness :
  let data := lead_fields "Dune" "Website" 2 "New" 4 "High" ["trial"] in
  updateLeadById_req sampleCastError (IdOf 9) (lead_body data) crm
  = (Ok None, crm)
  /\ post_leads_id sampleCastError (IdOf 9) (lead_body data) crm
     = ({| res_status := 404; res_json := JError "Lead not found" |}, crm)
  /\ updateLeadById_req sampleCastError (NotAnId "nine") (lead_body data)
       crm
     = (Throw (sampleCastError "Lead" "_id" "nine"), crm).
Proof.
  intros data.
  destruct (updateLeadById_absent_target sampleCastError crm 9 data 2)
    as (Req & _ & _ & Route & _ & Malformed).
  - reflexivity.
  - reflexivity.
  - exists bram. split; [right; now left | reflexivity].
  - intros (d & [E|[E|[E|[]]]] & I); subst d; discriminate I.
  - split; [exact Req|]. split; [exact Route | apply Malformed].
Defined.

(** ** Creating a sales agent *)

(** C4, as stated, fails: when the second input has the email of the first
    but no name, it is refused with "Name and email are required", not with
    "Sales agent with this email already exists". *)
Lemma createSalesAgent_same_email_counterexample :
  let first :=
    SalesAgentSchema.Fields (Some "Asha") (Some "asha@example.com") in
  let second := SalesAgentSchema.Fields None (Some "asha@example.com") in
  let st := {| leads := []; salesagents := [asha]; comments := [] |} in
  SalesAgentSchema.email first = SalesAgentSchema.email second
  /\ createSalesAgent first no_agents = (Ok asha, st)
  /\ createSalesAgent second st
     = (Throw (Err "Name and email are required"), st)
  /\ fst (createSalesAgent second st)
     <> Throw (Err "Sales agent with this email already exists").
Proof.
  cbv zeta. repeat split. discriminate.
Qed.

(** C4, amended.  If [createSalesAgent] succeeds on an input and is then
    called on an input with the same email, the second call fails and changes
    nothing: with "Sales agent with this email already exists" when the second
    input has a name, with "Name and email are required" when its name is
    blank.  The first agent is in the collection, is listed by
    [readAllSalesAgents] and is the one found under its identifier, before
    and after the second call.  And [createSalesAgent] never makes two agents
    share an email: a store without such a pair has none afterwards. *)
Theorem createSalesAgent_same_email (st st1 : Store)
  (first second : SalesAgentSchema.fields) (a : SalesAgentSchema.doc) :
  SalesAgentSchema.email first = SalesAgentSchema.email second ->
  createSalesAgent first st = (Ok a, st1) ->
  (exists msg,
     createSalesAgent second st1 = (Throw (Err msg), st1)
     /\ (blank_text (SalesAgentSchema.name second) ->
           msg = "Name and email are required")
     /\ (~ blank_text (SalesAgentSchema.name second) ->
           msg = "Sales agent with this email already exists"))
  /\ In a (salesagents st1)
  /\ (exists listed, readAllSalesAgents st1 = (Ok listed, st1) /\ In a listed)
  /\ SalesAgent.findById (Some (SalesAgentSchema._id a)) st1
     = (Ok (Some a), st1)
  /\ (forall (st0 : Store) (data : SalesAgentSchema.fields),
        unique_emails st0 -> unique_emails (snd (createSalesAgent data st0))).
Proof.
  intros Same Created.
  apply createSalesAgent_Ok in Created as (Tn & Te & Free & Ea & Est).
  assert (Ina : In a (salesagents st1)).
  { subst st1. cbn. apply in_or_app. right. now left. }
  repeat split.
  - rewrite createSalesAgent_eq, <- Same, Te.
    assert (Taken : exists b,
               find (email_is (SalesAgentSchema.email first)) (salesagents st1)
               = Some b).
    { subst st1. cbn [with_salesagents salesagents]. rewrite find_snoc, Free.
      assert (Own : email_is (SalesAgentSchema.email first) a = true).
      { unfold email_is. apply option_eqb_string_spec. now subst a. }
      rewrite Own. now exists a. }
    destruct Taken as [b Taken]. rewrite Taken.
    destruct (truthy (SalesAgentSchema.name second)) eqn:T2; cbn [andb].
    + exists "Sales agent with this email already exists".
      repeat split. intros B. apply falsy_text in B. congruence.
    + exists "Name and email are required".
      repeat split. intros B. exfalso. apply B. now apply falsy_text.
  - exact Ina.
  - exists (salesagents st1). split; [reflexivity | exact Ina].
  - unfold SalesAgent.findById, gets. f_equal. f_equal.
    subst st1. cbn [with_salesagents salesagents]. subst a.
    apply (findById_in_saved _ SalesAgentSchema._id (salesagents st)
             (fun j => SalesAgentSchema.Doc j first)). reflexivity.
  - intros st0 data. apply createSalesAgent_keeps_unique_emails.
Qed.

Lemma createSalesAgent_same_email_witness :
  let first :=
    SalesAgentSchema.Fields (Some "Cleo") (Some "cleo@example.com") in
  let second :=
    SalesAgentSchema.Fields (Some "Chloe") (Some "cleo@example.com") in
  let cleo := SalesAgentSchema.Doc 3 first in
  let st1 :=
    {| leads := leads crm; salesagents := [asha; bram; cleo];
       comments := [] |} in
  (exists msg,
     createSalesAgent second st1 = (Throw (Err msg), st1)
     /\ (blank_text (SalesAgentSchema.name second) ->
           msg = "Name and email are required")
     /\ (~ blank_text (SalesAgentSchema.name second) ->
           msg = "Sales agent with this email already exists"))
  /\ In cleo (salesagents st1)
  /\ (exists listed,
        readAllSalesAgents st1 = (Ok listed, st1) /\ In cleo listed)
  /\ SalesAgent.findById (Some (SalesAgentSchema._id cleo)) st1
     = (Ok (Some cleo), st1)
  /\ (forall (st0 : Store) (data : SalesAgentSchema.fields),
        unique_emails st0 -> unique_emails (snd (createSalesAgent data st0))).
Proof.
  intros first second cleo st1.
  apply (createSalesAgent_same_email crm st1 first second cleo);
    reflexivity.
Defined.

(** ** Listing leads *)

Lemma filters_met_typed (q : LeadParams.t) (d : LeadSchema.doc) :
  meets (lead_params_of q) d <-> filters_met q d.
Proof.
  unfold meets, filters_met, lead_params_of.
  cbn [qp_salesAgent qp_status qp_source].
  split; intros (A & B & C); (split; [|split]); try assumption.
  - intros i E. apply A. now rewrite E.
  - intros i E. apply A.
    destruct (LeadParams.salesAgent q) as [[j|text]|]; cbn in E;
      now inversion E.
Qed.

(** C5, as stated, fails twice.  A key supplied with the empty text, as in
    [?status=], puts no filter: [readAllLeads] returns the three leads of the
    store although none of them has the empty status.  And a [salesAgent]
    that is not the text of an identifier does not give the empty list: the
    call throws. *)
Lemma readAllLeads_filters_counterexample :
  let blank := LeadParams.Params None (Some "") None in
  let other := LeadParams.Params (Some (NotAnId "agent-two")) None None in
  (LeadParams.status blank = Some ""
   /\ (forall d, In d (leads crm) -> ~ filters_of_every_key_met blank d)
   /\ readAllLeads_req sampleCastError blank crm
      = (Ok (map (Lead.populated (salesagents crm)) [acme; birch; cedar]),
         crm))
  /\ ((forall d, In d (leads crm) -> ~ filters_of_every_key_met other d)
      /\ readAllLeads_req sampleCastError other crm
         = (Throw (sampleCastError "Lead" "salesAgent" "agent-two"), crm)).
Proof.
  cbv zeta. split; [split; [reflexivity | split; [|reflexivity]]
                   | split; [|reflexivity]].
  - intros d [<-|[<-|[<-|[]]]] (_ & S & _);
      specialize (S "" eq_refl); discriminate S.
  - intros d _ (A & _). destruct (A _ eq_refl) as (i & E & _).
    discriminate E.
Qed.

(** C5, amended.  In every store, for every choice of the parameters
    [salesAgent], [status] and [source] in which [salesAgent], when it has a
    value other than the empty text, is the text of an identifier,
    [readAllLeads] returns the leads of the collection that meet the
    equality of every parameter that has a value other than the empty text
    (a key that is absent, or present with the empty text, puts no filter):
    all of them and only them, in the order of the collection, each shown
    with its identifier, its six plain fields and its [salesAgent] resolved
    to an agent of the store with that identifier ([null] when there is
    none).  With no parameter these are all the leads; with [status=Closed]
    alone, exactly the leads whose status is "Closed".  The store is left as
    it was.  A [salesAgent] that is a text other than an identifier, and not
    empty, makes the call throw the driver's error instead. *)
Theorem readAllLeads_filters
  (castError : string -> string -> string -> Error) (st : Store)
  (q : LeadParams.t) :
  (params_well_formed q ->
   exists (keep : LeadSchema.doc -> bool) (rs : list PopulatedLead.doc),
     (forall d, keep d = true <-> filters_met q d)
     /\ readAllLeads_req castError q st = (Ok rs, st)
     /\ Forall2 (lead_shown st) (filter keep (leads st)) rs)
  /\ (forall text,
        LeadParams.salesAgent q = Some (NotAnId text) -> text <> "" ->
        readAllLeads_req castError q st
        = (Throw (castError "Lead" "salesAgent" text), st))
  /\ (exists rs,
        readAllLeads_req castError (LeadParams.Params None None None) st
        = (Ok rs, st)
        /\ Forall2 (lead_shown st) (leads st) rs)
  /\ (exists rs,
        readAllLeads_req castError
          (LeadParams.Params None (Some "Closed") None) st
        = (Ok rs, st)
        /\ Forall2 (lead_shown st) (filter is_closed (leads st)) rs)
  /\ (forall d, is_closed d = true <->
                LeadSchema.status (LeadSchema.data d) = Some "Closed").
Proof.
  split; [|split; [|split; [|split]]].
  - intros WF.
    exists (LeadQuery.matches (query_of (lead_params_of q))).
    eexists. split.
    { intros d. rewrite matches_query_of. apply filters_met_typed. }
    split.
    + rewrite readAllLeads_req_cases.
      destruct (LeadParams.salesAgent q) as [[i|text]|] eqn:E;
        try apply readAllLeads_eq.
      rewrite (WF text E). apply readAllLeads_eq.
    + apply Forall2_map_shown. apply populated_lead_shown.
  - intros text E N. rewrite readAllLeads_req_cases, E.
    assert (T : truthy text = true).
    { change (truthy text) with (truthy (Some text)).
      apply truthy_text. now exists text. }
    now rewrite T.
  - eexists. split; [reflexivity|].
    replace (leads st) with (filter (fun _ => true) (leads st)) at 1.
    + apply Forall2_map_shown. apply populated_lead_shown.
    + apply forallb_filter_id, forallb_forall. reflexivity.
  - eexists. split; [reflexivity|].
    replace (filter is_closed (leads st))
      with (filter (LeadQuery.matches
                      (query_of {| qp_salesAgent := None;
                                   qp_status := Some "Closed";
                                   qp_source := None |})) (leads st)).
    + apply Forall2_map_shown. apply populated_lead_shown.
    + apply filter_ext. intros d.
      unfold LeadQuery.matches, is_closed; cbn.
      destruct (LeadSchema.status (LeadSchema.data d));
        cbn; now rewrite ?andb_true_r.
  - apply is_closed_spec.
Qed.

Lemma readAllLeads_filters_witness :
  let q := LeadParams.Params (Some (IdOf 1)) (Some "Closed") (Some "") in
  exists (keep : LeadSchema.doc -> bool) (rs : list PopulatedLead.doc),
    (forall d, keep d = true <-> filters_met q d)
    /\ readAllLeads_req sampleCastError q crm = (Ok rs, crm)
    /\ Forall2 (lead_shown crm) (filter keep (leads crm)) rs.
Proof.
  intros q. apply (proj1 (readAllLeads_filters sampleCastError crm q)).
  intros text E. discriminate E.
Defined.

(** ** Reports *)

(** C6.  In every store [readPipelineReport] returns one count, the number of
    leads whose status is not "Closed" (so that it and the number of Closed
    leads make up the whole collection); it leaves the store as it was, and
    a second call right after the first returns the same count. *)
Theorem readPipelineReport_counts (st : Store) :
  readPipelineReport st
  = (Ok {| totalLeadsInPipeline :=
             length (filter (fun d => negb (is_closed d)) (leads st)) |}, st)
  /\ (forall d, negb (is_closed d) = true <->
                LeadSchema.status (LeadSchema.data d) <> Some "Closed")
  /\ length (filter (fun d => negb (is_closed d)) (leads st))
     + length (filter is_closed (leads st)) = length (leads st)
  /\ readPipelineReport (snd (readPipelineReport st)) = readPipelineReport st.
Proof.
  rewrite readPipelineReport_eq. repeat apply conj.
  - reflexivity.
  - intros d. rewrite negb_true_iff, <- is_closed_spec.
    destruct (is_closed d); split; congruence.
  - induction (leads st) as [|d l IH]; cbn; [reflexivity|].
    destruct (is_closed d); cbn; lia.
  - cbn [snd]. apply readPipelineReport_eq.
Qed.

(** C7.  In every store (identifiers of agents being unique, as the database
    keeps them) the report of [readClosedLeadsByAgent] has one entry for each
    agent with at least one Closed lead and no other entry: there is a list
    without repetition of exactly the identifiers of those agents such that
    the entries are, one for one, the name of the agent with the number of
    its Closed leads.  So an agent without a Closed lead has no entry, and
    every count is at least 1. *)
Theorem readClosedLeadsByAgent_counts (st : Store) :
  unique_agent_ids st ->
  exists (ids : list ObjectId) (report : list Aggregate.projected),
    readClosedLeadsByAgent st = (Ok report, st)
    /\ NoDup ids
    /\ (forall i, In i ids <-> agent_exists st i /\ 1 <= closed_count st i)
    /\ Forall2 (entry_for (salesagents st) (closed_count st)) ids report
    /\ Forall (fun e => 1 <= Aggregate.count e) report.
Proof.
  intros UA.
  set (closed := Aggregate.match_status "Closed" (leads st)).
  set (gs := Aggregate.group_by_salesAgent closed).
  destruct (report_shape (salesagents st) (closed_count st) gs UA
              (group_keys_NoDup closed)) as (ids & U & Mem & Shape).
  { intros g i I K. rewrite closed_count_eq, <- K. now apply group_counts. }
  assert (Mem' : forall i, In i ids <->
                           agent_exists st i /\ 1 <= closed_count st i).
  { intros i. rewrite Mem. unfold gs. rewrite group_keys.
    rewrite closed_count_eq, filter_length_pos, in_map_iff.
    fold closed. unfold agent_exists.
    split.
    - intros [(d & H1 & H2) Known]. split; [exact Known|].
      exists d. split; [exact H2 | now apply option_eqb_nat_spec].
    - intros [Known (d & H1 & H2)]. split; [|exact Known].
      exists d. split; [now apply option_eqb_nat_spec | exact H1]. }
  exists ids, (entries (salesagents st) gs).
  split; [reflexivity|]. split; [exact U|]. split; [exact Mem'|].
  split; [exact Shape|].
  assert (Pos : forall i, In i ids -> 1 <= closed_count st i)
    by (intros i I; now apply Mem').
  clear - Shape Pos.
  induction Shape as [|i e ids es (a & _ & _ & ->) _ IH]; constructor.
  - cbn. apply Pos. now left.
  - apply IH. intros j I. apply Pos. now right.
Qed.

Lemma readClosedLeadsByAgent_counts_witness :
  unique_agent_ids crm
  /\ exists (ids : list ObjectId) (report : list Aggregate.projected),
       readClosedLeadsByAgent crm = (Ok report, crm)
       /\ NoDup ids
       /\ (forall i, In i ids <-> agent_exists crm i /\ 1 <= closed_count crm i)
       /\ Forall2 (entry_for (salesagents crm) (closed_count crm)) ids report
       /\ Forall (fun e => 1 <= Aggregate.count e) report.
Proof.
  assert (U : unique_agent_ids crm).
  { unfold unique_agent_ids. cbn. repeat constructor; cbn; intuition lia. }
  split; [exact U | apply (readClosedLeadsByAgent_counts crm U)].
Defined.

(** ** The operations on the example store *)

Example readClosedLeadsByAgent_crm :
  fst (readClosedLeadsByAgent crm)
  = Ok [Aggregate.Projected (Some "Asha") 2].
Proof. reflexivity. Qed.

Example readPipelineReport_crm :
  fst (readPipelineReport crm) = Ok {| totalLeadsInPipeline := 1 |}.
Proof. reflexivity. Qed.

Example readAllLeads_closed_crm :
  fst (readAllLeads_req sampleCastError
         (LeadParams.Params None (Some "Closed") None) crm)
  = Ok [Lead.populated [asha; bram] acme; Lead.populated [asha; bram] cedar].
Proof. reflexivity. Qed.

Example readAllLeads_not_an_id_crm :
  fst (readAllLeads_req sampleCastError
         (LeadParams.Params (Some (NotAnId "abc")) None None) crm)
  = Throw (sampleCastError "Lead" "salesAgent" "abc").
Proof. reflexivity. Qed.

Example post_leads_id_absent_crm :
  post_leads_id sampleCastError (IdOf 9)
    (lead_body (lead_fields "Dune" "Website" 2 "New" 4 "High" ["trial"])) crm
  = ({| res_status := 404; res_json := JError "Lead not found" |}, crm).
Proof. reflexivity. Qed.

(** * Further properties of the operations *)

(** ** Collections: replacing and removing a document *)

Section Replace.
Variable D : Type.
Variable id_of : D -> ObjectId.

Lemma update_in_ids (i : ObjectId) (f : D -> D) (docs : list D) :
  (forall d, id_of (f d) = id_of d) ->
  map id_of (update_in id_of i f docs) = map id_of docs.
Proof.
  intros Keep. induction docs as [|d docs IH]; cbn; [reflexivity|].
  destruct (id_of d =? i)%nat; cbn; [now rewrite Keep | now rewrite IH].
Qed.

Lemma update_in_In (i : ObjectId) (f : D -> D) (docs : list D) (x : D) :
  In x (update_in id_of i f docs) ->
  In x docs \/ exists d, In d docs /\ id_of d = i /\ x = f d.
Proof.
  induction docs as [|d docs IH]; cbn; [tauto|].
  destruct (Nat.eqb_spec (id_of d) i) as [E|N]; cbn.
  - intros [<-|I]; [right; exists d; auto | auto].
  - intros [<-|I]; [auto|].
    destruct (IH I) as [I'|(d' & I' & E' & ->)]; [auto|].
    right. exists d'. auto.
Qed.

Lemma findById_update_in (i j : ObjectId) (f : D -> D) (docs : list D) :
  (forall d, id_of (f d) = id_of d) ->
  findById_in id_of (update_in id_of i f docs) (Some j) =
  if (j =? i)%nat
  then option_map f (findById_in id_of docs (Some j))
  else findById_in id_of docs (Some j).
Proof.
  intros Keep. cbn. induction docs as [|d docs IH]; cbn.
  - now destruct (j =? i)%nat.
  - destruct (Nat.eqb_spec (id_of d) i) as [E|N]; cbn.
    + rewrite Keep, E. destruct (Nat.eqb_spec j i) as [->|N'].
      * now rewrite Nat.eqb_refl.
      * destruct (Nat.eqb_spec i j); [congruence | reflexivity].
    + destruct (Nat.eqb_spec (id_of d) j) as [E'|N'].
      * destruct (Nat.eqb_spec j i); [congruence | reflexivity].
      * exact IH.
Qed.

Lemma update_in_twice (i : ObjectId) (x : D) (docs : list D) :
  id_of x = i ->
  update_in id_of i (fun _ => x) (update_in id_of i (fun _ => x) docs)
  = update_in id_of i (fun _ => x) docs.
Proof.
  intros Ex. induction docs as [|d docs IH]; cbn; [reflexivity|].
  destruct (Nat.eqb_spec (id_of d) i) as [E|N]; cbn.
  - now rewrite Ex, Nat.eqb_refl.
  - destruct (Nat.eqb_spec (id_of d) i); [contradiction | now rewrite IH].
Qed.

Lemma delete_in_In (i : ObjectId) (docs : list D) (x : D) :
  In x (delete_in id_of i docs) -> In x docs.
Proof.
  induction docs as [|d docs IH]; cbn; [tauto|].
  destruct (id_of d =? i)%nat; cbn; intuition.
Qed.

Lemma delete_in_NoDup (i : ObjectId) (docs : list D) :
  NoDup (map id_of docs) -> NoDup (map id_of (delete_in id_of i docs)).
Proof.
  induction docs as [|d docs IH]; cbn; intros U; [exact U|].
  inversion U as [|x l Out U']; subst.
  destruct (id_of d =? i)%nat; cbn; [exact U'|].
  constructor; [|now apply IH].
  intros I. apply Out. apply in_map_iff in I as (y & E & I).
  apply in_map_iff. exists y. split; [exact E | now apply delete_in_In in I].
Qed.

Lemma delete_in_gone (i : ObjectId) (docs : list D) :
  NoDup (map id_of docs) -> ~ identifies id_of (delete_in id_of i docs) i.
Proof.
  induction docs as [|d docs IH]; cbn; intros U.
  - intros (x & [] & _).
  - inversion U as [|x l Out U']; subst.
    destruct (Nat.eqb_spec (id_of d) i) as [E|N].
    + intros (y & I & E'). apply Out. rewrite E, <- E'. now apply in_map.
    + intros (y & [<-|I] & E'); [contradiction|].
      apply (IH U'). now exists y.
Qed.

Lemma findById_delete_in (i j : ObjectId) (docs : list D) :
  j <> i ->
  findById_in id_of (delete_in id_of i docs) (Some j)
  = findById_in id_of docs (Some j).
Proof.
  intros N. cbn. induction docs as [|d docs IH]; cbn; [reflexivity|].
  destruct (Nat.eqb_spec (id_of d) i) as [E|N'].
  - destruct (Nat.eqb_spec (id_of d) j); [congruence | reflexivity].
  - cbn. destruct (id_of d =? j)%nat; [reflexivity | exact IH].
Qed.

Lemma delete_in_length (i : ObjectId) (docs : list D) :
  identifies id_of docs i ->
  S (length (delete_in id_of i docs)) = length docs.
Proof.
  induction docs as [|d docs IH]; cbn.
  - intros (x & [] & _).
  - intros (x & I & E).
    destruct (Nat.eqb_spec (id_of d) i) as [E'|N]; [reflexivity|].
    cbn. f_equal. apply IH. destruct I as [<-|I]; [contradiction|].
    now exists x.
Qed.

Lemma delete_in_absent (i : ObjectId) (docs : list D) :
  ~ identifies id_of docs i -> delete_in id_of i docs = docs.
Proof.
  induction docs as [|d docs IH]; cbn; intros A; [reflexivity|].
  destruct (Nat.eqb_spec (id_of d) i) as [E|N].
  - exfalso. apply A. exists d. split; [now left | assumption].
  - f_equal. apply IH. intros (x & I & E). apply A.
    exists x. split; [now right | assumption].
Qed.

Lemma delete_in_snoc (i : ObjectId) (docs : list D) (x : D) :
  id_of x = i -> ~ identifies id_of docs i ->
  delete_in id_of i (docs ++ [x]) = docs.
Proof.
  intros Ex. induction docs as [|d docs IH]; cbn; intros A.
  - now rewrite Ex, Nat.eqb_refl.
  - destruct (Nat.eqb_spec (id_of d) i) as [E|N].
    + exfalso. apply A. exists d. split; [now left | assumption].
    + f_equal. apply IH. intros (y & I & E). apply A.
      exists y. split; [now right | assumption].
Qed.

Lemma snoc_fresh_NoDup (docs : list D) (x : D) :
  id_of x = freshId (map id_of docs) ->
  NoDup (map id_of docs) -> NoDup (map id_of (docs ++ [x])).
Proof.
  intros Ex U. rewrite map_app. cbn. apply NoDup_app.
  - exact U.
  - constructor; [intros [] | constructor].
  - intros i I [E|[]]. subst i.
    apply in_map_iff in I as (d & E & I).
    apply (freshId_fresh _ id_of docs). exists d. split; [exact I|].
    congruence.
Qed.
End Replace.

(** ** The remaining operations, case by case *)

Lemma deleteLeadById_eq (leadId : ObjectId) (st : Store) :
  deleteLeadById leadId st =
  match findById_in LeadSchema._id (leads st) (Some leadId) with
  | Some d =>
      (Ok (Some d), with_leads (delete_in LeadSchema._id (LeadSchema._id d)) st)
  | None => (Ok None, st)
  end.
Proof.
  unfold deleteLeadById, try_catch, Lead.findByIdAndDelete, Lead.findById,
    bind, gets, modify, ret.
  destruct (findById_in LeadSchema._id (leads st) (Some leadId)); reflexivity.
Qed.

Lemma readLeadById_eq (leadId : ObjectId) (st : Store) :
  readLeadById leadId st =
  (Ok (option_map (Lead.populated (salesagents st))
         (findById_in LeadSchema._id (leads st) (Some leadId))), st).
Proof. reflexivity. Qed.

Lemma readCommentsByLeadId_eq (leadId : ObjectId) (st : Store) :
  readCommentsByLeadId leadId st =
  (Ok (map (CommentQuery.populated (salesagents st))
         (filter (comment_of leadId) (comments st))), st).
Proof. reflexivity. Qed.

Lemma lead_references (data : LeadSchema.fields) :
  lead_fields_truthy data = true ->
  exists i, LeadSchema.salesAgent data = Some i.
Proof. intros T. now apply lead_fields_truthy_iff in T. Qed.


Lemma agent_known_dec (st : Store) (i : ObjectId) :
  (exists a, findById_in SalesAgentSchema._id (salesagents st) (Some i)
             = Some a /\ In a (salesagents st) /\ SalesAgentSchema._id a = i)
  \/ (findById_in SalesAgentSchema._id (salesagents st) (Some i) = None
      /\ ~ agent_exists st i).
Proof.
  destruct (findById_in SalesAgentSchema._id (salesagents st) (Some i))
    as [a|] eqn:F.
  - left. exists a. split; [reflexivity|]. now apply findById_in_Some in F.
  - right. split; [reflexivity|]. now apply findById_in_None in F.
Qed.

Lemma lead_known_dec (st : Store) (i : ObjectId) :
  (exists d, findById_in LeadSchema._id (leads st) (Some i) = Some d
             /\ In d (leads st) /\ LeadSchema._id d = i)
  \/ (findById_in LeadSchema._id (leads st) (Some i) = None
      /\ ~ lead_exists st i).
Proof.
  destruct (findById_in LeadSchema._id (leads st) (Some i)) as [d|] eqn:F.
  - left. exists d. split; [reflexivity|]. now apply findById_in_Some in F.
  - right. split; [reflexivity|]. now apply findById_in_None in F.
Qed.

(** ** Failures *)

(** On requests whose identifiers are well-formed, a write that throws has
    changed nothing, and its message is one of the messages of its own
    checks. *)
Lemma failed_write_well_formed (st st' : Store) (e : Error)
  (leadId : ObjectId) (lead : LeadSchema.fields)
  (agent : SalesAgentSchema.fields) (comment : CommentData) :
  (createLead lead st = (Throw e, st') ->
     st' = st
     /\ (message e = "All fields are required"
         \/ message e = "Sales agent not found"))
  /\ (updateLeadById leadId lead st = (Throw e, st') ->
        st' = st
        /\ (message e = "All fields are required"
            \/ message e = "Sales agent not found"))
  /\ (createSalesAgent agent st = (Throw e, st') ->
        st' = st
        /\ (message e = "Name and email are required"
            \/ message e = "Sales agent with this email already exists"))
  /\ (createComment leadId comment st = (Throw e, st') ->
        st' = st
        /\ (message e = "Comment text and author are required"
            \/ message e = "Lead not found"
            \/ message e = "Author not found")).
Proof.
  repeat apply conj.
  - rewrite createLead_eq.
    destruct (lead_fields_truthy lead);
      [destruct (findById_in _ _ _)|]; cbv zeta; intros E; inversion E;
      cbn; auto.
  - rewrite updateLeadById_eq.
    destruct (lead_fields_truthy lead);
      [destruct (findById_in _ (salesagents st) _);
       [destruct (findById_in _ (leads st) _)|]|];
      cbv zeta; intros E; inversion E; cbn; auto.
  - rewrite createSalesAgent_eq.
    destruct (_ && _); [destruct (find _ _)|]; cbv zeta; intros E;
      inversion E; cbn; auto.
  - rewrite createComment_eq.
    destruct (_ && _);
      [destruct (findById_in _ (leads st) _);
       [destruct (findById_in _ (salesagents st) _)|]|];
      cbv zeta; intros E; inversion E; cbn; auto.
Qed.

(** ** The outcomes of the writes *)



Lemma agent_blank_dec (data : SalesAgentSchema.fields) :
  agent_field_blank data
  /\ truthy (SalesAgentSchema.name data)
     && truthy (SalesAgentSchema.email data) = false
  \/ ~ agent_field_blank data
     /\ truthy (SalesAgentSchema.name data)
        && truthy (SalesAgentSchema.email data) = true.
Proof.
  destruct (truthy (SalesAgentSchema.name data)
            && truthy (SalesAgentSchema.email data)) eqn:T.
  - right. split; [|reflexivity]. rewrite agent_field_blank_iff. congruence.
  - left. split; [|reflexivity]. now apply agent_field_blank_iff.
Qed.

Lemma comment_blank_dec (data : CommentData) :
  comment_field_blank data
  /\ truthy (cd_commentText data) && truthy (cd_author data) = false
  \/ ~ comment_field_blank data
     /\ truthy (cd_commentText data) && truthy (cd_author data) = true.
Proof.
  destruct (truthy (cd_commentText data) && truthy (cd_author data)) eqn:T.
  - right. split; [|reflexivity]. rewrite comment_field_blank_iff. congruence.
  - left. split; [|reflexivity]. now apply comment_field_blank_iff.
Qed.

(** X4.  [POST /agents] answers in exactly one of three ways: 400 "Name and
    email are required" when the name or the email is blank; 400 "Sales agent
    with this email already exists" when neither is blank and an agent has
    the email; 201 with the new agent otherwise, the agent being appended
    under an identifier that was not in use.  A 400 leaves the store as it
    was. *)
Theorem post_agents_table (body : SalesAgentSchema.fields) (st : Store) :
  (agent_field_blank body
   /\ post_agents body st
      = (reply 400 (PError "Name and email are required"), st))
  \/ (~ agent_field_blank body
      /\ (exists a, In a (salesagents st)
                    /\ SalesAgentSchema.email (SalesAgentSchema.data a)
                       = SalesAgentSchema.email body)
      /\ post_agents body st
         = (reply 400 (PError "Sales agent with this email already exists"),
            st))
  \/ (~ agent_field_blank body
      /\ (forall a, In a (salesagents st) ->
                    SalesAgentSchema.email (SalesAgentSchema.data a)
                    <> SalesAgentSchema.email body)
      /\ exists i,
           post_agents body st
           = (reply 201 (PAgent (SalesAgentSchema.Doc i body)),
              with_salesagents
                (fun docs => docs ++ [SalesAgentSchema.Doc i body]) st)
           /\ ~ agent_exists st i).
Proof.
  unfold post_agents. rewrite createSalesAgent_eq.
  destruct (agent_blank_dec body) as [[B T]|[B T]]; rewrite T.
  - left. now split.
  - right.
    destruct (find (email_is (SalesAgentSchema.email body)) (salesagents st))
      as [a|] eqn:F.
    + left. split; [exact B|]. split; [|reflexivity].
      apply find_some in F as [I E]. exists a. split; [exact I|].
      now apply option_eqb_string_spec.
    + right. split; [exact B|]. split.
      * intros a I E. apply (find_none _ _ F) in I. unfold email_is in I.
        apply option_eqb_string_spec in E. congruence.
      * eexists. split; [reflexivity|]. apply freshId_fresh.
Qed.

(** The four outcomes of [createComment]. *)
Lemma createComment_table (id : ObjectId) (body : CommentData)
  (st : Store) :
  (comment_field_blank body
   /\ createComment id body st
      = (Throw (Err "Comment text and author are required"), st))
  \/ (~ comment_field_blank body
      /\ ~ lead_exists st id
      /\ createComment id body st = (Throw (Err "Lead not found"), st))
  \/ (~ comment_field_blank body
      /\ lead_exists st id
      /\ (exists i, cd_author body = Some i /\ ~ agent_exists st i)
      /\ createComment id body st = (Throw (Err "Author not found"), st))
  \/ (~ comment_field_blank body
      /\ lead_exists st id
      /\ (exists i, cd_author body = Some i /\ agent_exists st i)
      /\ exists c,
           createComment id body st
           = (Ok c,
              with_comments (fun docs => docs ++ [c]) st)
           /\ CommentSchema.data c
              = CommentSchema.Fields (Some id) (cd_commentText body)
                  (cd_author body)
           /\ ~ identifies CommentSchema._id (comments st)
                  (CommentSchema._id c)).
Proof.
  rewrite createComment_eq.
  destruct (comment_blank_dec body) as [[B T]|[B T]]; rewrite T.
  - left. now split.
  - right.
    destruct (lead_known_dec st id) as [(d & G & Id & Ed)|[G Absent]];
      rewrite G.
    + right. assert (Lx : lead_exists st id) by now exists d.
      apply andb_true_iff in T as [_ Ta].
      apply truthy_reference in Ta as [i Ref].
      destruct (agent_known_dec st i) as [(a & F & Ia & Ea)|[F Unknown]].
      * right. split; [exact B|]. split; [exact Lx|]. split.
        { exists i. split; [exact Ref|]. now exists a. }
        rewrite Ref, F. eexists. split; [reflexivity|].
        split; [reflexivity | apply freshId_fresh].
      * left. split; [exact B|]. split; [exact Lx|]. split.
        { exists i. now split. }
        now rewrite Ref, F.
    + left. now repeat split.
Qed.

(** ** Creating, replacing and deleting leads *)

Lemma store_eta (st : Store) :
  {| leads := leads st; salesagents := salesagents st;
     comments := comments st |} = st.
Proof. now destruct st. Qed.

(** What a successful [createLead] did. *)
Lemma createLead_Ok (data : LeadSchema.fields) (st st' : Store)
  (r : option PopulatedLead.doc) :
  createLead data st = (Ok r, st') ->
  let lead := LeadSchema.Doc (freshId (map LeadSchema._id (leads st))) data in
  lead_fields_truthy data = true
  /\ (exists a, findById_in SalesAgentSchema._id (salesagents st)
                  (LeadSchema.salesAgent data) = Some a)
  /\ st' = with_leads (fun docs => docs ++ [lead]) st
  /\ r = Some (Lead.populated (salesagents st) lead).
Proof.
  rewrite createLead_eq. intros H lead.
  destruct (lead_fields_truthy data); [|discriminate].
  destruct (findById_in SalesAgentSchema._id (salesagents st)
              (LeadSchema.salesAgent data)) as [a|]; [|discriminate].
  cbv zeta in H. cbn [with_leads leads salesagents] in H.
  rewrite (findById_in_saved _ LeadSchema._id (leads st)
             (fun j => LeadSchema.Doc j data) (fun j => eq_refl)) in H.
  inversion H. repeat split. now exists a.
Qed.

(** X6.  After a successful [createLead] the pipeline report counts one lead
    more when the status of the new lead is not "Closed", and the same number
    when it is "Closed". *)
Theorem createLead_pipeline (data : LeadSchema.fields) (st st' : Store)
  (r : option PopulatedLead.doc) :
  createLead data st = (Ok r, st') ->
  exists n,
    readPipelineReport st = (Ok {| totalLeadsInPipeline := n |}, st)
    /\ (LeadSchema.status data = Some "Closed" ->
          readPipelineReport st'
          = (Ok {| totalLeadsInPipeline := n |}, st'))
    /\ (LeadSchema.status data <> Some "Closed" ->
          readPipelineReport st'
          = (Ok {| totalLeadsInPipeline := S n |}, st')).
Proof.
  intros H. apply createLead_Ok in H as (_ & _ & -> & _).
  exists (in_pipeline st). rewrite !readPipelineReport_eq.
  split; [reflexivity|].
  cbn [with_leads leads]. rewrite filter_app, length_app. cbn [filter].
  set (lead := LeadSchema.Doc _ data).
  assert (C : is_closed lead = true <-> LeadSchema.status data = Some "Closed")
    by apply is_closed_spec.
  unfold in_pipeline.
  split; intros S; do 3 f_equal.
  - apply C in S. rewrite S. cbn. lia.
  - destruct (is_closed lead); [exfalso; apply S; now apply C | cbn; lia].
Qed.

Lemma createLead_pipeline_witness :
  let data := lead_fields "Dune" "Website" 2 "New" 4 "High" ["trial"] in
  exists n,
    readPipelineReport crm = (Ok {| totalLeadsInPipeline := n |}, crm)
    /\ (LeadSchema.status data = Some "Closed" ->
          readPipelineReport (snd (createLead data crm))
          = (Ok {| totalLeadsInPipeline := n |}, snd (createLead data crm)))
    /\ (LeadSchema.status data <> Some "Closed" ->
          readPipelineReport (snd (createLead data crm))
          = (Ok {| totalLeadsInPipeline := S n |},
             snd (createLead data crm))).
Proof.
  intros data.
  apply (createLead_pipeline data crm (snd (createLead data crm))
           (Some (Lead.populated (salesagents crm)
                    (LeadSchema.Doc 4 data)))).
  reflexivity.
Defined.

Lemma update_in_again {D : Type} (id_of : D -> ObjectId) (i : ObjectId)
  (f : D -> D) (docs : list D) :
  (forall d, id_of (f d) = id_of d) -> (forall d, f (f d) = f d) ->
  update_in id_of i f (update_in id_of i f docs) = update_in id_of i f docs.
Proof.
  intros Keep Idem. induction docs as [|d docs IH]; cbn; [reflexivity|].
  destruct (Nat.eqb_spec (id_of d) i) as [E|N]; cbn.
  - rewrite Keep. destruct (Nat.eqb_spec (id_of d) i); [|contradiction].
    now rewrite Idem.
  - destruct (Nat.eqb_spec (id_of d) i); [contradiction | now rewrite IH].
Qed.

(** X7.  Replacing a lead is idempotent: the same call made again right
    after, on the store the first call left, gives the same answer and
    leaves that store as it is. *)
Theorem updateLeadById_idempotent (leadId : ObjectId)
  (data : LeadSchema.fields) (st : Store) :
  updateLeadById leadId data (snd (updateLeadById leadId data st))
  = (fst (updateLeadById leadId data st),
     snd (updateLeadById leadId data st)).
Proof.
  rewrite (updateLeadById_eq leadId data st).
  destruct (lead_fields_truthy data) eqn:T;
    [|cbn [fst snd]; now rewrite updateLeadById_eq, T].
  destruct (findById_in SalesAgentSchema._id (salesagents st)
              (LeadSchema.salesAgent data)) as [a|] eqn:F;
    [|cbn [fst snd]; now rewrite updateLeadById_eq, T, F].
  destruct (findById_in LeadSchema._id (leads st) (Some leadId)) as [d|] eqn:G;
    [|cbn [fst snd]; now rewrite updateLeadById_eq, T, F, G].
  cbv zeta. cbn [fst snd]. rewrite updateLeadById_eq, T.
  cbn [with_leads leads salesagents comments]. rewrite F.
  apply findById_in_Some in G as G'. destruct G' as [_ Ed].
  set (f := fun d0 : LeadSchema.doc => LeadSchema.Doc (LeadSchema._id d0) data).
  rewrite (findById_update_in _ LeadSchema._id (LeadSchema._id d) leadId f
             (leads st) (fun _ => eq_refl)).
  rewrite Ed, Nat.eqb_refl, G. cbn [option_map]. cbv zeta.
  cbn [with_leads leads salesagents comments LeadSchema._id f].
  rewrite Ed.
  f_equal. unfold with_leads. cbn [leads salesagents comments].
  now rewrite (update_in_again LeadSchema._id leadId f (leads st)
                 (fun _ => eq_refl) (fun _ => eq_refl)).
Qed.



(** The two outcomes of [deleteLeadById]. *)
Lemma deleteLeadById_table (id : ObjectId) (st : Store) :
  (~ lead_exists st id
   /\ deleteLeadById id st = (Ok None, st))
  \/ (lead_exists st id
      /\ exists d st',
           deleteLeadById id st = (Ok (Some d), st')
           /\ In d (leads st) /\ LeadSchema._id d = id
           /\ S (length (leads st')) = length (leads st)
           /\ salesagents st' = salesagents st
           /\ comments st' = comments st
           /\ (forall j, j <> id ->
                 fst (readLeadById j st') = fst (readLeadById j st))
           /\ (unique_lead_ids st ->
                 ~ lead_exists st' id
                 /\ deleteLeadById id st' = (Ok None, st'))).
Proof.
  rewrite deleteLeadById_eq.
  destruct (lead_known_dec st id) as [(d & G & Id & Ed)|[G Absent]];
    rewrite G.
  - right. assert (Present : lead_exists st id) by now exists d.
    split; [exact Present|]. exists d. eexists. split; [reflexivity|].
    do 2 (split; [assumption|]).
    rewrite Ed. cbn [with_leads leads salesagents comments].
    split; [now apply delete_in_length|]. do 2 (split; [reflexivity|]).
    split.
    + intros j N. rewrite !readLeadById_eq.
      cbn [fst with_leads leads salesagents].
      now rewrite (findById_delete_in _ LeadSchema._id id j (leads st) N).
    + intros U.
      assert (Gone : ~ identifies LeadSchema._id
                       (delete_in LeadSchema._id id (leads st)) id)
        by now apply delete_in_gone.
      split; [exact Gone|].
      rewrite deleteLeadById_eq.
      cbn [with_leads leads]. apply findById_in_None in Gone.
      now rewrite Gone.
  - left. now split.
Qed.

(** X10.  Creating a lead and then deleting the identifier it was given
    brings the store back to what it was before the creation; the deletion
    returns the lead as it was stored. *)
Theorem createLead_then_delete (data : LeadSchema.fields) (st st' : Store)
  (r : PopulatedLead.doc) :
  createLead data st = (Ok (Some r), st') ->
  deleteLeadById (PopulatedLead._id r) st'
  = (Ok (Some (LeadSchema.Doc (PopulatedLead._id r) data)), st).
Proof.
  intros H. apply createLead_Ok in H as (_ & _ & -> & E).
  inversion E; subst r; clear E.
  set (lead := LeadSchema.Doc (freshId (map LeadSchema._id (leads st))) data).
  assert (Saved : findById_in LeadSchema._id (leads st ++ [lead])
                    (Some (LeadSchema._id lead)) = Some lead).
  { apply (findById_in_saved _ LeadSchema._id (leads st)
             (fun j => LeadSchema.Doc j data)). reflexivity. }
  rewrite deleteLeadById_eq.
  cbn [with_leads leads Lead.populated PopulatedLead._id].
  rewrite Saved. f_equal.
  unfold with_leads. cbn [leads salesagents comments].
  rewrite (delete_in_snoc _ LeadSchema._id (LeadSchema._id lead) (leads st)
             lead eq_refl (freshId_fresh _ _ _)).
  apply store_eta.
Qed.

Lemma createLead_then_delete_witness :
  let data := lead_fields "Dune" "Website" 2 "New" 4 "High" ["trial"] in
  let r := Lead.populated (salesagents crm) (LeadSchema.Doc 4 data) in
  deleteLeadById (PopulatedLead._id r) (snd (createLead data crm))
  = (Ok (Some (LeadSchema.Doc (PopulatedLead._id r) data)), crm).
Proof.
  intros data r.
  apply (createLead_then_delete data crm (snd (createLead data crm)) r).
  reflexivity.
Defined.

(** ** Comments *)

Lemma comment_of_spec (leadId : ObjectId) (c : CommentSchema.doc) :
  comment_of leadId c = true <->
  CommentSchema.lead (CommentSchema.data c) = Some leadId.
Proof. apply option_eqb_nat_spec. Qed.

(** X11.  Deleting a lead does not cascade: the comments of the store stay as
    they are, and the comments of the deleted lead are still listed under its
    identifier. *)
Theorem deleteLeadById_keeps_comments (leadId : ObjectId) (st : Store) :
  comments (snd (deleteLeadById leadId st)) = comments st
  /\ salesagents (snd (deleteLeadById leadId st)) = salesagents st
  /\ fst (readCommentsByLeadId leadId (snd (deleteLeadById leadId st)))
     = fst (readCommentsByLeadId leadId st).
Proof.
  rewrite deleteLeadById_eq.
  destruct (findById_in LeadSchema._id (leads st) (Some leadId));
    repeat split.
Qed.

(** X13.  A comment that is accepted (text and author not blank, existing
    lead, existing author) is appended to the collection and is read back
    at once: the list of the comments of the lead is the former list followed
    by the new comment, with its author resolved to the agent's record. *)
Theorem createComment_then_read (leadId i : ObjectId) (body : CommentData)
  (st : Store) :
  ~ blank_text (cd_commentText body) ->
  cd_author body = Some i ->
  agent_exists st i ->
  lead_exists st leadId ->
  exists (c : CommentSchema.doc) (a : SalesAgentSchema.doc)
         (before : list PopulatedComment.doc) (st' : Store),
    createComment leadId body st = (Ok c, st')
    /\ comments st' = comments st ++ [c]
    /\ leads st' = leads st
    /\ salesagents st' = salesagents st
    /\ In a (salesagents st) /\ SalesAgentSchema._id a = i
    /\ readCommentsByLeadId leadId st = (Ok before, st)
    /\ readCommentsByLeadId leadId st'
       = (Ok (before
              ++ [PopulatedComment.Doc (CommentSchema._id c) (Some leadId)
                    (cd_commentText body) (Some a)]), st').
Proof.
  intros Text Ref Known Present.
  assert (T : truthy (cd_commentText body) && truthy (cd_author body) = true).
  { destruct (comment_blank_dec body) as [[[B|B] _]|[_ T]];
      [contradiction | congruence | exact T]. }
  rewrite createComment_eq, T.
  destruct (findById_in_identifies _ _ _ _ Known) as [a F].
  destruct (findById_in_identifies _ _ _ _ Present) as [d G].
  unfold agent_exists, lead_exists in *. rewrite G, Ref, F. cbv zeta.
  apply findById_in_Some in F as F'. destruct F' as [Ia Ea].
  do 4 eexists. split; [reflexivity|].
  do 3 (split; [reflexivity|]). do 2 (split; [eassumption|]).
  split; [apply readCommentsByLeadId_eq|].
  rewrite readCommentsByLeadId_eq. cbn [with_comments comments salesagents].
  rewrite filter_app, map_app. cbn [filter].
  unfold comment_of at 2. cbn [CommentSchema.lead CommentSchema.data].
  assert (R : option_eqb Nat.eqb (Some leadId) (Some leadId) = true)
    by now apply option_eqb_nat_spec.
  rewrite R. cbn [map]. unfold CommentQuery.populated at 2.
  cbn [CommentSchema._id CommentSchema.data CommentSchema.lead
         CommentSchema.commentText CommentSchema.author].
  now rewrite F.
Qed.

Lemma createComment_then_read_witness :
  let body := {| cd_commentText := Some "Sent the offer";
                 cd_author := Some 2 |} in
  exists (c : CommentSchema.doc) (a : SalesAgentSchema.doc)
         (before : list PopulatedComment.doc) (st' : Store),
    createComment 2 body crm_with_note = (Ok c, st')
    /\ comments st' = comments crm_with_note ++ [c]
    /\ leads st' = leads crm_with_note
    /\ salesagents st' = salesagents crm_with_note
    /\ In a (salesagents crm_with_note) /\ SalesAgentSchema._id a = 2
    /\ readCommentsByLeadId 2 crm_with_note = (Ok before, crm_with_note)
    /\ readCommentsByLeadId 2 st'
       = (Ok (before
              ++ [PopulatedComment.Doc (CommentSchema._id c) (Some 2)
                    (cd_commentText body) (Some a)]), st').
Proof.
  intros body. apply (createComment_then_read 2 2 body crm_with_note).
  - intros [B|B]; discriminate B.
  - reflexivity.
  - exists bram. split; [right; now left | reflexivity].
  - exists birch. split; [right; now left | reflexivity].
Defined.

(** ** Agents and leads together *)

(** X14.  An agent that has just been created can be named at once as the
    [salesAgent] of a new lead: the creation of the lead succeeds and the
    lead comes back with [salesAgent] resolved to that very agent. *)
Theorem createSalesAgent_then_createLead (agent : SalesAgentSchema.fields)
  (data : LeadSchema.fields) (st st1 : Store) (a : SalesAgentSchema.doc) :
  createSalesAgent agent st = (Ok a, st1) ->
  lead_fields_truthy data = true ->
  LeadSchema.salesAgent data = Some (SalesAgentSchema._id a) ->
  exists (r : PopulatedLead.doc) (st2 : Store),
    createLead data st1 = (Ok (Some r), st2)
    /\ PopulatedLead.salesAgent r = Some a
    /\ salesagents st2 = salesagents st ++ [a].
Proof.
  intros Created T Ref.
  apply createSalesAgent_Ok in Created as (_ & _ & _ & Ea & ->).
  assert (Found : findById_in SalesAgentSchema._id (salesagents st ++ [a])
                    (Some (SalesAgentSchema._id a)) = Some a).
  { subst a.
    apply (findById_in_saved _ SalesAgentSchema._id (salesagents st)
             (fun j => SalesAgentSchema.Doc j agent)). reflexivity. }
  destruct (createLead (data) (with_salesagents (fun docs => docs ++ [a]) st))
    as [res st2] eqn:C.
  rewrite createLead_eq, T, Ref in C.
  cbn [with_salesagents salesagents leads] in C. rewrite Found in C.
  cbv zeta in C. cbn [with_leads with_salesagents leads salesagents] in C.
  rewrite (findById_in_saved _ LeadSchema._id (leads st)
             (fun j => LeadSchema.Doc j data) (fun j => eq_refl)) in C.
  inversion C; subst; clear C.
  do 2 eexists. split; [reflexivity|]. split; [|reflexivity].
  cbn. now rewrite Ref.
Qed.

Lemma createSalesAgent_then_createLead_witness :
  let agent :=
    SalesAgentSchema.Fields (Some "Cleo") (Some "cleo@example.com") in
  let cleo := SalesAgentSchema.Doc 3 agent in
  let data := lead_fields "Dune" "Website" 3 "New" 4 "High" ["trial"] in
  exists (r : PopulatedLead.doc) (st2 : Store),
    createLead data (snd (createSalesAgent agent crm)) = (Ok (Some r), st2)
    /\ PopulatedLead.salesAgent r = Some cleo
    /\ salesagents st2 = salesagents crm ++ [cleo].
Proof.
  intros agent cleo data.
  apply (createSalesAgent_then_createLead agent data crm
           (snd (createSalesAgent agent crm)) cleo); reflexivity.
Defined.

(** ** Invariants of the store *)

Lemma createLead_store (data : LeadSchema.fields) (st : Store) :
  snd (createLead data st) = st
  \/ (lead_fields_truthy data = true
      /\ (exists i, LeadSchema.salesAgent data = Some i /\ agent_exists st i)
      /\ snd (createLead data st)
         = with_leads
             (fun docs =>
                docs ++ [LeadSchema.Doc
                           (freshId (map LeadSchema._id (leads st))) data])
             st).
Proof.
  rewrite createLead_eq. destruct (lead_fields_truthy data) eqn:T; [|now left].
  destruct (lead_references data T) as [i Ref]. rewrite Ref.
  destruct (agent_known_dec st i) as [(a & F & Ia & Ea)|[F _]]; rewrite F;
    [|now left].
  right. split; [reflexivity|]. split; [|reflexivity].
  exists i. split; [reflexivity | now exists a].
Qed.

Lemma updateLeadById_store (leadId : ObjectId) (data : LeadSchema.fields)
  (st : Store) :
  snd (updateLeadById leadId data st) = st
  \/ ((exists i, LeadSchema.salesAgent data = Some i /\ agent_exists st i)
      /\ snd (updateLeadById leadId data st)
         = with_leads
             (update_in LeadSchema._id leadId
                (fun d => LeadSchema.Doc (LeadSchema._id d) data)) st).
Proof.
  rewrite updateLeadById_eq.
  destruct (lead_fields_truthy data) eqn:T; [|now left].
  destruct (lead_references data T) as [i Ref]. rewrite Ref.
  destruct (agent_known_dec st i) as [(a & F & Ia & Ea)|[F _]]; rewrite F;
    [|now left].
  destruct (lead_known_dec st leadId) as [(d & G & Id & Ed)|[G _]]; rewrite G;
    [|now left].
  right. split; [exists i; split; [reflexivity | now exists a]|].
  cbv zeta. now rewrite Ed.
Qed.

Lemma deleteLeadById_store (leadId : ObjectId) (st : Store) :
  snd (deleteLeadById leadId st) = st
  \/ snd (deleteLeadById leadId st)
     = with_leads (delete_in LeadSchema._id leadId) st.
Proof.
  rewrite deleteLeadById_eq.
  destruct (lead_known_dec st leadId) as [(d & G & Id & Ed)|[G _]]; rewrite G;
    [|now left].
  right. cbn. now rewrite Ed.
Qed.

Lemma createSalesAgent_store (data : SalesAgentSchema.fields) (st : Store) :
  snd (createSalesAgent data st) = st
  \/ snd (createSalesAgent data st)
     = with_salesagents
         (fun docs =>
            docs ++ [SalesAgentSchema.Doc
                       (freshId (map SalesAgentSchema._id (salesagents st)))
                       data]) st.
Proof.
  rewrite createSalesAgent_eq.
  destruct (_ && _); [|now left].
  destruct (find _ _); [now left | now right].
Qed.

Lemma createComment_store (leadId : ObjectId) (data : CommentData)
  (st : Store) :
  snd (createComment leadId data st) = st
  \/ ((exists i, cd_author data = Some i /\ agent_exists st i)
      /\ snd (createComment leadId data st)
         = with_comments
             (fun docs =>
                docs ++ [CommentSchema.Doc
                           (freshId (map CommentSchema._id (comments st)))
                           (CommentSchema.Fields (Some leadId)
                              (cd_commentText data) (cd_author data))]) st).
Proof.
  rewrite createComment_eq.
  destruct (_ && _); [|now left].
  destruct (findById_in _ (leads st) _); [|now left].
  destruct (cd_author data) as [i|] eqn:Ref; [|now left].
  destruct (agent_known_dec st i) as [(a & F & Ia & Ea)|[F _]]; rewrite F;
    [|now left].
  right. split; [|reflexivity].
  exists i. split; [reflexivity | now exists a].
Qed.

(** X15.  Identifiers stay unique: if in each of the three collections no two
    documents share an identifier, the same holds after any of the five
    writes, whether the write succeeds or fails. *)
Theorem writes_keep_ids_unique (st : Store) (leadId : ObjectId)
  (lead : LeadSchema.fields) (agent : SalesAgentSchema.fields)
  (comment : CommentData) :
  unique_ids st ->
  unique_ids (snd (createLead lead st))
  /\ unique_ids (snd (updateLeadById leadId lead st))
  /\ unique_ids (snd (deleteLeadById leadId st))
  /\ unique_ids (snd (createSalesAgent agent st))
  /\ unique_ids (snd (createComment leadId comment st)).
Proof.
  intros (UL & UA & UC). split; [|split; [|split; [|split]]].
  - destruct (createLead_store lead st) as [->|(_ & _ & ->)];
      [now repeat split|].
    repeat split; try assumption.
    now apply snoc_fresh_NoDup.
  - destruct (updateLeadById_store leadId lead st) as [->|(_ & ->)];
      [now repeat split|].
    repeat split; try assumption.
    unfold unique_lead_ids. cbn [with_leads leads].
    now rewrite update_in_ids.
  - destruct (deleteLeadById_store leadId st) as [->| ->];
      [now repeat split|].
    repeat split; try assumption.
    now apply delete_in_NoDup.
  - destruct (createSalesAgent_store agent st) as [->| ->];
      [now repeat split|].
    repeat split; try assumption.
    now apply snoc_fresh_NoDup.
  - destruct (createComment_store leadId comment st) as [->|(_ & ->)];
      [now repeat split|].
    repeat split; try assumption.
    now apply snoc_fresh_NoDup.
Qed.

Lemma writes_keep_ids_unique_witness :
  let lead := lead_fields "Dune" "Website" 2 "New" 4 "High" ["trial"] in
  let agent :=
    SalesAgentSchema.Fields (Some "Cleo") (Some "cleo@example.com") in
  let comment := {| cd_commentText := Some "Sent the offer";
                    cd_author := Some 2 |} in
  unique_ids (snd (createLead lead crm_with_note))
  /\ unique_ids (snd (updateLeadById 2 lead crm_with_note))
  /\ unique_ids (snd (deleteLeadById 2 crm_with_note))
  /\ unique_ids (snd (createSalesAgent agent crm_with_note))
  /\ unique_ids (snd (createComment 2 comment crm_with_note)).
Proof.
  intros lead agent comment.
  apply (writes_keep_ids_unique crm_with_note 2 lead agent comment).
  repeat split; cbn; repeat constructor; cbn; intuition lia.
Defined.

Lemma references_resolve_same_agents (st st' : Store) :
  salesagents st' = salesagents st ->
  (forall d, In d (leads st') ->
     exists i, LeadSchema.salesAgent (LeadSchema.data d) = Some i
               /\ agent_exists st i) ->
  (forall c, In c (comments st') ->
     exists i, CommentSchema.author (CommentSchema.data c) = Some i
               /\ agent_exists st i) ->
  references_resolve st'.
Proof.
  intros E L C. unfold references_resolve, agent_exists in *.
  rewrite E. now split.
Qed.

(** X16.  References stay resolved: if every lead names an existing agent and
    every comment an existing author, the same holds after any of the five
    writes, whether the write succeeds or fails. *)
Theorem writes_keep_references (st : Store) (leadId : ObjectId)
  (lead : LeadSchema.fields) (agent : SalesAgentSchema.fields)
  (comment : CommentData) :
  references_resolve st ->
  references_resolve (snd (createLead lead st))
  /\ references_resolve (snd (updateLeadById leadId lead st))
  /\ references_resolve (snd (deleteLeadById leadId st))
  /\ references_resolve (snd (createSalesAgent agent st))
  /\ references_resolve (snd (createComment leadId comment st)).
Proof.
  intros R. pose proof R as [RL RC]. split; [|split; [|split; [|split]]].
  - destruct (createLead_store lead st) as [->|(_ & Known & ->)];
      [exact R|].
    apply (references_resolve_same_agents st); [reflexivity | | exact RC].
    cbn [with_leads leads]. intros d I.
    apply in_app_or in I as [I|[<-|[]]]; [now apply RL | exact Known].
  - destruct (updateLeadById_store leadId lead st) as [->|(Known & ->)];
      [exact R|].
    apply (references_resolve_same_agents st); [reflexivity | | exact RC].
    cbn [with_leads leads]. intros d I.
    apply update_in_In in I as [I|(d' & _ & _ & ->)];
      [now apply RL | exact Known].
  - destruct (deleteLeadById_store leadId st) as [->| ->]; [exact R|].
    apply (references_resolve_same_agents st); [reflexivity | | exact RC].
    cbn [with_leads leads]. intros d I. apply RL.
    now apply delete_in_In in I.
  - destruct (createSalesAgent_store agent st) as [->| ->]; [exact R|].
    assert (More : forall i, agent_exists st i ->
                     agent_exists
                       (with_salesagents
                          (fun docs =>
                             docs ++ [SalesAgentSchema.Doc
                                        (freshId (map SalesAgentSchema._id
                                                    (salesagents st)))
                                        agent]) st) i).
    { intros i (a & I & E). exists a. split; [|exact E].
      cbn. apply in_or_app. now left. }
    split; cbn [with_salesagents leads comments].
    + intros d I. destruct (RL d I) as (i & E & K). exists i. auto.
    + intros c I. destruct (RC c I) as (i & E & K). exists i. auto.
  - destruct (createComment_store leadId comment st) as [->|(Known & ->)];
      [exact R|].
    apply (references_resolve_same_agents st); [reflexivity | exact RL |].
    cbn [with_comments comments]. intros c I.
    apply in_app_or in I as [I|[<-|[]]]; [now apply RC | exact Known].
Qed.

Lemma writes_keep_references_witness :
  let lead := lead_fields "Dune" "Website" 2 "New" 4 "High" ["trial"] in
  let agent :=
    SalesAgentSchema.Fields (Some "Cleo") (Some "cleo@example.com") in
  let comment := {| cd_commentText := Some "Sent the offer";
                    cd_author := Some 2 |} in
  references_resolve (snd (createLead lead crm_with_note))
  /\ references_resolve (snd (updateLeadById 2 lead crm_with_note))
  /\ references_resolve (snd (deleteLeadById 2 crm_with_note))
  /\ references_resolve (snd (createSalesAgent agent crm_with_note))
  /\ references_resolve (snd (createComment 2 comment crm_with_note)).
Proof.
  intros lead agent comment.
  apply (writes_keep_references crm_with_note 2 lead agent comment).
  assert (A1 : agent_exists crm_with_note 1)
    by (exists asha; split; [now left | reflexivity]).
  split.
  - intros d [<-|[<-|[<-|[]]]]; exists 1; split; auto.
  - intros c [<-|[]]. exists 1. split; auto.
Defined.

(** X17.  In a store whose references resolve, no listing shows a dangling
    reference: every lead [readAllLeads] returns, for any parameters, has its
    [salesAgent] resolved to an agent of the store, and every comment
    [readCommentsByLeadId] returns has its [author] resolved likewise. *)
Theorem listings_resolve_references (st : Store) (q : LeadQueryParams)
  (leadId : ObjectId) :
  references_resolve st ->
  (exists ds, readAllLeads q st = (Ok ds, st)
              /\ forall d, In d ds ->
                   exists a, PopulatedLead.salesAgent d = Some a
                             /\ In a (salesagents st))
  /\ (exists cs, readCommentsByLeadId leadId st = (Ok cs, st)
                 /\ forall c, In c cs ->
                      exists a, PopulatedComment.author c = Some a
                                /\ In a (salesagents st)).
Proof.
  intros [RL RC]. split.
  - eexists. split; [apply readAllLeads_eq|].
    intros d I. apply in_map_iff in I as (l & <- & I).
    apply filter_In in I as [I _].
    destruct (RL l I) as (i & E & K).
    destruct (findById_in_identifies _ _ _ _ K) as [a F].
    exists a. cbn. rewrite E. split; [exact F|].
    now apply findById_in_Some in F.
  - eexists. split; [apply readCommentsByLeadId_eq|].
    intros c I. apply in_map_iff in I as (l & <- & I).
    apply filter_In in I as [I _].
    destruct (RC l I) as (i & E & K).
    destruct (findById_in_identifies _ _ _ _ K) as [a F].
    exists a. cbn. rewrite E. split; [exact F|].
    now apply findById_in_Some in F.
Qed.

Lemma listings_resolve_references_witness :
  let q := {| qp_salesAgent := None; qp_status := Some "Closed";
              qp_source := None |} in
  (exists ds, readAllLeads q crm_with_note = (Ok ds, crm_with_note)
              /\ forall d, In d ds ->
                   exists a, PopulatedLead.salesAgent d = Some a
                             /\ In a (salesagents crm_with_note))
  /\ (exists cs, readCommentsByLeadId 2 crm_with_note = (Ok cs, crm_with_note)
                 /\ forall c, In c cs ->
                      exists a, PopulatedComment.author c = Some a
                                /\ In a (salesagents crm_with_note)).
Proof.
  intros q. apply (listings_resolve_references crm_with_note q 2).
  assert (A1 : agent_exists crm_with_note 1)
    by (exists asha; split; [now left | reflexivity]).
  split.
  - intros d [<-|[<-|[<-|[]]]]; exists 1; split; auto.
  - intros c [<-|[]]. exists 1. split; auto.
Defined.

(** ** The closed-by-agent report, as a whole *)

Lemma group_total_accumulate (k : option ObjectId)
  (acc : list Aggregate.grouped) :
  group_total (Aggregate.accumulate k acc) = S (group_total acc).
Proof.
  unfold group_total, list_sum.
  induction acc as [|g acc IH]; cbn; [reflexivity|].
  destruct (option_eqb Nat.eqb (Aggregate.g_id g) k); cbn; [reflexivity|].
  rewrite IH. lia.
Qed.

Lemma group_total_fold (docs : list LeadSchema.doc) :
  forall acc,
    group_total (fold_left step docs acc) = length docs + group_total acc.
Proof.
  induction docs as [|d docs IH]; cbn [fold_left length]; intros acc;
    [reflexivity|].
  rewrite IH. unfold step. rewrite group_total_accumulate. lia.
Qed.

(** [$group] loses no document: the counts of the groups add up to the
    number of documents grouped. *)
Lemma group_total_all (docs : list LeadSchema.doc) :
  group_total (Aggregate.group_by_salesAgent docs) = length docs.
Proof.
  unfold Aggregate.group_by_salesAgent.
  change (fun acc d => Aggregate.accumulate
                         (LeadSchema.salesAgent (LeadSchema.data d)) acc)
    with step.
  rewrite group_total_fold. unfold group_total. cbn. lia.
Qed.

Lemma total_count_app (xs ys : list Aggregate.projected) :
  total_count (xs ++ ys) = total_count xs + total_count ys.
Proof. unfold total_count. now rewrite map_app, list_sum_app. Qed.

Lemma entries_total_le (agents : list SalesAgentSchema.doc)
  (gs : list Aggregate.grouped) :
  NoDup (map SalesAgentSchema._id agents) ->
  total_count (entries agents gs) <= group_total gs.
Proof.
  intros UA. induction gs as [|g gs IH]; [apply le_n|].
  rewrite entries_cons, total_count_app.
  change (group_total (g :: gs)) with (Aggregate.g_count g + group_total gs).
  destruct (Aggregate.g_id g) as [i|].
  - rewrite (lookup_unique agents i UA).
    destruct (findById_in SalesAgentSchema._id agents (Some i)).
    + change (total_count _) with (Aggregate.g_count g + 0) at 1. lia.
    + change (total_count (map _ [])) with 0. lia.
  - rewrite lookup_null. change (total_count (map _ [])) with 0. lia.
Qed.

Lemma entries_total_eq (agents : list SalesAgentSchema.doc)
  (gs : list Aggregate.grouped) :
  NoDup (map SalesAgentSchema._id agents) ->
  (forall g, In g gs ->
     exists i, Aggregate.g_id g = Some i
               /\ identifies SalesAgentSchema._id agents i) ->
  total_count (entries agents gs) = group_total gs.
Proof.
  intros UA. induction gs as [|g gs IH]; intros K; [reflexivity|].
  rewrite entries_cons, total_count_app.
  change (group_total (g :: gs)) with (Aggregate.g_count g + group_total gs).
  rewrite IH by (intros h I; apply K; now right).
  destruct (K g (or_introl eq_refl)) as (i & E & Known). rewrite E.
  rewrite (lookup_unique agents i UA).
  destruct (findById_in_identifies _ _ _ _ Known) as [a F]. rewrite F.
  change (total_count _) with (Aggregate.g_count g + 0) at 1. lia.
Qed.

Lemma closed_report_total (st : Store) :
  unique_agent_ids st ->
  let es := entries (salesagents st)
              (Aggregate.group_by_salesAgent
                 (Aggregate.match_status "Closed" (leads st))) in
  total_count es <= length (filter is_closed (leads st))
  /\ (references_resolve st ->
        total_count es = length (filter is_closed (leads st))).
Proof.
  intros UA.
  set (closed := Aggregate.match_status "Closed" (leads st)).
  cbv zeta. rewrite <- match_status_closed. fold closed.
  rewrite <- (group_total_all closed). split.
  - now apply entries_total_le.
  - intros [RL _]. apply entries_total_eq; [exact UA|].
    intros g I.
    assert (Key : In (Aggregate.g_id g) (map key_of closed)).
    { apply group_keys. now apply in_map. }
    apply in_map_iff in Key as (d & E & Id).
    apply filter_In in Id as [Id _].
    destruct (RL d Id) as (i & Ref & Known).
    exists i. split; [|exact Known]. rewrite <- E. exact Ref.
Qed.

(** X18.  Identifiers of agents being unique, the counts of the
    closed-by-agent report never add up to more than the number of Closed
    leads, and they add up to exactly that number when every lead names an
    existing agent: no Closed lead is then lost or counted twice. *)
Theorem readClosedLeadsByAgent_total (st : Store) :
  unique_agent_ids st ->
  exists es,
    readClosedLeadsByAgent st = (Ok es, st)
    /\ total_count es <= length (filter is_closed (leads st))
    /\ (references_resolve st ->
          total_count es = length (filter is_closed (leads st))).
Proof.
  intros UA. eexists. split; [reflexivity|].
  exact (closed_report_total st UA).
Qed.

Lemma readClosedLeadsByAgent_total_witness :
  exists es,
    readClosedLeadsByAgent crm_with_note = (Ok es, crm_with_note)
    /\ total_count es <= length (filter is_closed (leads crm_with_note))
    /\ (references_resolve crm_with_note ->
          total_count es = length (filter is_closed (leads crm_with_note))).
Proof.
  apply (readClosedLeadsByAgent_total crm_with_note).
  unfold unique_agent_ids. cbn. repeat constructor; cbn; intuition lia.
Defined.

Lemma closed_by_agent_shape (st : Store) :
  unique_agent_ids st ->
  exists ids,
    (forall i, In i ids <-> agent_exists st i /\ 1 <= closed_count st i)
    /\ Forall2 (entry_for (salesagents st) (closed_count st)) ids
         (entries (salesagents st)
            (Aggregate.group_by_salesAgent
               (Aggregate.match_status "Closed" (leads st)))).
Proof.
  intros UA.
  set (closed := Aggregate.match_status "Closed" (leads st)).
  set (gs := Aggregate.group_by_salesAgent closed).
  destruct (report_shape (salesagents st) (closed_count st) gs UA
              (group_keys_NoDup closed)) as (ids & U & Mem & Shape).
  { intros g i I K. rewrite closed_count_eq, <- K. now apply group_counts. }
  exists ids. split; [|exact Shape].
  intros i. rewrite Mem. unfold gs. rewrite group_keys.
  rewrite closed_count_eq, filter_length_pos, in_map_iff.
  fold closed. unfold agent_exists.
  split.
  - intros [(d & H1 & H2) Known]. split; [exact Known|].
    exists d. split; [exact H2 | now apply option_eqb_nat_spec].
  - intros [Known (d & H1 & H2)]. split; [|exact Known].
    exists d. split; [now apply option_eqb_nat_spec | exact H1].
Qed.

(** X19.  Identifiers of agents being unique, [GET /report/closed-by-agent]
    answers 404 "No closed leads found" exactly when no agent of the store
    has a Closed lead (even if there are Closed leads that name no existing
    agent) and 200 with a report that is not empty otherwise. *)
Theorem get_report_closed_by_agent_table (st : Store) :
  unique_agent_ids st ->
  ((forall i, agent_exists st i -> closed_count st i = 0)
   /\ get_report_closed_by_agent st
      = (reply 404 (PError "No closed leads found"), st))
  \/ ((exists i, agent_exists st i /\ 1 <= closed_count st i)
      /\ exists es, es <> []
                    /\ get_report_closed_by_agent st
                       = (reply 200 (PClosedByAgent es), st)).
Proof.
  intros UA. destruct (closed_by_agent_shape st UA) as (ids & Mem & Shape).
  unfold get_report_closed_by_agent.
  change (readClosedLeadsByAgent st)
    with (Ok (entries (salesagents st)
                (Aggregate.group_by_salesAgent
                   (Aggregate.match_status "Closed" (leads st)))), st).
  cbv iota beta.
  destruct Shape as [|i e ids es _ _].
  - left. split; [|reflexivity].
    intros i Known. destruct (closed_count st i) eqn:C; [reflexivity|].
    exfalso. apply (proj2 (Mem i)). split; [exact Known | lia].
  - right. split.
    + exists i. apply Mem. now left.
    + eexists. split; [|reflexivity]. discriminate.
Qed.

Lemma get_report_closed_by_agent_table_witness :
  ((forall i, agent_exists crm i -> closed_count crm i = 0)
   /\ get_report_closed_by_agent crm
      = (reply 404 (PError "No closed leads found"), crm))
  \/ ((exists i, agent_exists crm i /\ 1 <= closed_count crm i)
      /\ exists es, es <> []
                    /\ get_report_closed_by_agent crm
                       = (reply 200 (PClosedByAgent es), crm)).
Proof.
  apply (get_report_closed_by_agent_table crm).
  unfold unique_agent_ids. cbn. repeat constructor; cbn; intuition lia.
Defined.

(** ** The two reports together *)

Lemma closed_or_in_pipeline (docs : list LeadSchema.doc) :
  length (filter (fun d => negb (is_closed d)) docs)
  + length (filter is_closed docs) = length docs.
Proof.
  induction docs as [|d docs IH]; cbn; [reflexivity|].
  destruct (is_closed d); cbn; lia.
Qed.

(** X21.  In a store with unique agent identifiers whose references resolve,
    the two reports account for every lead once: the count of the pipeline
    report and the counts of the closed-by-agent report add up to the number
    of leads.  [GET /report/pipeline] answers 200 with that pipeline
    count. *)
Theorem reports_account_for_all_leads (st : Store) :
  unique_agent_ids st ->
  references_resolve st ->
  exists (n : nat) (es : list Aggregate.projected),
    readPipelineReport st = (Ok {| totalLeadsInPipeline := n |}, st)
    /\ get_report_pipeline st
       = (reply 200 (PPipeline {| totalLeadsInPipeline := n |}), st)
    /\ readClosedLeadsByAgent st = (Ok es, st)
    /\ n + total_count es = length (leads st).
Proof.
  intros UA R.
  exists (in_pipeline st),
    (entries (salesagents st)
       (Aggregate.group_by_salesAgent
          (Aggregate.match_status "Closed" (leads st)))).
  split; [apply readPipelineReport_eq|].
  split; [unfold get_report_pipeline; now rewrite readPipelineReport_eq|].
  split; [reflexivity|].
  destruct (closed_report_total st UA) as [_ Total].
  rewrite (Total R). apply closed_or_in_pipeline.
Qed.

Lemma reports_account_for_all_leads_witness :
  exists (n : nat) (es : list Aggregate.projected),
    readPipelineReport crm_with_note
    = (Ok {| totalLeadsInPipeline := n |}, crm_with_note)
    /\ get_report_pipeline crm_with_note
       = (reply 200 (PPipeline {| totalLeadsInPipeline := n |}),
          crm_with_note)
    /\ readClosedLeadsByAgent crm_with_note = (Ok es, crm_with_note)
    /\ n + total_count es = length (leads crm_with_note).
Proof.
  apply (reports_account_for_all_leads crm_with_note).
  - unfold unique_agent_ids. cbn. repeat constructor; cbn; intuition lia.
  - assert (A1 : agent_exists crm_with_note 1)
      by (exists asha; split; [now left | reflexivity]).
    split.
    + intros d [<-|[<-|[<-|[]]]]; exists 1; split; auto.
    + intros c [<-|[]]. exists 1. split; auto.
Defined.

(** ** The agents over HTTP *)

(** X23.  [GET /agents] answers 404 "No sales agents found" exactly when the
    collection is empty; and after [POST /agents] has answered 201 with an
    agent, [GET /agents] answers 200 with the former agents followed by that
    agent. *)
Theorem get_agents_table (st : Store) :
  ((salesagents st = []
    /\ get_agents st = (reply 404 (PError "No sales agents found"), st))
   \/ (salesagents st <> []
       /\ get_agents st = (reply 200 (PAgents (salesagents st)), st)))
  /\ (forall body a st',
        post_agents body st = (reply 201 (PAgent a), st') ->
        get_agents st' = (reply 200 (PAgents (salesagents st ++ [a])), st')).
Proof.
  split.
  - unfold get_agents, readAllSalesAgents, try_catch, SalesAgent.find, gets.
    destruct (salesagents st) as [|a l].
    + left. now split.
    + right. split; [discriminate | reflexivity].
  - intros body a st' P. unfold post_agents in P.
    destruct (createSalesAgent body st) as [[a'|e] st1] eqn:C;
      [|discriminate].
    inversion P; subst a' st1; clear P.
    apply createSalesAgent_Ok in C as (_ & _ & _ & _ & ->).
    unfold get_agents, readAllSalesAgents, try_catch, SalesAgent.find, gets.
    cbn [with_salesagents salesagents]. rewrite length_app. cbn [length].
    destruct (0 <? length (salesagents st) + 1)%nat eqn:L; [reflexivity|].
    apply Nat.ltb_ge in L. lia.
Qed.

Lemma get_agents_table_witness :
  let body := SalesAgentSchema.Fields (Some "Cleo") (Some "cleo@example.com") in
  let cleo := SalesAgentSchema.Doc 3 body in
  get_agents (snd (post_agents body crm))
  = (reply 200 (PAgents (salesagents crm ++ [cleo])),
     snd (post_agents body crm)).
Proof.
  intros body cleo.
  apply (proj2 (get_agents_table crm) body cleo (snd (post_agents body crm))).
  reflexivity.
Defined.

(** * Properties of the operations on requests *)

Section RequestProperties.
Variable castError : string -> string -> string -> Error.


Lemma comment_body_blank_dec (body : CommentBody.t) :
  comment_body_blank body
  /\ truthy (CommentBody.commentText body)
     && truthy (CommentBody.author body) = false
  \/ ~ comment_body_blank body
     /\ truthy (CommentBody.commentText body)
        && truthy (CommentBody.author body) = true.
Proof.
  destruct (truthy (CommentBody.commentText body)
            && truthy (CommentBody.author body)) eqn:T.
  - right. split; [|reflexivity]. rewrite comment_body_blank_iff. congruence.
  - left. split; [|reflexivity]. now apply comment_body_blank_iff.
Qed.

(** A reference that passes the presence check is the text of an identifier
    or a text, not empty, that is not one. *)
Lemma truthy_reference_cases (o : option IdText) :
  truthy o = true ->
  (exists i, o = Some (IdOf i))
  \/ (exists text, o = Some (NotAnId text) /\ text <> "").
Proof.
  destruct o as [[i|text]|]; cbn; intros T; try discriminate.
  - left. now exists i.
  - right. exists text. split; [reflexivity|].
    intros ->. discriminate T.
Qed.


(** ** What the write routes answer *)



(** X5.  [POST /leads/:id/comments] answers in exactly one of six ways, in
    this order: 400 "Comment text and author are required"; 400 with the
    driver's cast error for an [:id] that is not the text of an identifier;
    400 "Lead not found" when no lead has the identifier, whatever the
    author is; 400 with the driver's cast error for an author that is not
    the text of an identifier; 400 "Author not found"; 201 with the new
    comment, which is appended with the lead, the text and the author of the
    request, the author left unresolved.  A 400 leaves the store as it
    was. *)
Theorem post_leads_id_comments_table (id : IdText) (body : CommentBody.t)
  (st : Store) :
  (comment_body_blank body
   /\ post_leads_id_comments castError id body st
      = (reply 400 (PError "Comment text and author are required"), st))
  \/ (~ comment_body_blank body
      /\ exists text,
           id = NotAnId text
           /\ post_leads_id_comments castError id body st
              = (reply 400 (PError (message (castError "Lead" "_id" text))),
                 st))
  \/ (~ comment_body_blank body
      /\ exists j,
           id = IdOf j
           /\ ~ lead_exists st j
           /\ post_leads_id_comments castError id body st
              = (reply 400 (PError "Lead not found"), st))
  \/ (~ comment_body_blank body
      /\ exists j text,
           id = IdOf j
           /\ lead_exists st j
           /\ CommentBody.author body = Some (NotAnId text)
           /\ post_leads_id_comments castError id body st
              = (reply 400
                   (PError (message (castError "SalesAgent" "_id" text))),
                 st))
  \/ (~ comment_body_blank body
      /\ exists j i,
           id = IdOf j
           /\ lead_exists st j
           /\ CommentBody.author body = Some (IdOf i)
           /\ ~ agent_exists st i
           /\ post_leads_id_comments castError id body st
              = (reply 400 (PError "Author not found"), st))
  \/ (~ comment_body_blank body
      /\ exists j i c,
           id = IdOf j
           /\ lead_exists st j
           /\ CommentBody.author body = Some (IdOf i)
           /\ agent_exists st i
           /\ post_leads_id_comments castError id body st
              = (reply 201 (PComment c),
                 with_comments (fun docs => docs ++ [c]) st)
           /\ CommentSchema.data c
              = CommentSchema.Fields (Some j)
                  (CommentBody.commentText body) (Some i)
           /\ ~ identifies CommentSchema._id (comments st)
                  (CommentSchema._id c)).
Proof.
  unfold post_leads_id_comments. rewrite createComment_req_cases.
  destruct (comment_body_blank_dec body) as [[B T]|[B T]]; rewrite T.
  - left. now split.
  - right. destruct id as [j|text].
    + right. apply andb_true_iff in T as [Tt Ta].
      destruct (truthy_reference_cases _ Ta) as [[i E]|(text & E & _)];
        rewrite E.
      * assert (B' : ~ comment_field_blank (comment_data_of body)).
        { rewrite comment_field_blank_iff. unfold comment_data_of.
          cbn [cd_commentText cd_author]. rewrite E, Tt. cbn. discriminate. }
        assert (Ref : cd_author (comment_data_of body) = Some i)
          by (unfold comment_data_of; cbn; now rewrite E).
        destruct (createComment_table j (comment_data_of body) st)
          as [[B1 _]
             |[(_ & Absent & C)
              |[(_ & Present & (k & Rk & Unknown) & C)
               |(_ & Present & (k & Rk & Known) & c & C & Dc & Fresh)]]].
        -- contradiction.
        -- left. split; [exact B|]. exists j. rewrite C. now repeat split.
        -- right. right. left. split; [exact B|]. exists j, i.
           rewrite Ref in Rk. inversion Rk; subst k.
           rewrite C. now repeat split.
        -- right. right. right. split; [exact B|]. exists j, i, c.
           rewrite Ref in Rk. inversion Rk; subst k.
           rewrite C. repeat split; try assumption.
           rewrite Dc. unfold comment_data_of. cbn. now rewrite E.
      * destruct (lead_known_dec st j) as [(d & G & Id & Ed)|[G Absent]];
          rewrite G.
        -- right. left. split; [exact B|]. exists j, text.
           split; [reflexivity|]. split; [now exists d|]. now split.
        -- left. split; [exact B|]. exists j. now repeat split.
    + left. split; [exact B|]. exists text. now split.
Qed.
(** ** Failures *)

(** X1.  A write that throws has changed nothing, and what it throws is
    either an error of its own checks or the driver's cast error for a text
    of the request that is not an identifier. *)
Theorem failed_write_leaves_store (st st' : Store) (e : Error)
  (leadId : IdText) (lead : LeadBody.t) (agent : SalesAgentSchema.fields)
  (comment : CommentBody.t) :
  (createLead_req castError lead st = (Throw e, st') ->
     st' = st
     /\ (message e = "All fields are required"
         \/ message e = "Sales agent not found"
         \/ exists text,
              LeadBody.salesAgent lead = Some (NotAnId text)
              /\ e = castError "SalesAgent" "_id" text))
  /\ (updateLeadById_req castError leadId lead st = (Throw e, st') ->
        st' = st
        /\ (message e = "All fields are required"
            \/ message e = "Sales agent not found"
            \/ (exists text,
                  LeadBody.salesAgent lead = Some (NotAnId text)
                  /\ e = castError "SalesAgent" "_id" text)
            \/ (exists text,
                  leadId = NotAnId text
                  /\ e = castError "Lead" "_id" text)))
  /\ (createSalesAgent agent st = (Throw e, st') ->
        st' = st
        /\ (message e = "Name and email are required"
            \/ message e = "Sales agent with this email already exists"))
  /\ (createComment_req castError leadId comment st = (Throw e, st') ->
        st' = st
        /\ (message e = "Comment text and author are required"
            \/ message e = "Lead not found"
            \/ message e = "Author not found"
            \/ (exists text,
                  leadId = NotAnId text
                  /\ e = castError "Lead" "_id" text)
            \/ (exists text,
                  CommentBody.author comment = Some (NotAnId text)
                  /\ e = castError "SalesAgent" "_id" text)))
  /\ (deleteLeadById_req castError leadId st = (Throw e, st') ->
        st' = st
        /\ exists text,
             leadId = NotAnId text /\ e = castError "Lead" "_id" text).
Proof.
  split; [|split; [|split; [|split]]].
  - rewrite createLead_req_cases.
    destruct (lead_body_truthy lead);
      [|intros E; inversion E; cbn; auto].
    destruct (LeadBody.salesAgent lead) as [[i|text]|] eqn:S.
    + intros C.
      destruct (failed_write_well_formed st st' e 0 (lead_fields_of lead)
                  agent {| cd_commentText := None; cd_author := None |})
        as [H _].
      destruct (H C) as [-> [M|M]]; auto.
    + intros E. inversion E. split; [reflexivity|].
      right. right. now exists text.
    + intros C.
      destruct (failed_write_well_formed st st' e 0 (lead_fields_of lead)
                  agent {| cd_commentText := None; cd_author := None |})
        as [H _].
      destruct (H C) as [-> [M|M]]; auto.
  - rewrite updateLeadById_req_cases.
    destruct (lead_body_truthy lead);
      [|intros E; inversion E; cbn; auto].
    assert (Typed : forall j,
               updateLeadById j (lead_fields_of lead) st = (Throw e, st') ->
               st' = st
               /\ (message e = "All fields are required"
                   \/ message e = "Sales agent not found")).
    { intros j C.
      destruct (failed_write_well_formed st st' e j (lead_fields_of lead)
                  agent {| cd_commentText := None; cd_author := None |})
        as (_ & H & _).
      exact (H C). }
    assert (Other : forall text,
               match findById_in SalesAgentSchema._id (salesagents st)
                       (cast_reference (LeadBody.salesAgent lead)) with
               | Some _ => (Throw (castError "Lead" "_id" text), st)
               | None => (@Throw (option PopulatedLead.doc)
                            (Err "Sales agent not found"), st)
               end = (Throw e, st') ->
               leadId = NotAnId text ->
               st' = st
               /\ (message e = "All fields are required"
                   \/ message e = "Sales agent not found"
                   \/ (exists text0,
                         LeadBody.salesAgent lead = Some (NotAnId text0)
                         /\ e = castError "SalesAgent" "_id" text0)
                   \/ (exists text0,
                         leadId = NotAnId text0
                         /\ e = castError "Lead" "_id" text0))).
    { intros text C L.
      destruct (findById_in SalesAgentSchema._id (salesagents st) _);
        inversion C; split; try reflexivity.
      - right. right. right. now exists text.
      - right. now left. }
    destruct (LeadBody.salesAgent lead) as [[i|text]|] eqn:S.
    + destruct leadId as [j|text].
      * intros C. destruct (Typed j C) as [-> [M|M]]; auto.
      * intros C. now apply (Other text).
    + intros E. inversion E. split; [reflexivity|].
      right. right. left. now exists text.
    + destruct leadId as [j|text].
      * intros C. destruct (Typed j C) as [-> [M|M]]; auto.
      * intros C. now apply (Other text).
  - intros C.
    destruct (failed_write_well_formed st st' e 0
                (LeadSchema.Fields None None None None None None None)
                agent {| cd_commentText := None; cd_author := None |})
      as (_ & _ & H & _).
    exact (H C).
  - rewrite createComment_req_cases.
    destruct (_ && _); [|intros E; inversion E; cbn; auto].
    destruct leadId as [j|text].
    + assert (Typed :
                createComment j (comment_data_of comment) st = (Throw e, st')
                -> st' = st
                   /\ (message e = "Comment text and author are required"
                       \/ message e = "Lead not found"
                       \/ message e = "Author not found")).
      { intros C.
        destruct (failed_write_well_formed st st' e j
                    (LeadSchema.Fields None None None None None None None)
                    agent (comment_data_of comment))
          as (_ & _ & _ & H).
        exact (H C). }
      destruct (CommentBody.author comment) as [[i|text]|] eqn:A.
      * intros C. destruct (Typed C) as [-> [M|[M|M]]]; auto.
      * destruct (findById_in LeadSchema._id (leads st) (Some j));
          intros E; inversion E; split; try reflexivity.
        -- right. right. right. right. now exists text.
        -- right. now left.
      * intros C. destruct (Typed C) as [-> [M|[M|M]]]; auto.
    + intros E. inversion E. split; [reflexivity|].
      right. right. right. left. now exists text.
  - rewrite deleteLeadById_req_cases. destruct leadId as [j|text].
    + rewrite deleteLeadById_eq.
      destruct (findById_in LeadSchema._id (leads st) (Some j));
        discriminate.
    + intros E. inversion E. split; [reflexivity|]. now exists text.
Qed.

End RequestProperties.

Section RequestReads.
Variable castError : string -> string -> string -> Error.

(** ** Deleting and reading one lead over HTTP *)

(** X9.  [DELETE /leads/:id] answers in exactly one of three ways: 500
    "Failed to delete lead" when [:id] is not the text of an identifier; 404
    "Lead not found" when it is the identifier of no lead; 200 otherwise.
    Only a 200 changes the store: it removes one lead and nothing else:
    agents and comments stay, every other identifier reads as before, and,
    identifiers of leads being unique, the identifier no longer exists, so
    that the same request made again answers 404. *)
Theorem delete_leads_id_table (id : IdText) (st : Store) :
  (exists text,
     id = NotAnId text
     /\ delete_leads_id castError id st
        = (reply 500 (PError "Failed to delete lead"), st))
  \/ (exists j,
        id = IdOf j
        /\ ~ lead_exists st j
        /\ delete_leads_id castError id st
           = (reply 404 (PError "Lead not found"), st))
  \/ (exists j st',
        id = IdOf j
        /\ lead_exists st j
        /\ delete_leads_id castError id st
           = (reply 200 (PMessage "Lead deleted successfully"), st')
        /\ S (length (leads st')) = length (leads st)
        /\ salesagents st' = salesagents st
        /\ comments st' = comments st
        /\ (forall k, k <> j ->
              fst (readLeadById_req castError (IdOf k) st')
              = fst (readLeadById_req castError (IdOf k) st))
        /\ (unique_lead_ids st ->
              ~ lead_exists st' j
              /\ delete_leads_id castError id st'
                 = (reply 404 (PError "Lead not found"), st'))).
Proof.
  unfold delete_leads_id at 1 2 3. rewrite deleteLeadById_req_cases.
  destruct id as [j|text].
  - right.
    destruct (deleteLeadById_table j st)
      as [[Absent C]
         |(Present & d & st' & C & _ & _ & Len & As & Cs & Others & Again)].
    + left. exists j. rewrite C. now repeat split.
    + right. exists j, st'. rewrite C.
      do 6 (split; [reflexivity || assumption|]). split.
      * intros k N. rewrite !readLeadById_req_cases. now apply Others.
      * intros U. destruct (Again U) as [Gone C']. split; [exact Gone|].
        unfold delete_leads_id. rewrite deleteLeadById_req_cases.
        now rewrite C'.
  - left. exists text. now split.
Qed.

(** X22.  [GET /leads/:id] answers in exactly one of three ways: 500 "Failed
    to fetch lead" when [:id] is not the text of an identifier; 404 "Lead not
    found" when it is the identifier of no lead; 200 otherwise, with a lead
    of the collection that has the identifier, shown with its six plain
    fields and its agent resolved.  And a lead that [POST /leads] has just
    answered with is what [GET /leads/:id] answers for its identifier. *)
Theorem get_leads_id_table (id : IdText) (st : Store) :
  ((exists text,
      id = NotAnId text
      /\ get_leads_id castError id st
         = (reply 500 (PError "Failed to fetch lead"), st))
   \/ (exists j,
         id = IdOf j
         /\ ~ lead_exists st j
         /\ get_leads_id castError id st
            = (reply 404 (PError "Lead not found"), st))
   \/ (exists j d r,
         id = IdOf j
         /\ In d (leads st)
         /\ LeadSchema._id d = j
         /\ lead_shown st d r
         /\ get_leads_id castError id st = (reply 200 (PLead r), st)))
  /\ (forall body r st',
        post_leads castError body st = (reply 201 (PLead r), st') ->
        get_leads_id castError (IdOf (PopulatedLead._id r)) st'
        = (reply 200 (PLead r), st')).
Proof.
  split.
  - unfold get_leads_id. rewrite readLeadById_req_cases.
    destruct id as [j|text].
    + right. rewrite readLeadById_eq.
      destruct (lead_known_dec st j) as [(d & G & Id & Ed)|[G Absent]];
        rewrite G.
      * right. exists j, d, (Lead.populated (salesagents st) d).
        split; [reflexivity|]. do 2 (split; [assumption|]).
        split; [apply populated_lead_shown | reflexivity].
      * left. exists j. now repeat split.
    + left. exists text. now split.
  - intros body r st' P. unfold post_leads in P.
    rewrite createLead_req_cases in P.
    destruct (lead_body_truthy body); [|discriminate].
    assert (C : createLead (lead_fields_of body) st = (Ok (Some r), st')).
    { destruct (LeadBody.salesAgent body) as [[i|text]|];
        try discriminate;
        destruct (createLead (lead_fields_of body) st) as [[[r'|]|e] st1];
        try discriminate; now inversion P. }
    clear P. apply createLead_Ok in C as (_ & _ & -> & E).
    inversion E; subst r; clear E.
    set (lead := LeadSchema.Doc (freshId (map LeadSchema._id (leads st)))
                   (lead_fields_of body)).
    assert (Saved : findById_in LeadSchema._id (leads st ++ [lead])
                      (Some (LeadSchema._id lead)) = Some lead).
    { apply (findById_in_saved _ LeadSchema._id (leads st)
               (fun j => LeadSchema.Doc j (lead_fields_of body))).
      reflexivity. }
    unfold get_leads_id. rewrite readLeadById_req_cases.
    cbn [Lead.populated PopulatedLead._id]. rewrite readLeadById_eq.
    cbn [with_leads leads salesagents]. now rewrite Saved.
Qed.

(** ** Listing leads and comments over HTTP *)

(** X20.  [GET /leads] answers in exactly one of three ways: 500 "Failed to
    fetch leads" when [salesAgent] is a text, not empty, that is not the text
    of an identifier; 404 "No leads found" when no lead meets the equality of
    every parameter that has a value other than the empty text (so also when
    the collection is empty); 200 otherwise, with the leads that meet them,
    each shown with its six plain fields and its agent resolved, a list that
    is never empty.  The store is left as it was. *)
Theorem get_leads_table (q : LeadParams.t) (st : Store) :
  (exists text,
     LeadParams.salesAgent q = Some (NotAnId text) /\ text <> ""
     /\ get_leads castError q st
        = (reply 500 (PError "Failed to fetch leads"), st))
  \/ (params_well_formed q
      /\ (forall d, In d (leads st) -> ~ filters_met q d)
      /\ get_leads castError q st
         = (reply 404 (PError "No leads found"), st))
  \/ (params_well_formed q
      /\ (exists d, In d (leads st) /\ filters_met q d)
      /\ exists (keep : LeadSchema.doc -> bool)
                (rs : list PopulatedLead.doc),
           rs <> []
           /\ get_leads castError q st = (reply 200 (PLeads rs), st)
           /\ (forall d, keep d = true <-> filters_met q d)
           /\ Forall2 (lead_shown st) (filter keep (leads st)) rs).
Proof.
  unfold get_leads. rewrite readAllLeads_req_cases.
  assert (Typed :
            match readAllLeads (lead_params_of q) st with
            | (Ok leads, st') =>
                if (0 <? length leads)%nat
                then (reply 200 (PLeads leads), st')
                else (reply 404 (PError "No leads found"), st')
            | (Throw _, st') =>
                (reply 500 (PError "Failed to fetch leads"), st')
            end
            = (reply 404 (PError "No leads found"), st)
              /\ (forall d, In d (leads st) -> ~ filters_met q d)
            \/ (exists d, In d (leads st) /\ filters_met q d)
               /\ exists (keep : LeadSchema.doc -> bool)
                         (rs : list PopulatedLead.doc),
                    rs <> []
                    /\ match readAllLeads (lead_params_of q) st with
                       | (Ok leads, st') =>
                           if (0 <? length leads)%nat
                           then (reply 200 (PLeads leads), st')
                           else (reply 404 (PError "No leads found"), st')
                       | (Throw _, st') =>
                           (reply 500 (PError "Failed to fetch leads"), st')
                       end = (reply 200 (PLeads rs), st)
                    /\ (forall d, keep d = true <-> filters_met q d)
                    /\ Forall2 (lead_shown st) (filter keep (leads st)) rs).
  { rewrite readAllLeads_eq, length_map.
    set (keep := LeadQuery.matches (query_of (lead_params_of q))).
    assert (K : forall d, keep d = true <-> filters_met q d).
    { intros d. unfold keep. rewrite matches_query_of.
      apply filters_met_typed. }
    destruct (filter keep (leads st)) as [|d ds] eqn:F.
    - left. split; [reflexivity|]. intros d I S. apply K in S.
      assert (In d (filter keep (leads st))) by now apply filter_In.
      rewrite F in H. contradiction.
    - right. split.
      + exists d. rewrite <- K. apply filter_In. rewrite F. now left.
      + exists keep. eexists. split; [|split; [reflexivity|split]].
        * discriminate.
        * exact K.
        * rewrite F. apply Forall2_map_shown. apply populated_lead_shown. }
  assert (Cases : forall WF : params_well_formed q,
            (params_well_formed q
             /\ (forall d, In d (leads st) -> ~ filters_met q d)
             /\ match readAllLeads (lead_params_of q) st with
                | (Ok leads, st') =>
                    if (0 <? length leads)%nat
                    then (reply 200 (PLeads leads), st')
                    else (reply 404 (PError "No leads found"), st')
                | (Throw _, st') =>
                    (reply 500 (PError "Failed to fetch leads"), st')
                end = (reply 404 (PError "No leads found"), st))
            \/ (params_well_formed q
                /\ (exists d, In d (leads st) /\ filters_met q d)
                /\ exists (keep : LeadSchema.doc -> bool)
                          (rs : list PopulatedLead.doc),
                     rs <> []
                     /\ match readAllLeads (lead_params_of q) st with
                        | (Ok leads, st') =>
                            if (0 <? length leads)%nat
                            then (reply 200 (PLeads leads), st')
                            else (reply 404 (PError "No leads found"), st')
                        | (Throw _, st') =>
                            (reply 500 (PError "Failed to fetch leads"), st')
                        end = (reply 200 (PLeads rs), st)
                     /\ (forall d, keep d = true <-> filters_met q d)
                     /\ Forall2 (lead_shown st) (filter keep (leads st)) rs)).
  { intros WF. destruct Typed as [[C N]|[E R]].
    - left. now repeat split.
    - right. now repeat split. }
  destruct (LeadParams.salesAgent q) as [[i|text]|] eqn:E.
  - right. apply Cases. intros text H. rewrite E in H. discriminate H.
  - destruct (truthy text) eqn:T.
    + left. exists text. split; [reflexivity|]. split; [|reflexivity].
      intros ->. discriminate T.
    + right. apply Cases. intros text' H. rewrite E in H.
      inversion H; subst text'.
      change (truthy text) with (truthy (Some text)) in T.
      apply falsy_text in T as [T|T]; [discriminate | now inversion T].
  - right. apply Cases. intros text H. rewrite E in H. discriminate H.
Qed.

(** X12.  [readCommentsByLeadId] returns, in the order of the collection,
    exactly the comments whose lead is the identifier given, each shown with
    its identifier, lead and text and with its author resolved to an agent
    of the store ([null] when there is none); it does not look the lead up.
    [GET /leads/:id/comments] answers in exactly one of three ways: 500
    "Failed to fetch comments" when [:id] is not the text of an identifier;
    404 "No comments found" when no comment is attached to the identifier,
    whether a lead has it or not; 200 otherwise, with those comments, a list
    that is never empty. *)
Theorem readCommentsByLeadId_lists (id : IdText) (st : Store) :
  (forall j,
     exists (keep : CommentSchema.doc -> bool)
            (rs : list PopulatedComment.doc),
       (forall c, keep c = true <->
                  CommentSchema.lead (CommentSchema.data c) = Some j)
       /\ readCommentsByLeadId_req castError (IdOf j) st = (Ok rs, st)
       /\ Forall2 (comment_shown st) (filter keep (comments st)) rs)
  /\ ((exists text,
         id = NotAnId text
         /\ readCommentsByLeadId_req castError id st
            = (Throw (castError "Comment" "lead" text), st)
         /\ get_leads_id_comments castError id st
            = (reply 500 (PError "Failed to fetch comments"), st))
      \/ (exists j,
            id = IdOf j
            /\ (forall c, In c (comments st) ->
                   CommentSchema.lead (CommentSchema.data c) <> Some j)
            /\ get_leads_id_comments castError id st
               = (reply 404 (PError "No comments found"), st))
      \/ (exists j cs,
            id = IdOf j
            /\ (exists c, In c (comments st)
                          /\ CommentSchema.lead (CommentSchema.data c)
                             = Some j)
            /\ cs <> []
            /\ get_leads_id_comments castError id st
               = (reply 200 (PComments cs), st)
            /\ Forall2 (comment_shown st)
                 (filter (comment_of j) (comments st)) cs)).
Proof.
  split.
  - intros j. exists (comment_of j). eexists.
    split; [apply comment_of_spec|]. split.
    + rewrite readCommentsByLeadId_req_cases.
      apply readCommentsByLeadId_eq.
    + apply Forall2_map_shown. apply populated_comment_shown.
  - unfold get_leads_id_comments. rewrite readCommentsByLeadId_req_cases.
    destruct id as [j|text].
    + right. rewrite readCommentsByLeadId_eq, length_map.
      destruct (filter (comment_of j) (comments st)) as [|c cs] eqn:F.
      * left. exists j. split; [reflexivity|]. split; [|reflexivity].
        intros c I E. apply comment_of_spec in E.
        assert (In c (filter (comment_of j) (comments st)))
          by now apply filter_In.
        rewrite F in H. contradiction.
      * right. exists j. eexists. split; [reflexivity|]. split.
        { exists c. rewrite <- comment_of_spec. apply filter_In.
          rewrite F. now left. }
        split; [|split; [reflexivity|]].
        { cbn [map]. discriminate. }
        rewrite F. apply Forall2_map_shown. apply populated_comment_shown.
    + left. exists text. now repeat split.
Qed.
End RequestReads.

(** ** Instances on the example store *)

Lemma failed_write_leaves_store_witness :
  let lead :=
    LeadBody.Body (Some "Dune") (Some "Website") (Some (NotAnId "agent-two"))
      (Some "New") (Some 4%Z) (Some "High") (Some ["trial"]) in
  let taken := SalesAgentSchema.Fields (Some "Ada") (Some "asha@example.com") in
  let orphan := CommentBody.Body (Some "Hello") (Some (IdOf 1)) in
  (createLead_req sampleCastError lead crm
   = (Throw (sampleCastError "SalesAgent" "_id" "agent-two"), crm)
   /\ crm = crm
   /\ (message (sampleCastError "SalesAgent" "_id" "agent-two")
       = "All fields are required"
       \/ message (sampleCastError "SalesAgent" "_id" "agent-two")
          = "Sales agent not found"
       \/ exists text,
            LeadBody.salesAgent lead = Some (NotAnId text)
            /\ sampleCastError "SalesAgent" "_id" "agent-two"
               = sampleCastError "SalesAgent" "_id" text))
  /\ (createSalesAgent taken crm
      = (Throw (Err "Sales agent with this email already exists"), crm)
      /\ crm = crm
      /\ (message (Err "Sales agent with this email already exists")
          = "Name and email are required"
          \/ message (Err "Sales agent with this email already exists")
             = "Sales agent with this email already exists"))
  /\ (deleteLeadById_req sampleCastError (NotAnId "nine") crm
      = (Throw (sampleCastError "Lead" "_id" "nine"), crm)
      /\ crm = crm
      /\ exists text,
           NotAnId "nine" = NotAnId text
           /\ sampleCastError "Lead" "_id" "nine"
              = sampleCastError "Lead" "_id" text).
Proof.
  intros lead taken orphan. split; [|split]; (split; [reflexivity|]).
  - apply (failed_write_leaves_store sampleCastError crm crm
             (sampleCastError "SalesAgent" "_id" "agent-two")
             (IdOf 9) lead taken orphan). reflexivity.
  - apply (failed_write_leaves_store sampleCastError crm crm
             (Err "Sales agent with this email already exists")
             (IdOf 9) lead taken orphan). reflexivity.
  - apply (failed_write_leaves_store sampleCastError crm crm
             (sampleCastError "Lead" "_id" "nine")
             (NotAnId "nine") lead taken orphan). reflexivity.
Defined.

Lemma delete_leads_id_table_witness :
  let st' := snd (delete_leads_id sampleCastError (IdOf 2) crm) in
  lead_exists crm 2
  /\ unique_lead_ids crm
  /\ ~ lead_exists st' 2
  /\ delete_leads_id sampleCastError (IdOf 2) st'
     = (reply 404 (PError "Lead not found"), st').
Proof.
  intros st'.
  assert (Present : lead_exists crm 2)
    by (exists birch; split; [right; now left | reflexivity]).
  assert (U : unique_lead_ids crm).
  { unfold unique_lead_ids. cbn. repeat constructor; cbn; intuition lia. }
  split; [exact Present|]. split; [exact U|].
  destruct (delete_leads_id_table sampleCastError (IdOf 2) crm)
    as [(text & E & _)
       |[(j & E & Absent & _)
        |(j & st1 & E & _ & D & _ & _ & _ & _ & Again)]].
  - discriminate E.
  - inversion E; subst j. contradiction.
  - inversion E; subst j st'. rewrite D. cbn [snd]. exact (Again U).
Defined.

Lemma get_leads_id_table_witness :
  let body :=
    LeadBody.Body (Some "Dune") (Some "Website") (Some (IdOf 2))
      (Some "New") (Some 4%Z) (Some "High") (Some ["trial"]) in
  let r :=
    Lead.populated (salesagents crm)
      (LeadSchema.Doc 4
         (lead_fields "Dune" "Website" 2 "New" 4 "High" ["trial"])) in
  let st' := snd (post_leads sampleCastError body crm) in
  get_leads_id sampleCastError (IdOf (PopulatedLead._id r)) st'
  = (reply 200 (PLead r), st').
Proof.
  intros body r st'.
  apply (proj2 (get_leads_id_table sampleCastError (IdOf 4) crm) body r st').
  reflexivity.
Defined.
